(** * Entity-component framework of the Space Invaders demo (demo.cpp)

    A shallow embedding of the component-type registry, [Entity] and
    [EntityManager] of [Game Entity Presentation/src/demo.cpp], and the
    properties of the framework stated over it.

    Conventions of the embedding:
    - [std::size_t] values are [N] with the wrap-around at [2^64] written
      out where the code does arithmetic on them;
    - [std::bitset<32>] is an [N] read with [N.testbit] and written with
      [N.setbit] / [N.clearbit]; indexing it (or a [std::array]) out of
      range is undefined behaviour, which the model reports as [Undefined];
    - heap objects ([new Entity], [new T]) are identified by an allocation
      number that is never reused; a pointer to a freed object dangles and
      dereferencing it is [Undefined];
    - a failing [assert] is [AssertFail] (the process aborts, there is no
      state afterwards); the assertions are taken as compiled in;
    - the virtual hooks of components ([Initialize], [Update], [Draw]) are
      application code: they are parameters of the model, may call the
      framework and fail as it does, and every call of one is recorded in a
      trace;
    - of the game, the functions that work on entities are embedded: the
      factories and the constructor of [Game], the collision tests, the two
      weapons and the time slice of [UpdatePhase]. [float] is [spec_float];
      positions, sizes and velocities of the components are not part of the
      state: where a function reads them they are given to it, and
      assignments to them are left out;
    - the timers and bullet counters of the two controllers and the random
      engine are part of the state, for they decide when [Update] fires a
      weapon and which bullet it takes; the keyboard is an input. *)

From Stdlib Require Import Floats.SpecFloat.
From stdpp Require Import base option list gmap strings numbers.

Open Scope N_scope.

(** ** Name aliases and constants *)

(** [using ComponentID = std::size_t; using Group = std::size_t;] *)
Abbreviation ComponentID := N (only parsing).
Abbreviation Group := N (only parsing).

Definition size_t_modulus : N := 2 ^ 64.
Definition maxComponents : N := 32.
Definition maxGroups : N := 32.

(** The template argument [T] of [GetComponentTypeID<T>]: the name of a
    component type. *)
Abbreviation TypeKey := string (only parsing).

(** ** The component-type registry *)

(** The two kinds of [static] variables: the one [lastID] of
    [Internal::GetUniqueComponentID] and one [typeID] per instantiation of
    [GetComponentTypeID<T>], present in the map once its initialiser has
    run. *)
Record Registry := mkRegistry {
  lastID : ComponentID;
  typeID : gmap TypeKey ComponentID
}.

(** State of the statics at program start. *)
Definition registry_init : Registry := mkRegistry 0 ∅.

(** [static ComponentID lastID{0u}; return lastID++;] *)
Definition GetUniqueComponentID (r : Registry) : ComponentID * Registry :=
  (lastID r, mkRegistry ((lastID r + 1) mod size_t_modulus) (typeID r)).

(** [static ComponentID typeID{Internal::GetUniqueComponentID()};
     return typeID;] *)
Definition GetComponentTypeID (T : TypeKey) (r : Registry)
  : ComponentID * Registry :=
  match typeID r !! T with
  | Some id => (id, r)
  | None =>
      let '(id, r') := GetUniqueComponentID r in
      (id, mkRegistry (lastID r') (<[T := id]> (typeID r')))
  end.

(** A program run as far as the registry sees it: the sequence of template
    arguments with which [GetComponentTypeID] is called, and the IDs the
    calls return. *)
Fixpoint type_id_calls (Ts : list TypeKey) (r : Registry)
  : list ComponentID * Registry :=
  match Ts with
  | [] => ([], r)
  | T :: Ts' =>
      let '(id, r1) := GetComponentTypeID T r in
      let '(ids, r2) := type_id_calls Ts' r1 in
      (id :: ids, r2)
  end.

(** Number of distinct component types among the template arguments. *)
Definition distinct_types (Ts : list TypeKey) : nat :=
  size (list_to_set (C := gset string) Ts).

(** What holds of the statics as long as the counter has not wrapped: the
    counter equals the number of initialised [typeID]s, every ID handed out
    is below it, and no ID was handed out twice. *)
Record registry_inv (r : Registry) : Prop := mkRegistryInv {
  ri_bound : N.of_nat (size (typeID r)) <= size_t_modulus;
  ri_last : lastID r = N.of_nat (size (typeID r)) mod size_t_modulus;
  ri_below : forall T id, typeID r !! T = Some id -> id < N.of_nat (size (typeID r));
  ri_inj : forall T1 T2 id,
      typeID r !! T1 = Some id -> typeID r !! T2 = Some id -> T1 = T2
}.

(** ** Objects on the heap *)

(** [Entity*] and [Component*]: the allocation number of the object. *)
Abbreviation EntityPtr := nat (only parsing).
Abbreviation CompPtr := nat (only parsing).

(** [float], the binary32 format. *)
Abbreviation float := spec_float (only parsing).

(** The conversion of an [int] to [float]. *)
Definition float_of_int (z : Z) : float := binary_normalize 24 128 z 0 false.

(** [a + b] on [float]. *)
Definition float_add (a b : float) : float := SFadd 24 128 a b.

Definition float_gt (a b : float) : bool := SFltb b a.

(** [using FrameTime = float;] the framework only passes the value on. *)
Abbreviation FrameTime := spec_float (only parsing).

(** What the framework knows of a component object: the [entity] member of
    the base class [Component] ([None] until it is assigned) and the dynamic
    type of the object, which selects the virtual functions. The members of
    the derived types belong to the application. *)
Record Component := mkComponent {
  entity : option EntityPtr;
  dynType : TypeKey
}.

(** [class Entity]. The reference member [manager] is left out: the program
    has one [EntityManager] (the member [manager] of [Game]) and every entity
    is constructed with it. [componentArray] is a [std::array] of 32 pointers
    that starts out indeterminate ([None]). *)
Record Entity := mkEntity {
  alive : bool;
  components : list CompPtr;
  active : bool;
  componentArray : list (option CompPtr);
  componentBitset : N;
  groupBitset : N
}.

(** [Entity(EntityManager& manager) : manager(manager) { }] with the default
    member initialisers. *)
Definition Entity_new : Entity :=
  mkEntity true [] true (replicate (N.to_nat maxComponents) None) 0 0.

(** [class EntityManager]: the owning vector [entities] and the array of 32
    "group buckets" of non-owning pointers. *)
Record EntityManager := mkEntityManager {
  entities : list EntityPtr;
  groupedEntities : list (list EntityPtr)
}.

Definition EntityManager_new : EntityManager :=
  mkEntityManager [] (replicate (N.to_nat maxGroups) []).

(** A virtual call made by the framework. *)
Inductive Event :=
| EvInitialize (c : CompPtr)
| EvUpdate (c : CompPtr) (frameTime : FrameTime)
| EvDraw (c : CompPtr).

(** [struct PlayerController : Component], the members that [Update] reads
    and assigns: [int currentPlayerBullet;] and [float accumulatedTime]. *)
Module PlayerController.
Record t := mk {
  currentPlayerBullet : Z;
  accumulatedTime : float
}.
End PlayerController.

(** [struct WeaponAIController : Component]: [int currentEnemyBullet;],
    [float nextFireTimePoint] and [float accumulatedTime]. *)
Module WeaponAIController.
Record t := mk {
  currentEnemyBullet : Z;
  nextFireTimePoint : float;
  accumulatedTime : float
}.
End WeaponAIController.

(** The state of the game outside the framework that decides what the hooks
    ask of it: the members of the controllers, by the address of the
    component (a controller that has not assigned to its members yet has no
    entry), and the state of [std::minstd_rand rndEngine;]. *)
Record Application := mkApplication {
  playerControllers : gmap CompPtr PlayerController.t;
  weaponAIControllers : gmap CompPtr WeaponAIController.t;
  rndEngine : Z
}.

(** [std::minstd_rand] is default-constructed: its seed is 1. *)
Definition Application_init : Application := mkApplication ∅ ∅ 1.

(** The state of the program: what the framework holds, the virtual calls it
    has made, and the state of the application above. *)
Record World := mkWorld {
  registry : Registry;
  entityHeap : gmap EntityPtr Entity;
  nextEntity : EntityPtr;
  componentHeap : gmap CompPtr Component;
  nextComponent : CompPtr;
  manager : EntityManager;
  trace : list Event;
  application : Application
}.

Definition World_init : World :=
  mkWorld registry_init ∅ 0%nat ∅ 0%nat EntityManager_new [] Application_init.

Definition set_registry (r : Registry) (w : World) : World :=
  mkWorld r (entityHeap w) (nextEntity w) (componentHeap w) (nextComponent w)
          (manager w) (trace w) (application w).
Definition set_entityHeap (h : gmap EntityPtr Entity) (w : World) : World :=
  mkWorld (registry w) h (nextEntity w) (componentHeap w) (nextComponent w)
          (manager w) (trace w) (application w).
Definition set_nextEntity (n : EntityPtr) (w : World) : World :=
  mkWorld (registry w) (entityHeap w) n (componentHeap w) (nextComponent w)
          (manager w) (trace w) (application w).
Definition set_componentHeap (h : gmap CompPtr Component) (w : World) : World :=
  mkWorld (registry w) (entityHeap w) (nextEntity w) h (nextComponent w)
          (manager w) (trace w) (application w).
Definition set_nextComponent (n : CompPtr) (w : World) : World :=
  mkWorld (registry w) (entityHeap w) (nextEntity w) (componentHeap w) n
          (manager w) (trace w) (application w).
Definition set_manager (m : EntityManager) (w : World) : World :=
  mkWorld (registry w) (entityHeap w) (nextEntity w) (componentHeap w)
          (nextComponent w) m (trace w) (application w).
Definition set_trace (t : list Event) (w : World) : World :=
  mkWorld (registry w) (entityHeap w) (nextEntity w) (componentHeap w)
          (nextComponent w) (manager w) t (application w).
Definition set_application (a : Application) (w : World) : World :=
  mkWorld (registry w) (entityHeap w) (nextEntity w) (componentHeap w)
          (nextComponent w) (manager w) (trace w) a.

(** ** Running framework code *)

Inductive result (A : Type) : Type :=
| Ok (a : A)
| AssertFail
| Undefined.
Arguments Ok {A} a.
Arguments AssertFail {A}.
Arguments Undefined {A}.

Definition M (A : Type) : Type := World -> result (A * World).

Definition ret {A} (a : A) : M A := fun w => Ok (a, w).

Definition bind {A B} (m : M A) (k : A -> M B) : M B :=
  fun w =>
    match m w with
    | Ok (a, w') => k a w'
    | AssertFail => AssertFail
    | Undefined => Undefined
    end.

Notation "'let!' x ':=' m 'in' k" := (bind m (fun x => k))
  (at level 10, x pattern, m at level 100, k at level 200,
   format "'[v' 'let!'  x  ':='  m  'in' '/' k ']'").
Notation "m ';;' k" := (bind m (fun _ => k))
  (at level 100, k at level 200, right associativity, only parsing).

Definition undefined {A} : M A := fun _ => Undefined.
Definition get : M World := fun w => Ok (w, w).
Definition modify (f : World -> World) : M unit := fun w => Ok (tt, f w).

(** [assert(b)] *)
Definition assert_ (b : bool) : M unit :=
  fun w => if b then Ok (tt, w) else AssertFail.

(** [for (auto& x : l) body(x);] over the elements [l] the range had when
    the loop started. *)
Fixpoint for_each {A} (l : list A) (body : A -> M unit) : M unit :=
  match l with
  | [] => ret tt
  | x :: l' => body x ;; for_each l' body
  end.

(** [*p] for an [Entity* p]. *)
Definition deref (p : EntityPtr) : M Entity :=
  fun w =>
    match entityHeap w !! p with
    | Some e => Ok (e, w)
    | None => Undefined
    end.

(** Assignment to the members of [*p]. *)
Definition store (p : EntityPtr) (e : Entity) : M unit :=
  modify (fun w => set_entityHeap (<[p := e]> (entityHeap w)) w).

(** [GetComponentTypeID<T>()] on the statics of the program. *)
Definition typeIdOf (T : TypeKey) : M ComponentID :=
  fun w =>
    let '(id, r) := GetComponentTypeID T (registry w) in
    Ok (id, set_registry r w).

(** [bits[i]] read on a [std::bitset<n>]; the code has no bounds check. *)
Definition bitset_get (n : N) (bits : N) (i : N) : M bool :=
  if i <? n then ret (N.testbit bits i) else undefined.

(** [bits[i] = b] on a [std::bitset<n>]. *)
Definition bitset_set (n : N) (bits : N) (i : N) (b : bool) : M N :=
  if i <? n
  then ret (if b then N.setbit bits i else N.clearbit bits i)
  else undefined.

(** The virtual functions of the component types, by dynamic type. They are
    application code, free to call the framework and to fail as it does; the
    base class has [{ }] for each. *)
Record VTable := mkVTable {
  vInitialize : TypeKey -> CompPtr -> M unit;
  vUpdate : TypeKey -> CompPtr -> FrameTime -> M unit;
  vDraw : TypeKey -> CompPtr -> M unit
}.

(** [struct Component]: all three hooks empty. *)
Definition Component_vtable : VTable :=
  mkVTable (fun _ _ => ret tt) (fun _ _ _ => ret tt) (fun _ _ => ret tt).

(** A call of a virtual function of the component [c]: the hook of its
    dynamic type runs, and the call is recorded. The trace holds the calls
    the framework itself makes, in order. *)
Definition virtual_call (ev : Event) (hook : TypeKey -> CompPtr -> M unit)
    (c : CompPtr) : M unit :=
  fun w =>
    match componentHeap w !! c with
    | Some comp =>
        match hook (dynType comp) c w with
        | Ok (_, w') => Ok (tt, set_trace (trace w ++ [ev]) w')
        | AssertFail => AssertFail
        | Undefined => Undefined
        end
    | None => Undefined
    end.

(** ** Entity *)

Definition with_alive (b : bool) (e : Entity) : Entity :=
  mkEntity b (components e) (active e) (componentArray e) (componentBitset e)
           (groupBitset e).
Definition with_active (b : bool) (e : Entity) : Entity :=
  mkEntity (alive e) (components e) b (componentArray e) (componentBitset e)
           (groupBitset e).
Definition with_components (cs : list CompPtr) (e : Entity) : Entity :=
  mkEntity (alive e) cs (active e) (componentArray e) (componentBitset e)
           (groupBitset e).
Definition with_componentArray (a : list (option CompPtr)) (e : Entity) : Entity :=
  mkEntity (alive e) (components e) (active e) a (componentBitset e)
           (groupBitset e).
Definition with_componentBitset (b : N) (e : Entity) : Entity :=
  mkEntity (alive e) (components e) (active e) (componentArray e) b
           (groupBitset e).
Definition with_groupBitset (b : N) (e : Entity) : Entity :=
  mkEntity (alive e) (components e) (active e) (componentArray e)
           (componentBitset e) b.

(** The range-for loops of [Update] and [Draw] hold iterators into a vector
    while application code runs. If that code restructures the vector (or
    frees its owner) the iterators are invalid and going on is undefined. *)
Definition check_components (this : EntityPtr) (cs : list CompPtr) : M unit :=
  let! e := deref this in
  if decide (components e = cs) then ret tt else undefined.

(** [for (auto& c : components) c->Update(frameTime);] *)
Definition Entity_Update (vt : VTable) (this : EntityPtr) (frameTime : FrameTime)
  : M unit :=
  let! e := deref this in
  for_each (components e) (fun c =>
    virtual_call (EvUpdate c frameTime) (fun T c => vUpdate vt T c frameTime) c ;;
    check_components this (components e)).

(** [for (auto& c : components) c->Draw();] *)
Definition Entity_Draw (vt : VTable) (this : EntityPtr) : M unit :=
  let! e := deref this in
  for_each (components e) (fun c =>
    virtual_call (EvDraw c) (vDraw vt) c ;;
    check_components this (components e)).

(** [return alive;] *)
Definition Entity_IsAlive (this : EntityPtr) : M bool :=
  let! e := deref this in ret (alive e).

(** [alive = false;] *)
Definition Entity_Destroy (this : EntityPtr) : M unit :=
  let! e := deref this in store this (with_alive false e).

(** [return active;] *)
Definition Entity_IsActive (this : EntityPtr) : M bool :=
  let! e := deref this in ret (active e).

(** [active = true;] *)
Definition Entity_Enable (this : EntityPtr) : M unit :=
  let! e := deref this in store this (with_active true e).

(** [active = false;] *)
Definition Entity_Disable (this : EntityPtr) : M unit :=
  let! e := deref this in store this (with_active false e).

(** [return componentBitset[GetComponentTypeID<T>()];] *)
Definition Entity_HasComponent (T : TypeKey) (this : EntityPtr) : M bool :=
  let! id := typeIdOf T in
  let! e := deref this in
  bitset_get maxComponents (componentBitset e) id.

(** [return groupBitset[group];] *)
Definition Entity_HasGroup (this : EntityPtr) (group : Group) : M bool :=
  let! e := deref this in
  bitset_get maxGroups (groupBitset e) group.

(** [groupBitset[group] = false;] and nothing else. *)
Definition Entity_DelGroup (this : EntityPtr) (group : Group) : M unit :=
  let! e := deref this in
  let! bits := bitset_set maxGroups (groupBitset e) group false in
  store this (with_groupBitset bits e).

(** [new T(std::forward<TArgs>(args)...)]: a fresh component object of
    dynamic type [T]; its [entity] member is not yet assigned. *)
Definition new_component (T : TypeKey) : M CompPtr :=
  fun w =>
    let c := nextComponent w in
    Ok (c, set_nextComponent (S c)
             (set_componentHeap (<[c := mkComponent None T]> (componentHeap w)) w)).

(** [c->entity = this;] *)
Definition set_component_entity (c : CompPtr) (this : EntityPtr) : M unit :=
  fun w =>
    match componentHeap w !! c with
    | Some comp =>
        Ok (tt, set_componentHeap
                  (<[c := mkComponent (Some this) (dynType comp)]> (componentHeap w)) w)
    | None => Undefined
    end.

(** [componentArray[id] = c;] *)
Definition componentArray_set (a : list (option CompPtr)) (id : ComponentID)
    (c : CompPtr) : M (list (option CompPtr)) :=
  if decide (N.to_nat id < length a)%nat
  then ret (<[N.to_nat id := Some c]> a)
  else undefined.

(** [template<typename T, typename... TArgs> T& AddComponent(TArgs&&... args)] *)
Definition Entity_AddComponent (vt : VTable) (T : TypeKey) (this : EntityPtr)
  : M CompPtr :=
  let! has := Entity_HasComponent T this in
  assert_ (negb has) ;;
  let! c := new_component T in
  set_component_entity c this ;;
  let! e := deref this in
  store this (with_components (components e ++ [c]) e) ;;
  let! id := typeIdOf T in
  let! e := deref this in
  let! arr := componentArray_set (componentArray e) id c in
  store this (with_componentArray arr e) ;;
  let! id := typeIdOf T in
  let! e := deref this in
  let! bits := bitset_set maxComponents (componentBitset e) id true in
  store this (with_componentBitset bits e) ;;
  virtual_call (EvInitialize c) (vInitialize vt) c ;;
  ret c.

(** [template<typename T> T& GetComponent() const] *)
Definition Entity_GetComponent (T : TypeKey) (this : EntityPtr) : M CompPtr :=
  let! has := Entity_HasComponent T this in
  assert_ has ;;
  let! id := typeIdOf T in
  let! e := deref this in
  match componentArray e !! N.to_nat id with
  | Some (Some ptr) => ret ptr
  | _ => undefined
  end.

(** ** EntityManager *)

Definition with_entities (l : list EntityPtr) (m : EntityManager) : EntityManager :=
  mkEntityManager l (groupedEntities m).
Definition with_groupedEntities (g : list (list EntityPtr)) (m : EntityManager)
  : EntityManager :=
  mkEntityManager (entities m) g.

(** Validity of the iterators into [entities] across application code. *)
Definition check_entities (es : list EntityPtr) : M unit :=
  let! w := get in
  if decide (entities (manager w) = es) then ret tt else undefined.

(** [if (e->IsActive()) { e->Update(frameTime); }]: the body of the loop of
    [EntityManager::Update], with the check of the iterators into [es]. *)
Definition Update_visit (vt : VTable) (frameTime : FrameTime) (es : list EntityPtr)
    (e : EntityPtr) : M unit :=
  let! isActive := Entity_IsActive e in
  (if isActive then Entity_Update vt e frameTime else ret tt) ;;
  check_entities es.

(** [for (auto& e : entities) if (e->IsActive()) e->Update(frameTime);] *)
Definition EntityManager_Update (vt : VTable) (frameTime : FrameTime) : M unit :=
  let! w := get in
  for_each (entities (manager w)) (Update_visit vt frameTime (entities (manager w))).

(** [if (e->IsActive()) { e->Draw(); }] *)
Definition Draw_visit (vt : VTable) (es : list EntityPtr) (e : EntityPtr) : M unit :=
  let! isActive := Entity_IsActive e in
  (if isActive then Entity_Draw vt e else ret tt) ;;
  check_entities es.

(** [for (auto& e : entities) if (e->IsActive()) e->Draw();] *)
Definition EntityManager_Draw (vt : VTable) : M unit :=
  let! w := get in
  for_each (entities (manager w)) (Draw_visit vt (entities (manager w))).

(** [groupedEntities[group]] *)
Definition bucket (group : Group) : M (list EntityPtr) :=
  let! w := get in
  match groupedEntities (manager w) !! N.to_nat group with
  | Some v => ret v
  | None => undefined
  end.

Definition set_bucket (group : Group) (v : list EntityPtr) : M unit :=
  modify (fun w =>
    set_manager (with_groupedEntities
                   (<[N.to_nat group := v]> (groupedEntities (manager w)))
                   (manager w)) w).

(** [groupedEntities[group].emplace_back(entity);] *)
Definition EntityManager_AddToGroup (entity : EntityPtr) (group : Group) : M unit :=
  let! v := bucket group in
  set_bucket group (v ++ [entity]).

(** [return groupedEntities[group];] *)
Definition EntityManager_GetEntitiesByGroup (group : Group) : M (list EntityPtr) :=
  bucket group.

(** [v.erase(std::remove_if(begin(v), end(v), pred), end(v))]: the predicate
    is applied once to each element in order; the result is the elements
    kept and the elements erased, each in their order. *)
Fixpoint erase_remove_if {A} (pred : A -> M bool) (v : list A)
  : M (list A * list A) :=
  match v with
  | [] => ret ([], [])
  | x :: v' =>
      let! drop := pred x in
      let! (kept, erased) := erase_remove_if pred v' in
      ret (if drop then (kept, x :: erased) else (x :: kept, erased))
  end.

(** [!entity->IsAlive() || !entity->HasGroup(i)] *)
Definition stale_in_group (i : Group) (entity : EntityPtr) : M bool :=
  let! isAlive := Entity_IsAlive entity in
  if negb isAlive then ret true
  else let! hasGroup := Entity_HasGroup entity i in ret (negb hasGroup).

(** [!entity->IsAlive()] *)
Definition is_dead (entity : EntityPtr) : M bool :=
  let! isAlive := Entity_IsAlive entity in ret (negb isAlive).

(** [~Entity()] through the [std::unique_ptr]: the entity and the components
    it owns are freed. *)
Definition delete_entity (p : EntityPtr) : M unit :=
  let! e := deref p in
  modify (fun w =>
    set_entityHeap (delete p (entityHeap w))
      (set_componentHeap
         (foldr delete (componentHeap w) (components e)) w)).

(** First half of [Refresh]: the loop over the group buckets. *)
Definition Refresh_groups : M unit :=
  for_each (seq 0 (N.to_nat maxGroups)) (fun i =>
    let! v := bucket (N.of_nat i) in
    let! (kept, _) := erase_remove_if (stale_in_group (N.of_nat i)) v in
    set_bucket (N.of_nat i) kept).

(** Second half of [Refresh]: "Cleaning up dead entities". The erased
    [std::unique_ptr]s free their entities. *)
Definition Refresh_entities : M unit :=
  let! w := get in
  let! (kept, erased) := erase_remove_if is_dead (entities (manager w)) in
  modify (fun w => set_manager (with_entities kept (manager w)) w) ;;
  for_each erased delete_entity.

(** [void Refresh()] *)
Definition EntityManager_Refresh : M unit :=
  Refresh_groups ;; Refresh_entities.

(** [Entity& AddEntity()] *)
Definition EntityManager_AddEntity : M EntityPtr :=
  fun w =>
    let e := nextEntity w in
    Ok (e, set_manager (with_entities (entities (manager w) ++ [e]) (manager w))
             (set_nextEntity (S e)
                (set_entityHeap (<[e := Entity_new]> (entityHeap w)) w))).

(** [void Entity::AddGroup(Group group) noexcept] *)
Definition Entity_AddGroup (this : EntityPtr) (group : Group) : M unit :=
  let! e := deref this in
  let! bits := bitset_set maxGroups (groupBitset e) group true in
  store this (with_groupBitset bits e) ;;
  EntityManager_AddToGroup this group.

(** ** The public interface as a client sees it *)

(** One call of a public function of the framework. *)
Inductive Call :=
| CallGetComponentTypeID (T : TypeKey)
| CallEntityUpdate (e : EntityPtr) (frameTime : FrameTime)
| CallEntityDraw (e : EntityPtr)
| CallIsAlive (e : EntityPtr)
| CallDestroy (e : EntityPtr)
| CallIsActive (e : EntityPtr)
| CallEnable (e : EntityPtr)
| CallDisable (e : EntityPtr)
| CallHasComponent (T : TypeKey) (e : EntityPtr)
| CallHasGroup (e : EntityPtr) (group : Group)
| CallAddGroup (e : EntityPtr) (group : Group)
| CallDelGroup (e : EntityPtr) (group : Group)
| CallAddComponent (T : TypeKey) (e : EntityPtr)
| CallGetComponent (T : TypeKey) (e : EntityPtr)
| CallUpdate (frameTime : FrameTime)
| CallDraw
| CallAddToGroup (e : EntityPtr) (group : Group)
| CallGetEntitiesByGroup (group : Group)
| CallRefresh
| CallAddEntity.

Definition run_call (vt : VTable) (c : Call) : M unit :=
  match c with
  | CallGetComponentTypeID T => typeIdOf T ;; ret tt
  | CallEntityUpdate e frameTime => Entity_Update vt e frameTime
  | CallEntityDraw e => Entity_Draw vt e
  | CallIsAlive e => Entity_IsAlive e ;; ret tt
  | CallDestroy e => Entity_Destroy e
  | CallIsActive e => Entity_IsActive e ;; ret tt
  | CallEnable e => Entity_Enable e
  | CallDisable e => Entity_Disable e
  | CallHasComponent T e => Entity_HasComponent T e ;; ret tt
  | CallHasGroup e group => Entity_HasGroup e group ;; ret tt
  | CallAddGroup e group => Entity_AddGroup e group
  | CallDelGroup e group => Entity_DelGroup e group
  | CallAddComponent T e => Entity_AddComponent vt T e ;; ret tt
  | CallGetComponent T e => Entity_GetComponent T e ;; ret tt
  | CallUpdate frameTime => EntityManager_Update vt frameTime
  | CallDraw => EntityManager_Draw vt
  | CallAddToGroup e group => EntityManager_AddToGroup e group
  | CallGetEntitiesByGroup group => EntityManager_GetEntitiesByGroup group ;; ret tt
  | CallRefresh => EntityManager_Refresh
  | CallAddEntity => EntityManager_AddEntity ;; ret tt
  end.

Definition run_calls (vt : VTable) (cs : list Call) : M unit :=
  for_each cs (run_call vt).

(** ** Vocabulary of the statements *)

(** The world a computation ends in, when it ends normally. *)
Definition world_after {A} (r : result (A * World)) : option World :=
  match r with
  | Ok (_, w) => Some w
  | _ => None
  end.

(** The value it returns, when it ends normally. *)
Definition value_after {A} (r : result (A * World)) : option A :=
  match r with
  | Ok (a, _) => Some a
  | _ => None
  end.

(** [p] points to an entity that is alive. *)
Definition alive_in (h : gmap EntityPtr Entity) (p : EntityPtr) : bool :=
  from_option alive false (h !! p).

(** [p] points to an entity with the membership bit of [group] set. *)
Definition in_group (h : gmap EntityPtr Entity) (group : Group) (p : EntityPtr)
  : bool :=
  from_option (fun e => N.testbit (groupBitset e) group) false (h !! p).

(** The back-references [Refresh] keeps in the bucket of [group]. *)
Definition keeps (h : gmap EntityPtr Entity) (group : Group) (p : EntityPtr)
  : bool :=
  alive_in h p && in_group h group p.

Definition allocated (h : gmap EntityPtr Entity) (p : EntityPtr) : Prop :=
  is_Some (h !! p).

(** The manager as the class maintains it: 32 buckets, every entity owned
    once, no pointer of the manager dangling. *)
Record manager_ok (w : World) : Prop := mkManagerOk {
  mo_buckets : length (groupedEntities (manager w)) = N.to_nat maxGroups;
  mo_owned_once : NoDup (entities (manager w));
  mo_entities : Forall (allocated (entityHeap w)) (entities (manager w));
  mo_grouped :
    Forall (Forall (allocated (entityHeap w))) (groupedEntities (manager w))
}.

(** *** The effect of [Refresh] *)

Definition set_buckets (G : list (list EntityPtr)) (w : World) : World :=
  set_manager (with_groupedEntities G (manager w)) w.

(** What [Refresh] makes of the buckets: each filtered by [keeps]. *)
Definition refreshed_buckets (h : gmap EntityPtr Entity)
    (G : list (list EntityPtr)) : list (list EntityPtr) :=
  imap (fun i v => List.filter (keeps h (N.of_nat i)) v) G.

(** [w'] is [w] with the entities [dead] (and components) freed. *)
Record freed (dead : list EntityPtr) (w w' : World) : Prop := mkFreed {
  fr_registry : registry w' = registry w;
  fr_nextEntity : nextEntity w' = nextEntity w;
  fr_manager : manager w' = manager w;
  fr_trace : trace w' = trace w;
  fr_heap : forall p,
    entityHeap w' !! p = if decide (p ∈ dead) then None else entityHeap w !! p;
  fr_components : forall c,
    (forall p e, p ∈ dead -> entityHeap w !! p = Some e -> c ∉ components e) ->
    componentHeap w' !! c = componentHeap w !! c
}.

(** The world [w'] that [Refresh] makes of [w]. *)
Record refreshed (w w' : World) : Prop := mkRefreshed {
  rf_groups :
    groupedEntities (manager w') =
      refreshed_buckets (entityHeap w) (groupedEntities (manager w));
  rf_entities :
    entities (manager w') =
      List.filter (alive_in (entityHeap w)) (entities (manager w));
  rf_registry : registry w' = registry w;
  rf_nextEntity : nextEntity w' = nextEntity w;
  rf_trace : trace w' = trace w;
  rf_heap : forall p,
    entityHeap w' !! p =
      if decide (p ∈ entities (manager w) /\ alive_in (entityHeap w) p = false)
      then None else entityHeap w !! p;
  rf_components : forall c,
    (forall p e, p ∈ entities (manager w) -> entityHeap w !! p = Some e ->
                 alive e = false -> c ∉ components e) ->
    componentHeap w' !! c = componentHeap w !! c
}.

(** *** A concrete run, used to instantiate the statements *)

Definition demo_setup : list Call :=
  [ CallAddEntity; CallAddEntity; CallAddEntity;
    CallAddComponent "Transform" 0%nat; CallAddComponent "Physics" 0%nat;
    CallAddComponent "Transform" 1%nat; CallAddComponent "Physics" 2%nat;
    CallAddGroup 0%nat 0; CallAddGroup 1%nat 0; CallAddGroup 2%nat 0;
    CallAddGroup 2%nat 1; CallAddGroup 0%nat 3;
    CallDisable 2%nat; CallDestroy 1%nat; CallDelGroup 2%nat 0 ]%string.

Definition demo_world : World :=
  default World_init (world_after (run_calls Component_vtable demo_setup World_init)).

Global Instance manager_ok_dec w : Decision (manager_ok w).
Proof.
  refine (cast_if (decide
    (length (groupedEntities (manager w)) = N.to_nat maxGroups
     /\ NoDup (entities (manager w))
     /\ Forall (allocated (entityHeap w)) (entities (manager w))
     /\ Forall (Forall (allocated (entityHeap w))) (groupedEntities (manager w)))));
    [destruct a as (?&?&?&?); by split | intros []; apply n; done].
Defined.

(** *** Single steps *)

(** [w] with the members of [*p] replaced. *)
Definition poke (p : EntityPtr) (e : Entity) (w : World) : World :=
  set_entityHeap (<[p := e]> (entityHeap w)) w.

(** *** The update pass *)

(** What the loops of [Update] rely on while application code runs: the
    entity collection, the [active] flag and the [components] vector of every
    entity stay as they are, and no component is freed. *)
Record same_structure (w w' : World) : Prop := mkSameStructure {
  ss_entities : entities (manager w') = entities (manager w);
  ss_members : forall p,
    (fun e => (active e, components e)) <$> entityHeap w' !! p =
    (fun e => (active e, components e)) <$> entityHeap w !! p;
  ss_components : forall c,
    is_Some (componentHeap w !! c) -> is_Some (componentHeap w' !! c)
}.

(** The [Update] hooks of the application return and keep to that. *)
Definition update_hooks_keep_structure (vt : VTable) : Prop :=
  forall T c frameTime w,
    exists w', vUpdate vt T c frameTime w = Ok (tt, w') /\ same_structure w w'.

(** The components of every entity are allocated. *)
Definition components_ok (w : World) : Prop :=
  map_Forall (fun _ e =>
      Forall (fun c => is_Some (componentHeap w !! c)) (components e))
    (entityHeap w).

(** The virtual calls one visit of the entity [p] makes. *)
Definition update_events (frameTime : FrameTime) (h : gmap EntityPtr Entity)
    (p : EntityPtr) : list Event :=
  match h !! p with
  | Some e =>
      if active e then map (fun c => EvUpdate c frameTime) (components e) else []
  | None => []
  end.

(** *** Attaching components *)

(** The entity [ent] with a component [c] of the type with ID [id] attached. *)
Definition attach (id : ComponentID) (c : CompPtr) (ent : Entity) : Entity :=
  with_componentBitset (N.setbit (componentBitset ent) id)
    (with_componentArray (<[N.to_nat id := Some c]> (componentArray ent))
       (with_components (components ent ++ [c]) ent)).

(** The world in which [AddComponent] calls [Initialize]. *)
Definition attached (T : TypeKey) (e : EntityPtr) (ent : Entity) (id : ComponentID)
    (r : Registry) (w : World) : World :=
  mkWorld r (<[e := attach id (nextComponent w) ent]> (entityHeap w))
          (nextEntity w)
          (<[nextComponent w := mkComponent (Some e) T]> (componentHeap w))
          (S (nextComponent w)) (manager w) (trace w) (application w).

(** *** What any use of the public interface preserves *)

(** The component table of [ent'] extends that of [ent]: the bits set stay
    set, and their slots keep their pointers. *)
Definition table_extends (ent ent' : Entity) : Prop :=
  forall i,
    N.testbit (componentBitset ent) i = true ->
    N.testbit (componentBitset ent') i = true
    /\ componentArray ent' !! N.to_nat i = componentArray ent !! N.to_nat i.

(** Entities carry allocation numbers already handed out, and their
    [componentArray] has its 32 slots. *)
Definition world_ok (w : World) : Prop :=
  map_Forall (fun p e =>
      (p < nextEntity w)%nat
      /\ length (componentArray e) = N.to_nat maxComponents)
    (entityHeap w).

(** [w'] is a later state than [w]: the statics that were initialised are
    still the same, no freed entity is back, and the component table of every
    entity still there extends the one it had. *)
Record evolves (w w' : World) : Prop := mkEvolves {
  ev_registry : typeID (registry w) ⊆ typeID (registry w');
  ev_next : (nextEntity w <= nextEntity w')%nat;
  ev_tables : forall p ent',
    (p < nextEntity w)%nat -> entityHeap w' !! p = Some ent' ->
    exists ent, entityHeap w !! p = Some ent /\ table_extends ent ent'
}.

Definition advances (w w' : World) : Prop := world_ok w' /\ evolves w w'.

(** Code that takes states to later states. *)
Definition respects {A} (m : M A) : Prop :=
  forall w a w', world_ok w -> m w = Ok (a, w') -> advances w w'.

(** The hooks of the application do so: they reach the framework through
    its public interface only. *)
Definition hooks_respect_interface (vt : VTable) : Prop :=
  (forall T c, respects (vInitialize vt T c))
  /\ (forall T c frameTime, respects (vUpdate vt T c frameTime))
  /\ (forall T c, respects (vDraw vt T c)).

Global Instance world_ok_dec w : Decision (world_ok w).
Proof. unfold world_ok. apply _. Defined.

(** *** The owner of a component *)

(** [c->entity], the owner of a component. *)
Definition owner (c : CompPtr) : M EntityPtr :=
  fun w =>
    match componentHeap w !! c with
    | Some (mkComponent (Some e) _) => Ok (e, w)
    | _ => Undefined
    end.

(** *** The weapons of the game *)

(** [enum SpaceInvadersGroup : std::size_t] *)
Definition PlayerShip : Group := 0.
Definition OffensiveEnemyShip : Group := 1.
Definition PlayerBullet : Group := 2.
Definition EnemyBullet : Group := 3.
Definition DefensiveEnemyShip : Group := 4.

(** [const int maxPlayerBullets{ 6 }, maxEnemyBullets{ 36 };] *)
Definition maxPlayerBullets : Z := 6.
Definition maxEnemyBullets : Z := 36.

Definition INT_MAX : Z := 2147483647.

(** [v[i]] on a [std::vector] with an [int] index; there is no bounds
    check. *)
Definition vector_at {A} (v : list A) (i : Z) : M A :=
  if decide (0 <= i)%Z
  then match v !! Z.to_nat i with
       | Some x => ret x
       | None => undefined
       end
  else undefined.

(** [i++] on an [int] *)
Definition int_incr (i : Z) : M Z :=
  if decide (i < INT_MAX)%Z then ret (i + 1)%Z else undefined.

(** [void PlayerController::UsePlayerShipWeapon(const sf::Vector2f&
    bulletSpawnLocation, int& currentPlayerBullet)]. The [int&] is passed in
    and returned. The two assignments to the position of the [Transform] of
    the bullet write no state of the framework and are left out. *)
Definition UsePlayerShipWeapon (currentPlayerBullet : Z) : M Z :=
  let currentPlayerBullet :=
    if decide (currentPlayerBullet = maxPlayerBullets) then 0%Z
    else currentPlayerBullet in
  let! playerBulletList := EntityManager_GetEntitiesByGroup PlayerBullet in
  let! bullet := vector_at playerBulletList currentPlayerBullet in
  Entity_GetComponent "Transform" bullet ;;
  let! bullet := vector_at playerBulletList currentPlayerBullet in
  Entity_Enable bullet ;;
  int_incr currentPlayerBullet.

(** [void WeaponAIController::UseEnemyShipWeapon(const sf::Vector2f&
    bulletSpawnLocation, int& currentEnemyBullet)] *)
Definition UseEnemyShipWeapon (currentEnemyBullet : Z) : M Z :=
  let currentEnemyBullet :=
    if decide (currentEnemyBullet = maxEnemyBullets) then 0%Z
    else currentEnemyBullet in
  let! enemyBulletList := EntityManager_GetEntitiesByGroup EnemyBullet in
  let! bullet := vector_at enemyBulletList currentEnemyBullet in
  Entity_GetComponent "Transform" bullet ;;
  let! bullet := vector_at enemyBulletList currentEnemyBullet in
  Entity_Enable bullet ;;
  int_incr currentEnemyBullet.

(** *** The controllers of the game *)

(** [sf::Keyboard::isKeyPressed(sf::Keyboard::Key::Space)]. The keyboard is
    an input of the program: [Space t] tells whether the key is down when
    the program asks, the virtual calls made until then being [t]. *)
Definition Keyboard : Type := list Event -> bool.

(** [float const fireRate = 1000.f;] *)
Definition fireRate : float := float_of_int 1000.

(** The members a [PlayerController] is constructed with.
    [PlayerController(Game* game, EntityManager* manager, int&
    currentPlayerBullet)] copies the counter it is given, the member
    [int currentPlayerBullet = 0;] of [Game], to which nothing assigns;
    [float accumulatedTime = fireRate + 1.f;]. *)
Definition PlayerController_new : PlayerController.t :=
  PlayerController.mk 0 (float_add fireRate (float_of_int 1)).

(** The members a [WeaponAIController] is constructed with: the copy of
    [int currentEnemyBullet = 0;] of [Game], [float nextFireTimePoint = 0.f;]
    and [float accumulatedTime = 0.f;]. *)
Definition WeaponAIController_new : WeaponAIController.t :=
  WeaponAIController.mk 0 (S754_zero false) (S754_zero false).

(** The members of the [PlayerController] [c]. *)
Definition PlayerController_members (c : CompPtr) (w : World)
  : PlayerController.t :=
  default PlayerController_new (playerControllers (application w) !! c).

(** [w] with the members of the [PlayerController] [c] replaced. *)
Definition with_PlayerController (c : CompPtr) (this : PlayerController.t)
    (w : World) : World :=
  let app := application w in
  set_application
    (mkApplication (<[c := this]> (playerControllers app))
       (weaponAIControllers app) (rndEngine app)) w.

(** The same for a [WeaponAIController]. *)
Definition WeaponAIController_members (c : CompPtr) (w : World)
  : WeaponAIController.t :=
  default WeaponAIController_new (weaponAIControllers (application w) !! c).

Definition with_WeaponAIController (c : CompPtr) (this : WeaponAIController.t)
    (w : World) : World :=
  let app := application w in
  set_application
    (mkApplication (playerControllers app)
       (<[c := this]> (weaponAIControllers app)) (rndEngine app)) w.

(** [w] with the state of [rndEngine] replaced. *)
Definition with_rndEngine (x : Z) (w : World) : World :=
  let app := application w in
  set_application
    (mkApplication (playerControllers app) (weaponAIControllers app) x) w.

(** [*this] in a member function of the [PlayerController] [c], read and
    assigned. *)
Definition PlayerController_this (c : CompPtr) : M PlayerController.t :=
  fun w => Ok (PlayerController_members c w, w).

Definition PlayerController_assign (c : CompPtr) (this : PlayerController.t)
  : M unit :=
  fun w => Ok (tt, with_PlayerController c this w).

Definition WeaponAIController_this (c : CompPtr) : M WeaponAIController.t :=
  fun w => Ok (WeaponAIController_members c w, w).

Definition WeaponAIController_assign (c : CompPtr) (this : WeaponAIController.t)
  : M unit :=
  fun w => Ok (tt, with_WeaponAIController c this w).

(** The step of [std::minstd_rand], which is
    [std::linear_congruential_engine<std::uint_fast32_t, 48271, 0, 2147483647>]. *)
Definition minstd_rand (x : Z) : Z := ((48271 * x) mod 2147483647)%Z.

(** [rndEngine()]: the engine steps and returns its new state. *)
Definition rndEngine_call : M Z :=
  fun w =>
    let x := minstd_rand (rndEngine (application w)) in
    Ok (x, with_rndEngine x w).

(** [void GetNextFireTimePoint()]:
    [nextFireTimePoint = static_cast<float>((1 + (rndEngine() % 15)) * 1000);] *)
Definition GetNextFireTimePoint (c : CompPtr) : M unit :=
  let! x := rndEngine_call in
  let! this := WeaponAIController_this c in
  WeaponAIController_assign c
    (WeaponAIController.mk (WeaponAIController.currentEnemyBullet this)
       (float_of_int ((1 + x mod 15) * 1000))
       (WeaponAIController.accumulatedTime this)).

(** [void PlayerController::Update(FrameTime frameTime)]. The first
    statement assigns a velocity and is left out. The timer runs; with the
    fire key down and the timer above [fireRate] the weapon is used, which
    moves the bullet counter on, and the timer starts again. *)
Definition PlayerController_Update (Space : Keyboard) (c : CompPtr)
    (frameTime : FrameTime) : M unit :=
  let! this := PlayerController_this c in
  let accumulatedTime := float_add (PlayerController.accumulatedTime this) frameTime in
  PlayerController_assign c
    (PlayerController.mk (PlayerController.currentPlayerBullet this) accumulatedTime) ;;
  let! w := get in
  if Space (trace w)
  then if float_gt accumulatedTime fireRate
       then let! currentPlayerBullet :=
              UsePlayerShipWeapon (PlayerController.currentPlayerBullet this) in
            PlayerController_assign c
              (PlayerController.mk currentPlayerBullet (S754_zero false))
       else ret tt
  else ret tt.

(** [void WeaponAIController::Update(float frameTime)]: when the timer has
    passed [nextFireTimePoint] the weapon is used, the next point in time is
    drawn and the timer starts again. *)
Definition WeaponAIController_Update (c : CompPtr) (frameTime : FrameTime)
  : M unit :=
  let! this := WeaponAIController_this c in
  let accumulatedTime :=
    float_add (WeaponAIController.accumulatedTime this) frameTime in
  WeaponAIController_assign c
    (WeaponAIController.mk (WeaponAIController.currentEnemyBullet this)
       (WeaponAIController.nextFireTimePoint this) accumulatedTime) ;;
  if float_gt accumulatedTime (WeaponAIController.nextFireTimePoint this)
  then let! currentEnemyBullet :=
         UseEnemyShipWeapon (WeaponAIController.currentEnemyBullet this) in
       WeaponAIController_assign c
         (WeaponAIController.mk currentEnemyBullet
            (WeaponAIController.nextFireTimePoint this) accumulatedTime) ;;
       GetNextFireTimePoint c ;;
       let! this := WeaponAIController_this c in
       WeaponAIController_assign c
         (WeaponAIController.mk (WeaponAIController.currentEnemyBullet this)
            (WeaponAIController.nextFireTimePoint this) (S754_zero false))
  else ret tt.

(** *** The hooks of the game *)

(** The virtual functions of the component types of the game. [Initialize]
    of [Physics] and [RectangleRenderer] is
    [transform = &entity->GetComponent<Transform>();] (and assignments to
    members that are left out), that of [WeaponAIController] goes on to draw
    its first [nextFireTimePoint], that of [PlayerController] fetches
    [Transform] and [Physics]. [Update] of the two controllers is above;
    [Update] of [Physics] and of [RectangleRenderer] assigns to positions
    only ([onOutOfBounds] is never set), [Transform] has the empty hooks of
    the base class, and [Draw] of [RectangleRenderer] draws. *)
Definition game_vtable (Space : Keyboard) : VTable :=
  mkVTable
    (fun T c =>
       if decide (T = "Physics" \/ T = "RectangleRenderer" \/ T = "WeaponAIController")%string
       then let! e := owner c in
            Entity_GetComponent "Transform" e ;;
            if decide (T = "WeaponAIController"%string)
            then GetNextFireTimePoint c
            else ret tt
       else if decide (T = "PlayerController"%string)
       then let! e := owner c in
            Entity_GetComponent "Transform" e ;;
            Entity_GetComponent "Physics" e ;; ret tt
       else ret tt)
    (fun T c frameTime =>
       if decide (T = "PlayerController"%string)
       then PlayerController_Update Space c frameTime
       else if decide (T = "WeaponAIController"%string)
       then WeaponAIController_Update c frameTime
       else ret tt)
    (fun _ _ => ret tt).

(** The state in which [Initialize] of a component [c] of type [T] leaves
    [w], when it returns: a [WeaponAIController] has drawn its first
    [nextFireTimePoint]. *)
Definition Initialized (T : TypeKey) (c : CompPtr) (w : World) : World :=
  if decide (T = "WeaponAIController"%string)
  then let x := minstd_rand (rndEngine (application w)) in
       let this := WeaponAIController_members c w in
       with_WeaponAIController c
         (WeaponAIController.mk (WeaponAIController.currentEnemyBullet this)
            (float_of_int ((1 + x mod 15) * 1000))
            (WeaponAIController.accumulatedTime this))
         (with_rndEngine x w)
  else w.

(** *** A concrete run of the game *)

(** The fire key held down all the time. *)
Definition Space_held : Keyboard := fun _ => true.

(** A ship and two pooled bullets, set up as [CreatePlayerShip] and
    [CreatePlayerBullet] do. *)
Definition game_setup : list Call :=
  [ CallAddEntity;
    CallAddComponent "Transform" 0%nat; CallAddComponent "Physics" 0%nat;
    CallAddComponent "RectangleRenderer" 0%nat;
    CallAddComponent "PlayerController" 0%nat;
    CallAddGroup 0%nat 0;
    CallAddEntity;
    CallAddComponent "Transform" 1%nat; CallAddComponent "Physics" 1%nat;
    CallAddComponent "RectangleRenderer" 1%nat;
    CallDisable 1%nat; CallAddGroup 1%nat 2;
    CallAddEntity;
    CallAddComponent "Transform" 2%nat; CallAddComponent "Physics" 2%nat;
    CallAddComponent "RectangleRenderer" 2%nat;
    CallDisable 2%nat; CallAddGroup 2%nat 2 ]%string.

Definition game_world : World :=
  default World_init
    (world_after (run_calls (game_vtable Space_held) game_setup World_init)).

(** An [Update] hook that never fails: a component of type [Physics] marks
    its entity dead when it has one; the other types keep the empty hook of
    the base class. *)
Definition destroy_owner (c : CompPtr) : M unit :=
  fun w =>
    match owner c w with
    | Ok (e, _) =>
        match Entity_Destroy e w with
        | Ok r => Ok r
        | _ => Ok (tt, w)
        end
    | _ => Ok (tt, w)
    end.

Definition demo_vtable : VTable :=
  mkVTable (fun _ _ => ret tt)
           (fun T c _ => if decide (T = "Physics"%string) then destroy_owner c else ret tt)
           (fun _ _ => ret tt).

Global Instance components_ok_dec w : Decision (components_ok w).
Proof. unfold components_ok. apply _. Defined.

(** ** Further vocabulary: limits, fresh entities, passes *)

(** Thirty-two component type names, to fill the registry. *)
Definition many_types : list TypeKey :=
  map (fun n => String (Ascii.ascii_of_nat (65 + n)) EmptyString) (seq 0 32).

(** A world in which 32 component types are in use. *)
Definition crowded_world : World :=
  default World_init
    (world_after (run_calls Component_vtable
                    (CallAddEntity :: map CallGetComponentTypeID many_types)
                    World_init)).

(** The [Draw] hooks of the application return and leave the flags and the
    containers alone. *)
Definition draw_hooks_keep_structure (vt : VTable) : Prop :=
  forall T c w, exists w', vDraw vt T c w = Ok (tt, w') /\ same_structure w w'.

(** The virtual calls one visit of [Draw] to the entity [p] makes. *)
Definition draw_events (h : gmap EntityPtr Entity) (p : EntityPtr) : list Event :=
  match h !! p with
  | Some e => if active e then map EvDraw (components e) else []
  | None => []
  end.

(** ** Further vocabulary: what the two classes maintain *)

(** The data of the framework as its member functions leave it. Beyond
    [world_ok] and [manager_ok]: every entity on the heap is owned by the
    manager; component numbers handed out are below the next one; an entity
    holds each of its components once, the component is allocated and its
    [entity] member points back; and a bit set in [componentBitset] has, in
    its slot of [componentArray], a component of the entity whose type has
    the ID of the bit. *)
Record sound (w : World) : Prop := mkSound {
  so_world : world_ok w;
  so_manager : manager_ok w;
  so_reachable : forall p, allocated (entityHeap w) p -> p ∈ entities (manager w);
  so_fresh : forall c, is_Some (componentHeap w !! c) -> (c < nextComponent w)%nat;
  so_distinct : forall p e, entityHeap w !! p = Some e -> NoDup (components e);
  so_owned : forall p e c,
    entityHeap w !! p = Some e -> c ∈ components e ->
    exists T, componentHeap w !! c = Some (mkComponent (Some p) T);
  so_table : forall p e id,
    entityHeap w !! p = Some e ->
    N.testbit (componentBitset e) id = true ->
    exists c T,
      componentArray e !! N.to_nat id = Some (Some c)
      /\ c ∈ components e
      /\ componentHeap w !! c = Some (mkComponent (Some p) T)
      /\ typeID (registry w) !! T = Some id
}.

(** [w'] is a later state than [w], as to the objects: an entity of [w]
    still there was not brought back to life and has its components of then
    as the first of its components now; a component of [w] still there is
    the same object. *)
Record follows (w w' : World) : Prop := mkFollows {
  fo_nextEntity : (nextEntity w <= nextEntity w')%nat;
  fo_nextComponent : (nextComponent w <= nextComponent w')%nat;
  fo_entities : forall p e',
    (p < nextEntity w)%nat -> entityHeap w' !! p = Some e' ->
    exists e, entityHeap w !! p = Some e
              /\ (alive e = false -> alive e' = false)
              /\ components e `prefix_of` components e';
  fo_components : forall c comp,
    (c < nextComponent w)%nat -> componentHeap w' !! c = Some comp ->
    componentHeap w !! c = Some comp
}.

(** Code that takes sound states to later sound states. *)
Definition maintains {A} (m : M A) : Prop :=
  forall w a w', sound w -> m w = Ok (a, w') -> sound w' /\ follows w w'.

(** The hooks of the application do so. *)
Definition hooks_maintain (vt : VTable) : Prop :=
  (forall T c, maintains (vInitialize vt T c))
  /\ (forall T c frameTime, maintains (vUpdate vt T c frameTime))
  /\ (forall T c, maintains (vDraw vt T c)).

(** The calls a client makes on entities and on the manager. The public
    [EntityManager::AddToGroup] is the one the framework calls on itself,
    from [Entity::AddGroup]. *)
Definition client_call (c : Call) : Prop :=
  match c with
  | CallAddToGroup _ _ => False
  | _ => True
  end.

(** The calls of [Update] one frame makes for the entity [p]: those of its
    components, if it is alive and active. *)
Definition frame_events (frameTime : FrameTime) (h : gmap EntityPtr Entity)
    (p : EntityPtr) : list Event :=
  match h !! p with
  | Some e =>
      if alive e && active e
      then map (fun c => EvUpdate c frameTime) (components e)
      else []
  | None => []
  end.

(** The framework calls that open each time slice of [Game::UpdatePhase]:
    [manager.Refresh(); manager.Update(ftStep);] *)
Definition UpdatePhase_step (vt : VTable) (ftStep : FrameTime) : M unit :=
  EntityManager_Refresh ;; EntityManager_Update vt ftStep.

(** ** The game: collisions *)

(** [a <= b] and [a >= b] on [float]: false when an operand is a NaN. *)
Definition float_le (a b : float) : bool := SFleb a b.
Definition float_ge (a b : float) : bool :=
  match SFcompare a b with
  | Some Gt | Some Eq => true
  | _ => false
  end.

Definition is_nan (a : float) : bool :=
  match a with
  | S754_nan => true
  | _ => false
  end.

Module Physics.
(** What [left()], [right()], [top()] and [bottom()] of a [Physics]
    component return: the position of the [Transform] of its entity less or
    plus [halfSize]. *)
Record bounds := mkBounds {
  left : float;
  right : float;
  top : float;
  bottom : float
}.
End Physics.

(** [template<class T1, class T2> bool IsIntersecting(T1& A, T2& B)], which
    the game calls with two [Physics] components. *)
Definition IsIntersecting (A B : Physics.bounds) : bool :=
  float_ge (Physics.right A) (Physics.left B)
  && float_le (Physics.left A) (Physics.right B)
  && float_ge (Physics.bottom A) (Physics.top B)
  && float_le (Physics.top A) (Physics.bottom B).



(** ** The game: the factories *)

(** [Entity& CreatePlayerShip()]. The arguments that the factories pass to
    the constructors of the components are positions, sizes and file names,
    and the velocity they assign to the [Physics] component is one more of
    these: none is part of the state. *)
Definition CreatePlayerShip (Space : Keyboard) : M EntityPtr :=
  let! entity := EntityManager_AddEntity in
  Entity_AddComponent (game_vtable Space) "Transform" entity ;;
  Entity_AddComponent (game_vtable Space) "Physics" entity ;;
  Entity_AddComponent (game_vtable Space) "RectangleRenderer" entity ;;
  Entity_AddComponent (game_vtable Space) "PlayerController" entity ;;
  Entity_AddGroup entity PlayerShip ;;
  ret entity.

(** [Entity& CreatePlayerBullet()] *)
Definition CreatePlayerBullet (Space : Keyboard) : M EntityPtr :=
  let! entity := EntityManager_AddEntity in
  Entity_AddComponent (game_vtable Space) "Transform" entity ;;
  Entity_AddComponent (game_vtable Space) "Physics" entity ;;
  Entity_AddComponent (game_vtable Space) "RectangleRenderer" entity ;;
  Entity_GetComponent "Physics" entity ;;
  Entity_Disable entity ;;
  Entity_AddGroup entity PlayerBullet ;;
  ret entity.

(** [Entity& CreateEnemyBullet()] *)
Definition CreateEnemyBullet (Space : Keyboard) : M EntityPtr :=
  let! entity := EntityManager_AddEntity in
  Entity_AddComponent (game_vtable Space) "Transform" entity ;;
  Entity_AddComponent (game_vtable Space) "Physics" entity ;;
  Entity_AddComponent (game_vtable Space) "RectangleRenderer" entity ;;
  Entity_GetComponent "Physics" entity ;;
  Entity_Disable entity ;;
  Entity_AddGroup entity EnemyBullet ;;
  ret entity.

(** [Entity& CreateOffensiveEnemyShip(const sf::Vector2f& position)] *)
Definition CreateOffensiveEnemyShip (Space : Keyboard) : M EntityPtr :=
  let! entity := EntityManager_AddEntity in
  Entity_AddComponent (game_vtable Space) "Transform" entity ;;
  Entity_AddComponent (game_vtable Space) "Physics" entity ;;
  Entity_AddComponent (game_vtable Space) "RectangleRenderer" entity ;;
  Entity_AddComponent (game_vtable Space) "WeaponAIController" entity ;;
  Entity_GetComponent "Physics" entity ;;
  Entity_AddGroup entity OffensiveEnemyShip ;;
  ret entity.

(** [Entity& CreateDefensiveEnemyShip(const sf::Vector2f& position)] *)
Definition CreateDefensiveEnemyShip (Space : Keyboard) : M EntityPtr :=
  let! entity := EntityManager_AddEntity in
  Entity_AddComponent (game_vtable Space) "Transform" entity ;;
  Entity_AddComponent (game_vtable Space) "Physics" entity ;;
  Entity_AddComponent (game_vtable Space) "RectangleRenderer" entity ;;
  Entity_GetComponent "Physics" entity ;;
  Entity_AddGroup entity DefensiveEnemyShip ;;
  ret entity.

(** The component types of the game. *)
Definition game_types : list TypeKey :=
  ["Transform"; "Physics"; "RectangleRenderer"; "PlayerController";
   "WeaponAIController"]%string.

(** The counter of the registry has not wrapped, and the component types in
    use, with those of the game that are still to come, are no more than the
    32 an entity has room for. *)
Definition fits (r : Registry) : Prop :=
  registry_inv r
  /\ N.of_nat (size (dom (typeID r) ∪ list_to_set (C := gset string) game_types))
     <= maxComponents.

(** The components that [Initialize] of a component of type [T] fetches
    from its entity. *)
Definition requires (T : TypeKey) : list TypeKey :=
  if decide (T = "Physics" \/ T = "RectangleRenderer" \/ T = "WeaponAIController")%string
  then ["Transform"%string]
  else if decide (T = "PlayerController"%string)
  then ["Transform"; "Physics"]%string
  else [].

(** The entity [e] with components of the types [Ts] attached and no
    others. *)
Record building (w : World) (e : EntityPtr) (Ts : list TypeKey) : Prop := mkBuilding {
  bu_sound : sound w;
  bu_fits : fits (registry w);
  bu_entity : exists ent,
    entityHeap w !! e = Some ent
    /\ (forall i, N.testbit (componentBitset ent) i = true ->
          exists T, T ∈ Ts /\ typeID (registry w) !! T = Some i)
    /\ (forall T, T ∈ Ts ->
          exists i, typeID (registry w) !! T = Some i /\ i < maxComponents
                    /\ N.testbit (componentBitset ent) i = true)
}.

(** Where a factory stands that was called in [w0], after its call of
    [AddEntity] returned [e]: the types attached, the flag [active] and the
    group bits of [e], the buckets. *)
Record stage (w0 : World) (e : EntityPtr) (Ts : list TypeKey) (ac : bool)
    (gb : N) (G : list (list EntityPtr)) (w : World) : Prop := mkStage {
  st_building : building w e Ts;
  st_entities : entities (manager w) = entities (manager w0) ++ [e];
  st_next : nextEntity w = S (nextEntity w0);
  st_buckets : groupedEntities (manager w) = G;
  st_others : forall q, q <> e -> entityHeap w !! q = entityHeap w0 !! q;
  st_flags : exists ent,
    entityHeap w !! e = Some ent
    /\ alive ent = true /\ active ent = ac /\ groupBitset ent = gb
    /\ length (components ent) = length Ts
}.

(** The factory [F] makes an entity with components of the types [Ts], in
    the group [g], active or not. *)
Definition creates (F : M EntityPtr) (Ts : list TypeKey) (ac : bool) (g : Group)
  : Prop :=
  forall w, sound w -> fits (registry w) ->
    exists w' v,
      F w = Ok (nextEntity w, w')
      /\ sound w' /\ fits (registry w')
      /\ nextEntity w' = S (nextEntity w)
      /\ entities (manager w') = entities (manager w) ++ [nextEntity w]
      /\ groupedEntities (manager w) !! N.to_nat g = Some v
      /\ groupedEntities (manager w') =
           <[N.to_nat g := v ++ [nextEntity w]]> (groupedEntities (manager w))
      /\ (forall q, q <> nextEntity w -> entityHeap w' !! q = entityHeap w !! q)
      /\ Entity_IsAlive (nextEntity w) w' = Ok (true, w')
      /\ Entity_IsActive (nextEntity w) w' = Ok (ac, w')
      /\ Entity_HasGroup (nextEntity w) g w' = Ok (true, w')
      /\ Forall (fun T => Entity_HasComponent T (nextEntity w) w' = Ok (true, w')) Ts
      /\ (length <$> (components <$> entityHeap w' !! nextEntity w)) = Some (length Ts).

(** [const int countEnemyColumn{9}, countEnemyRow{4};] *)
Definition countEnemyColumn : Z := 9.
Definition countEnemyRow : Z := 4.

(** [for (size_t i = 0; i < maxPlayerBullets; i++) CreatePlayerBullet();] *)
Definition CreateAllPlayerBullets (Space : Keyboard) : M unit :=
  for_each (seqZ 0 maxPlayerBullets) (fun _ => CreatePlayerBullet Space ;; ret tt).

(** [for (size_t i = 0; i < maxEnemyBullets; i++) CreateEnemyBullet();] *)
Definition CreateAllEnemyBullets (Space : Keyboard) : M unit :=
  for_each (seqZ 0 maxEnemyBullets) (fun _ => CreateEnemyBullet Space ;; ret tt).

(** [void CreateEnemyShips()]: columns of ships, offensive and defensive in
    turn. *)
Definition CreateEnemyShips (Space : Keyboard) : M unit :=
  for_each (seqZ 0 countEnemyColumn) (fun iX =>
    for_each (seqZ 0 countEnemyRow) (fun iY =>
      if decide (Z.rem iY 2 = 0)%Z
      then CreateOffensiveEnemyShip Space ;; ret tt
      else CreateDefensiveEnemyShip Space ;; ret tt)).

(** [Game()], the call [window.setFramerateLimit(240)] aside. *)
Definition Game_new (Space : Keyboard) : M unit :=
  CreatePlayerShip Space ;;
  CreateEnemyShips Space ;;
  CreateAllPlayerBullets Space ;;
  CreateAllEnemyBullets Space.

(** The manager of [w'] has the entities of [w], untouched, and [n] new
    ones, [added g] of them in the bucket of each group [g]; the state is
    sound and the types of the game fit. *)
Record grown (n : nat) (added : nat -> nat) (w w' : World) : Prop := mkGrown {
  gr_sound : sound w';
  gr_fits : fits (registry w');
  gr_next : nextEntity w' = (nextEntity w + n)%nat;
  gr_entities :
    entities (manager w') = entities (manager w) ++ seq (nextEntity w) n;
  gr_buckets : forall g v,
    groupedEntities (manager w) !! g = Some v ->
    exists v', groupedEntities (manager w') !! g = Some v'
               /\ length v' = (length v + added g)%nat;
  gr_old : forall q,
    (q < nextEntity w)%nat -> entityHeap w' !! q = entityHeap w !! q
}.

(** The entities [Game()] puts into each group. *)
Definition Game_added (g : nat) : nat :=
  match g with
  | 0 => 1
  | 1 => 18
  | 2 => 6
  | 3 => 36
  | 4 => 18
  | _ => 0
  end%nat.

(** ** The game: the collision phase *)









(** [w'] is [w] but for flags that were cleared: [alive] of some of the
    entities [dying], [active] of some of the entities [disabled]. *)
Record flags_cleared (dying disabled : list EntityPtr) (w w' : World) : Prop :=
  mkFlagsCleared {
  fc_registry : registry w' = registry w;
  fc_nextEntity : nextEntity w' = nextEntity w;
  fc_componentHeap : componentHeap w' = componentHeap w;
  fc_nextComponent : nextComponent w' = nextComponent w;
  fc_manager : manager w' = manager w;
  fc_trace : trace w' = trace w;
  fc_allocated : forall p, entityHeap w' !! p = None <-> entityHeap w !! p = None;
  fc_entities : forall p e e',
    entityHeap w !! p = Some e -> entityHeap w' !! p = Some e' ->
    components e' = components e
    /\ componentArray e' = componentArray e
    /\ componentBitset e' = componentBitset e
    /\ groupBitset e' = groupBitset e
    /\ (alive e' = alive e \/ alive e' = false /\ p ∈ dying)
    /\ (active e' = active e \/ active e' = false /\ p ∈ disabled)
}.

(** Code that, run in a state that came from [w0] by clearing such flags,
    returns a value with [Q] in a state of the same kind. *)
Definition steady (w0 : World) (dying disabled : list EntityPtr) {A}
    (m : M A) (Q : A -> Prop) : Prop :=
  forall w, flags_cleared dying disabled w0 w ->
    exists a w', m w = Ok (a, w') /\ flags_cleared dying disabled w0 w' /\ Q a.

(** * Proofs *)

Example type_id_calls_demo :
  (type_id_calls ["Transform"; "Physics"; "Transform"; "Renderer"; "Physics"]%string
     registry_init).1 = [0; 1; 0; 2; 1].
Proof. vm_compute. reflexivity. Qed.

Lemma registry_init_inv : registry_inv registry_init.
Proof.
  split; simpl.
  - rewrite map_size_empty. vm_compute. discriminate.
  - rewrite map_size_empty. reflexivity.
  - intros T id H. rewrite lookup_empty in H. discriminate.
  - intros T1 T2 id H. rewrite lookup_empty in H. discriminate.
Qed.

Lemma GetComponentTypeID_known T r id :
  typeID r !! T = Some id -> GetComponentTypeID T r = (id, r).
Proof. intros H. unfold GetComponentTypeID. rewrite H. reflexivity. Qed.

Lemma GetComponentTypeID_fresh T r :
  typeID r !! T = None ->
  GetComponentTypeID T r =
    (lastID r,
     mkRegistry ((lastID r + 1) mod size_t_modulus) (<[T := lastID r]> (typeID r))).
Proof. intros H. unfold GetComponentTypeID. rewrite H. reflexivity. Qed.

(** One call keeps the invariant, provided a fresh type still finds room
    below [2^64]. *)
Lemma GetComponentTypeID_inv T r :
  registry_inv r ->
  (is_Some (typeID r !! T) \/ N.of_nat (size (typeID r)) < size_t_modulus) ->
  registry_inv (GetComponentTypeID T r).2
  /\ typeID (GetComponentTypeID T r).2 !! T = Some (GetComponentTypeID T r).1
  /\ typeID r ⊆ typeID (GetComponentTypeID T r).2
  /\ dom (typeID (GetComponentTypeID T r).2) = {[T]} ∪ dom (typeID r)
  /\ (typeID r !! T = None ->
      (GetComponentTypeID T r).1 = N.of_nat (size (typeID r))).
Proof.
  intros Hinv Hroom.
  destruct (typeID r !! T) as [id|] eqn:HT.
  - rewrite (GetComponentTypeID_known _ _ _ HT). simpl.
    split_and!; try done.
    apply set_eq. intros x. rewrite elem_of_union, elem_of_singleton, !elem_of_dom.
    split; [tauto|]. intros [->|]; [rewrite HT; eauto | done].
  - destruct Hroom as [[? Hs]|Hlt]; [discriminate|].
    rewrite (GetComponentTypeID_fresh _ _ HT). simpl.
    destruct Hinv as [Hb Hl Hbel Hinj].
    assert (Hid : lastID r = N.of_nat (size (typeID r))).
    { rewrite Hl. apply N.mod_small. exact Hlt. }
    split_and!.
    + constructor; simpl.
      * rewrite map_size_insert_None by done. lia.
      * rewrite map_size_insert_None by done. rewrite Hid. f_equal. lia.
      * intros T' id'. rewrite map_size_insert_None by done.
        rewrite lookup_insert. case_decide as Hd.
        -- intros [= <-]. lia.
        -- intros H'. apply Hbel in H'. lia.
      * intros T1 T2 id'. rewrite !lookup_insert.
        repeat case_decide; subst; try done.
        -- intros [= <-] H2. apply Hbel in H2. lia.
        -- intros H1 [= <-]. apply Hbel in H1. lia.
        -- apply Hinj.
    + apply lookup_insert_eq.
    + apply insert_subseteq. done.
    + apply dom_insert_L.
    + intros _. exact Hid.
Qed.

Lemma type_id_calls_spec (Ts : list TypeKey) : forall r,
  registry_inv r ->
  N.of_nat (size (dom (typeID r) ∪ list_to_set Ts)) <= size_t_modulus ->
  registry_inv (type_id_calls Ts r).2
  /\ typeID r ⊆ typeID (type_id_calls Ts r).2
  /\ (forall j T, Ts !! j = Some T ->
        (type_id_calls Ts r).1 !! j = typeID (type_id_calls Ts r).2 !! T
        /\ is_Some (typeID (type_id_calls Ts r).2 !! T))
  /\ (forall j T, Ts !! j = Some T -> T ∉ dom (typeID r) -> T ∉ take j Ts ->
        (type_id_calls Ts r).1 !! j =
          Some (N.of_nat (size (dom (typeID r) ∪ list_to_set (take j Ts))))).
Proof.
  induction Ts as [|T0 Ts IH]; intros r Hinv Hroom.
  - simpl. split_and!; try done.
  - simpl.
    assert (Hstep : is_Some (typeID r !! T0)
                    \/ N.of_nat (size (typeID r)) < size_t_modulus).
    { destruct (typeID r !! T0) as [id0|] eqn:H0; [left; eauto|right].
      assert (size (dom (typeID r)) < size (dom (typeID r) ∪ list_to_set (T0 :: Ts)))%nat.
      { apply subset_size. apply not_elem_of_dom in H0. set_solver. }
      rewrite size_dom in H. lia. }
    destruct (GetComponentTypeID_inv T0 r Hinv Hstep) as (Hinv1 & Hget & Hsub & Hdom & Hnew).
    destruct (GetComponentTypeID T0 r) as [id r1]. simpl in *.
    assert (Hroom1 : N.of_nat (size (dom (typeID r1) ∪ list_to_set Ts)) <= size_t_modulus).
    { rewrite Hdom.
      replace ({[T0]} ∪ dom (typeID r) ∪ list_to_set Ts)
        with (dom (typeID r) ∪ ({[T0]} ∪ list_to_set Ts)) by set_solver.
      exact Hroom. }
    destruct (IH r1 Hinv1 Hroom1) as (Hinv2 & Hsub2 & Hids & Hcnt).
    destruct (type_id_calls Ts r1) as [ids r2]. simpl in *.
    split_and!.
    + exact Hinv2.
    + etrans; eassumption.
    + intros [|j] T HT; simpl in *.
      * injection HT as <-.
        rewrite (lookup_weaken _ _ _ _ Hget Hsub2). eauto.
      * apply Hids; assumption.
    + intros [|j] T HT Hnd Hnt; simpl in *.
      * injection HT as <-.
        rewrite Hnew by (by apply not_elem_of_dom).
        rewrite <- size_dom. do 3 f_equal. set_solver.
      * apply not_elem_of_cons in Hnt as [Hne Hnt].
        rewrite (Hcnt j T HT); [| rewrite Hdom; set_solver | exact Hnt].
        do 3 f_equal. rewrite Hdom. set_solver.
Qed.

(** C1: running any sequence of [GetComponentTypeID<T>()] calls from program
    start, with at most [2^64] distinct component types among them: two calls
    for the same type return the same ID, calls for distinct types return
    distinct IDs, and the first call for a type returns the number of types
    registered before it (so the IDs are 0, 1, 2, ... in order of first
    use). *)
Theorem GetComponentTypeID_idempotent_injective (Ts : list TypeKey) :
  N.of_nat (distinct_types Ts) <= size_t_modulus ->
  let ids := (type_id_calls Ts registry_init).1 in
  length ids = length Ts
  /\ (forall i j T a b,
        Ts !! i = Some T -> Ts !! j = Some T ->
        ids !! i = Some a -> ids !! j = Some b -> a = b)
  /\ (forall i j T1 T2 a b,
        Ts !! i = Some T1 -> Ts !! j = Some T2 -> T1 <> T2 ->
        ids !! i = Some a -> ids !! j = Some b -> a <> b)
  /\ (forall j T,
        Ts !! j = Some T -> T ∉ take j Ts ->
        ids !! j = Some (N.of_nat (distinct_types (take j Ts)))).
Proof.
  intros Hroom ids.
  assert (Hroom0 : N.of_nat (size (dom (typeID registry_init) ∪ list_to_set Ts))
                   <= size_t_modulus).
  { simpl. rewrite dom_empty_L, (left_id_L ∅ (∪)). exact Hroom. }
  destruct (type_id_calls_spec Ts registry_init registry_init_inv Hroom0)
    as (Hinv & _ & Hids & Hcnt).
  fold ids in Hids, Hcnt.
  split_and!.
  - subst ids. clear. generalize registry_init.
    induction Ts as [|T Ts IH]; intros r; simpl; [done|].
    destruct (GetComponentTypeID T r) as [id r1].
    specialize (IH r1). destruct (type_id_calls Ts r1). simpl in *. lia.
  - intros i j T a b Hi Hj Ha Hb.
    destruct (Hids i T Hi) as [Ei _]. destruct (Hids j T Hj) as [Ej _].
    congruence.
  - intros i j T1 T2 a b Hi Hj Hne Ha Hb ->.
    destruct (Hids i T1 Hi) as [Ei _]. destruct (Hids j T2 Hj) as [Ej _].
    rewrite Ha in Ei. rewrite Hb in Ej.
    apply Hne. eapply (ri_inj _ Hinv); eauto.
  - intros j T HT Hnt.
    rewrite (Hcnt j T HT); [| simpl; rewrite dom_empty_L; set_solver | exact Hnt].
    unfold distinct_types. simpl. rewrite dom_empty_L, (left_id_L ∅ (∪)). done.
Qed.

Lemma GetComponentTypeID_idempotent_injective_witness :
  let Ts := ["Transform"; "Physics"; "Transform"; "Renderer"; "Physics"]%string in
  (type_id_calls Ts registry_init).1 = [0; 1; 0; 2; 1]
  /\ forall i j T1 T2 a b,
       Ts !! i = Some T1 -> Ts !! j = Some T2 -> T1 <> T2 ->
       (type_id_calls Ts registry_init).1 !! i = Some a ->
       (type_id_calls Ts registry_init).1 !! j = Some b -> a <> b.
Proof.
  intros Ts. split; [vm_compute; reflexivity|].
  apply (GetComponentTypeID_idempotent_injective Ts).
  vm_compute. discriminate.
Defined.

(** ** Running monadic code *)

Lemma bind_run {A B} (m : M A) (k : A -> M B) w a w1 :
  m w = Ok (a, w1) -> bind m k w = k a w1.
Proof. intros H. unfold bind. rewrite H. reflexivity. Qed.

Lemma bind_inv {A B} (m : M A) (k : A -> M B) w b w2 :
  bind m k w = Ok (b, w2) ->
  exists a w1, m w = Ok (a, w1) /\ k a w1 = Ok (b, w2).
Proof.
  unfold bind. destruct (m w) as [[a w1]| |]; try discriminate. eauto.
Qed.

Lemma deref_run p w e : entityHeap w !! p = Some e -> deref p w = Ok (e, w).
Proof. intros H. unfold deref. rewrite H. reflexivity. Qed.

Lemma deref_inv p w e w1 :
  deref p w = Ok (e, w1) -> w1 = w /\ entityHeap w !! p = Some e.
Proof.
  unfold deref. destruct (entityHeap w !! p); [|discriminate].
  intros [= -> ->]. done.
Qed.

(** ** [erase_remove_if] with a predicate that only reads *)

Lemma erase_remove_if_pure {A} (pred : A -> M bool) (f : A -> bool) v w :
  (forall x, x ∈ v -> pred x w = Ok (f x, w)) ->
  erase_remove_if pred v w =
    Ok ((List.filter (fun x => negb (f x)) v, List.filter f v), w).
Proof.
  induction v as [|x v IH]; intros Hp; simpl; [reflexivity|].
  rewrite (bind_run _ _ _ _ _ (Hp x (list_elem_of_here x v))).
  rewrite (bind_run _ _ _ _ _ (IH (fun y Hy => Hp y (list_elem_of_further y x v Hy)))).
  unfold ret. destruct (f x); reflexivity.
Qed.

Lemma stale_in_group_run i p w :
  i < maxGroups -> allocated (entityHeap w) p ->
  stale_in_group i p w = Ok (negb (keeps (entityHeap w) i p), w).
Proof.
  intros Hi [e He]. apply N.ltb_lt in Hi.
  unfold stale_in_group, Entity_IsAlive, Entity_HasGroup, bitset_get, keeps,
    alive_in, in_group, bind, deref, ret.
  rewrite He. simpl.
  destruct (alive e); simpl; [|reflexivity].
  rewrite He, Hi. reflexivity.
Qed.

Lemma is_dead_run p w :
  allocated (entityHeap w) p ->
  is_dead p w = Ok (negb (alive_in (entityHeap w) p), w).
Proof.
  intros [e He]. unfold is_dead, Entity_IsAlive, alive_in, bind, deref, ret.
  rewrite He. reflexivity.
Qed.

Lemma filter_negb_negb {A} (f : A -> bool) (l : list A) :
  List.filter (fun x => negb (negb (f x))) l = List.filter f l.
Proof.
  apply List.filter_ext. intros x. apply negb_involutive.
Qed.

(** ** The group half of [Refresh] *)

Lemma Refresh_groups_loop n : forall start w,
  (start + n <= N.to_nat maxGroups)%nat ->
  (start + n <= length (groupedEntities (manager w)))%nat ->
  Forall (Forall (allocated (entityHeap w))) (groupedEntities (manager w)) ->
  exists G',
    for_each (seq start n) (fun i =>
      let! v := bucket (N.of_nat i) in
      let! (kept, _) := erase_remove_if (stale_in_group (N.of_nat i)) v in
      set_bucket (N.of_nat i) kept) w = Ok (tt, set_buckets G' w)
    /\ length G' = length (groupedEntities (manager w))
    /\ forall i,
         G' !! i =
           if decide (start <= i < start + n)%nat
           then List.filter (keeps (entityHeap w) (N.of_nat i))
                  <$> groupedEntities (manager w) !! i
           else groupedEntities (manager w) !! i.
Proof.
  induction n as [|n IH]; intros start w Hmax Hlen Hval.
  - exists (groupedEntities (manager w)). split_and!.
    + simpl. unfold ret, set_buckets. destruct w as [? ? ? ? ? []]; reflexivity.
    + reflexivity.
    + intros i. case_decide; [lia|reflexivity].
  - destruct (lookup_lt_is_Some_2 (groupedEntities (manager w)) start) as [v Hv];
      [lia|].
    assert (Hvv : Forall (allocated (entityHeap w)) v).
    { eapply Forall_lookup_1 in Hval; eauto. }
    set (v' := List.filter (keeps (entityHeap w) (N.of_nat start)) v).
    set (w1 := set_buckets (<[start := v']> (groupedEntities (manager w))) w).
    assert (Hbody :
      (let! v := bucket (N.of_nat start) in
       let! (kept, _) := erase_remove_if (stale_in_group (N.of_nat start)) v in
       set_bucket (N.of_nat start) kept) w = Ok (tt, w1)).
    { assert (Hb : bucket (N.of_nat start) w = Ok (v, w)).
      { unfold bucket, bind, get, ret. rewrite Nat2N.id, Hv. reflexivity. }
      rewrite (bind_run _ _ _ _ _ Hb).
      erewrite bind_run; cycle 1.
      { apply (erase_remove_if_pure _
                 (fun p => negb (keeps (entityHeap w) (N.of_nat start) p))).
        intros p Hp. apply stale_in_group_run.
        - unfold maxGroups in *. lia.
        - rewrite list.Forall_forall in Hvv. apply Hvv, Hp. }
      rewrite filter_negb_negb. unfold set_bucket, modify.
      rewrite Nat2N.id. reflexivity. }
    destruct (IH (S start) w1) as (G' & Hrun & HlenG & HG).
    + lia.
    + subst w1. simpl. rewrite length_insert. lia.
    + subst w1. simpl. apply Forall_insert; [exact Hval|].
      subst v'. rewrite list.Forall_forall in Hvv |- *.
      intros p Hp. apply list_elem_of_In, List.filter_In in Hp as [Hp _].
      apply Hvv, list_elem_of_In, Hp.
    + exists G'. split_and!.
      * simpl seq. cbn [for_each]. rewrite (bind_run _ _ _ _ _ Hbody).
        rewrite Hrun. subst w1. unfold set_buckets. reflexivity.
      * rewrite HlenG. subst w1. simpl. apply length_insert.
      * intros i. rewrite HG. subst w1. simpl.
        destruct (decide (i = start)) as [->|Hne].
        -- rewrite list_lookup_insert_eq by lia.
           rewrite decide_False by lia. rewrite decide_True by lia.
           rewrite Hv. reflexivity.
        -- rewrite list_lookup_insert_ne by done.
           repeat case_decide; try lia; reflexivity.
Qed.

Lemma Refresh_groups_run w :
  length (groupedEntities (manager w)) = N.to_nat maxGroups ->
  Forall (Forall (allocated (entityHeap w))) (groupedEntities (manager w)) ->
  Refresh_groups w =
    Ok (tt, set_buckets
              (refreshed_buckets (entityHeap w) (groupedEntities (manager w))) w).
Proof.
  intros Hlen Hval.
  destruct (Refresh_groups_loop (N.to_nat maxGroups) 0 w) as (G' & Hrun & HlenG & HG);
    [lia | lia | exact Hval |].
  unfold Refresh_groups. rewrite Hrun. do 3 f_equal.
  apply list_eq. intros i. rewrite HG. unfold refreshed_buckets.
  rewrite list_lookup_imap. case_decide as Hi; [reflexivity|].
  rewrite lookup_ge_None_2 by lia. reflexivity.
Qed.

(** ** The entity half of [Refresh] *)

Lemma lookup_foldr_delete_notin (m : gmap CompPtr Component) (l : list CompPtr) c :
  c ∉ l -> foldr delete m l !! c = m !! c.
Proof.
  induction l as [|x l IH]; intros Hc; simpl; [reflexivity|].
  apply not_elem_of_cons in Hc as [Hne Hc].
  rewrite lookup_delete_ne by done. apply IH, Hc.
Qed.

Lemma delete_entities_run dead : forall w,
  NoDup dead -> Forall (allocated (entityHeap w)) dead ->
  exists w', for_each dead delete_entity w = Ok (tt, w') /\ freed dead w w'.
Proof.
  induction dead as [|p dead IH]; intros w Hnd Hal.
  - exists w. split; [reflexivity|]. split; reflexivity.
  - apply list.NoDup_cons in Hnd as [Hp Hnd].
    apply list.Forall_cons in Hal as [[e He] Hal].
    set (w1 := set_entityHeap (delete p (entityHeap w))
                 (set_componentHeap
                    (foldr delete (componentHeap w) (components e)) w)).
    assert (Hdel : delete_entity p w = Ok (tt, w1)).
    { unfold delete_entity, bind, deref, modify. rewrite He. reflexivity. }
    destruct (IH w1 Hnd) as (w' & Hrun & Hfr).
    { rewrite list.Forall_forall in Hal |- *. intros q Hq.
      unfold allocated. subst w1. simpl.
      rewrite lookup_delete_ne; [apply Hal, Hq|]. intros ->. contradiction. }
    exists w'. split.
    + cbn [for_each]. rewrite (bind_run _ _ _ _ _ Hdel). exact Hrun.
    + destruct Hfr as [Hr Hn Hm Ht Hh Hc]. split; try assumption.
      * intros q. rewrite Hh. subst w1. simpl.
        destruct (decide (q = p)) as [->|Hne].
        -- rewrite lookup_delete_eq. rewrite (decide_True (P := p ∈ p :: dead)).
           ++ case_decide; reflexivity.
           ++ apply list_elem_of_here.
        -- rewrite lookup_delete_ne by done.
           destruct (decide (q ∈ dead)) as [Hq|Hq].
           ++ rewrite decide_True; [reflexivity|]. by apply list_elem_of_further.
           ++ rewrite decide_False; [reflexivity|].
              rewrite not_elem_of_cons. done.
      * intros c Hown. rewrite Hc.
        -- subst w1. simpl. apply lookup_foldr_delete_notin.
           apply (Hown p e); [apply list_elem_of_here | exact He].
        -- intros q e' Hq Hq'. subst w1. simpl in Hq'.
           apply lookup_delete_Some in Hq' as [_ Hq'].
           apply (Hown q e'); [by apply list_elem_of_further | exact Hq'].
Qed.

Lemma NoDup_List_filter {A} (f : A -> bool) (l : list A) :
  NoDup l -> NoDup (List.filter f l).
Proof.
  intros H. apply NoDup_ListNoDup. apply List.NoDup_filter.
  apply NoDup_ListNoDup. exact H.
Qed.

Lemma elem_of_List_filter {A} (f : A -> bool) (l : list A) x :
  x ∈ List.filter f l <-> x ∈ l /\ f x = true.
Proof. rewrite !list_elem_of_In. apply List.filter_In. Qed.

Lemma Refresh_entities_run w :
  NoDup (entities (manager w)) ->
  Forall (allocated (entityHeap w)) (entities (manager w)) ->
  exists w',
    Refresh_entities w = Ok (tt, w')
    /\ freed (List.filter (fun p => negb (alive_in (entityHeap w) p))
                (entities (manager w)))
         (set_manager
            (with_entities (List.filter (alive_in (entityHeap w))
                              (entities (manager w))) (manager w)) w)
         w'.
Proof.
  intros Hnd Hal.
  set (dead := List.filter (fun p => negb (alive_in (entityHeap w) p))
                 (entities (manager w))).
  set (w1 := set_manager
               (with_entities (List.filter (alive_in (entityHeap w))
                                 (entities (manager w))) (manager w)) w).
  destruct (delete_entities_run dead w1) as (w' & Hrun & Hfr).
  { subst dead. apply NoDup_List_filter, Hnd. }
  { subst dead w1. simpl. rewrite list.Forall_forall in Hal |- *.
    intros p Hp. apply elem_of_List_filter in Hp as [Hp _]. apply Hal, Hp. }
  exists w'. split; [|exact Hfr].
  unfold Refresh_entities. unfold bind at 1. unfold get.
  erewrite bind_run; cycle 1.
  { apply (erase_remove_if_pure _ (fun p => negb (alive_in (entityHeap w) p))).
    intros p Hp. apply is_dead_run.
    rewrite list.Forall_forall in Hal. apply Hal, Hp. }
  rewrite filter_negb_negb. unfold modify. unfold bind at 1. exact Hrun.
Qed.

(** ** [Refresh] as a whole *)

Lemma Refresh_halves_run w :
  manager_ok w ->
  exists w2,
    Refresh_entities
      (set_buckets
         (refreshed_buckets (entityHeap w) (groupedEntities (manager w))) w)
      = Ok (tt, w2)
    /\ EntityManager_Refresh w = Ok (tt, w2)
    /\ refreshed w w2.
Proof.
  intros [Hlen Hnd Hent Hgrp].
  pose proof (Refresh_groups_run w Hlen Hgrp) as Hg.
  set (w1 := set_buckets
               (refreshed_buckets (entityHeap w) (groupedEntities (manager w))) w)
    in *.
  destruct (Refresh_entities_run w1) as (w2 & He & Hfr); [exact Hnd | exact Hent |].
  exists w2. split; [exact He|]. split.
  - unfold EntityManager_Refresh. rewrite (bind_run _ _ _ _ _ Hg). exact He.
  - destruct Hfr as [Hr Hn Hm Ht Hh Hc]. subst w1. simpl in *.
    split; try (rewrite ?Hm; simpl; congruence).
    + intros p. rewrite Hh.
      destruct (decide (p ∈ entities (manager w)
                        /\ alive_in (entityHeap w) p = false)) as [[Hp Hd]|Hn'].
      * rewrite decide_True; [reflexivity|].
        apply elem_of_List_filter. rewrite Hd. done.
      * rewrite decide_False; [reflexivity|].
        rewrite elem_of_List_filter. intros [Hp Hd]. apply Hn'. split; [done|].
        by apply negb_true_iff.
    + intros c Hown. apply Hc. intros p e Hp He'.
      apply elem_of_List_filter in Hp as [Hp Hd].
      apply (Hown p e Hp He'). unfold alive_in in Hd. rewrite He' in Hd.
      simpl in Hd. by apply negb_true_iff.
Qed.

Lemma Refresh_run w :
  manager_ok w ->
  exists w', EntityManager_Refresh w = Ok (tt, w') /\ refreshed w w'.
Proof.
  intros H. destruct (Refresh_halves_run w H) as (w2 & _ & Hr & Hp). eauto.
Qed.

(** An entity [Refresh] found alive is still on the heap, unchanged. *)
Lemma refreshed_alive w w' p :
  refreshed w w' -> alive_in (entityHeap w) p = true ->
  entityHeap w' !! p = entityHeap w !! p.
Proof.
  intros Hr Ha. rewrite (rf_heap _ _ Hr).
  rewrite decide_False; [reflexivity|]. intros [_ Hd]. congruence.
Qed.

Lemma alive_in_allocated h p : alive_in h p = true -> allocated h p.
Proof.
  unfold alive_in, allocated. destruct (h !! p); [eauto|discriminate].
Qed.

Lemma keeps_alive h g p : keeps h g p = true -> alive_in h p = true.
Proof. unfold keeps. intros H. apply andb_true_iff in H. tauto. Qed.

Lemma refreshed_keeps w w' g p :
  refreshed w w' -> keeps (entityHeap w) g p = true ->
  keeps (entityHeap w') g p = true.
Proof.
  intros Hr Hk. pose proof (keeps_alive _ _ _ Hk) as Ha.
  unfold keeps, alive_in, in_group in *.
  rewrite (refreshed_alive _ _ _ Hr Ha). exact Hk.
Qed.

Lemma refreshed_manager_ok w w' :
  manager_ok w -> refreshed w w' -> manager_ok w'.
Proof.
  intros [Hlen Hnd Hent Hgrp] Hr. split.
  - rewrite (rf_groups _ _ Hr). unfold refreshed_buckets.
    rewrite length_imap. exact Hlen.
  - rewrite (rf_entities _ _ Hr). apply NoDup_List_filter, Hnd.
  - rewrite (rf_entities _ _ Hr). apply list.Forall_forall. intros p Hp.
    apply elem_of_List_filter in Hp as [_ Ha].
    unfold allocated. rewrite (refreshed_alive _ _ _ Hr Ha).
    apply alive_in_allocated, Ha.
  - rewrite (rf_groups _ _ Hr). apply list.Forall_lookup. intros i v Hv.
    unfold refreshed_buckets in Hv. rewrite list_lookup_imap in Hv.
    destruct (groupedEntities (manager w) !! i) as [v0|]; [|discriminate].
    injection Hv as <-. apply list.Forall_forall. intros p Hp.
    apply elem_of_List_filter in Hp as [_ Hk]. apply keeps_alive in Hk.
    unfold allocated. rewrite (refreshed_alive _ _ _ Hr Hk).
    apply alive_in_allocated, Hk.
Qed.

Lemma List_filter_all {A} (f : A -> bool) (l : list A) :
  (forall x, x ∈ l -> f x = true) -> List.filter f l = l.
Proof.
  induction l as [|x l IH]; intros H; simpl; [reflexivity|].
  rewrite (H x (list_elem_of_here x l)). f_equal.
  apply IH. intros y Hy. apply H. by apply list_elem_of_further.
Qed.

(** ** The concrete run *)

Example demo_world_ok : manager_ok demo_world.
Proof. apply (bool_decide_unpack _). vm_compute. exact I. Qed.

Example demo_world_entities :
  entities (manager demo_world) = [0; 1; 2]%nat
  /\ take 4 (groupedEntities (manager demo_world)) = [[0; 1; 2]; [2]; []; [0]]%nat.
Proof. vm_compute. done. Qed.

Example demo_world_Refresh :
  (fun w => (entities (manager w), take 4 (groupedEntities (manager w))))
    <$> world_after (EntityManager_Refresh demo_world)
  = Some ([0; 2], [[0]; [2]; []; [0]])%nat.
Proof. vm_compute. reflexivity. Qed.

(** The order of the two halves matters: freeing the dead entities
    first leaves the buckets with dangling pointers, which the group half
    would then dereference. *)
Example demo_world_Refresh_swapped :
  (Refresh_entities ;; Refresh_groups) demo_world = Undefined.
Proof. vm_compute. reflexivity. Qed.

(** The dead entity 1 is visible in its bucket until [Refresh] runs. *)
Example demo_world_stale_bucket :
  EntityManager_GetEntitiesByGroup 0 demo_world = Ok ([0; 1; 2]%nat, demo_world)
  /\ Entity_IsAlive 1%nat demo_world = Ok (false, demo_world)
  /\ Entity_HasGroup 2%nat 0 demo_world = Ok (false, demo_world).
Proof. vm_compute. done. Qed.

(** ** Properties of [Refresh] *)

(** C3: on a manager whose pointers are valid, [Refresh] runs to completion
    as its two halves in order. The first leaves in the bucket of each group
    [g] the back-references to entities that are alive and have the bit of [g]
    set, in their order, and touches neither the entity collection nor the
    entities; the second then leaves in the entity collection the entities
    that are alive, in their order, and does not touch the buckets. *)
Theorem Refresh_groups_then_entities (w : World) :
  manager_ok w ->
  exists w1 w2,
    Refresh_groups w = Ok (tt, w1)
    /\ Refresh_entities w1 = Ok (tt, w2)
    /\ EntityManager_Refresh w = Ok (tt, w2)
    /\ groupedEntities (manager w1) =
         imap (fun g v => List.filter
                 (fun p => alive_in (entityHeap w) p
                           && in_group (entityHeap w) (N.of_nat g) p) v)
              (groupedEntities (manager w))
    /\ entities (manager w1) = entities (manager w)
    /\ entityHeap w1 = entityHeap w
    /\ entities (manager w2) =
         List.filter (alive_in (entityHeap w1)) (entities (manager w1))
    /\ groupedEntities (manager w2) = groupedEntities (manager w1).
Proof.
  intros Hok.
  destruct (Refresh_halves_run w Hok) as (w2 & He & Hr & Hp).
  eexists _, w2. split_and!.
  - apply Refresh_groups_run; apply Hok.
  - exact He.
  - exact Hr.
  - reflexivity.
  - reflexivity.
  - reflexivity.
  - apply (rf_entities _ _ Hp).
  - apply (rf_groups _ _ Hp).
Qed.

Lemma Refresh_groups_then_entities_witness :
  exists w1 w2,
    Refresh_groups demo_world = Ok (tt, w1)
    /\ Refresh_entities w1 = Ok (tt, w2)
    /\ EntityManager_Refresh demo_world = Ok (tt, w2)
    /\ groupedEntities (manager w1) =
         imap (fun g v => List.filter
                 (fun p => alive_in (entityHeap demo_world) p
                           && in_group (entityHeap demo_world) (N.of_nat g) p) v)
              (groupedEntities (manager demo_world))
    /\ entities (manager w1) = entities (manager demo_world)
    /\ entityHeap w1 = entityHeap demo_world
    /\ entities (manager w2) =
         List.filter (alive_in (entityHeap w1)) (entities (manager w1))
    /\ groupedEntities (manager w2) = groupedEntities (manager w1).
Proof.
  apply (Refresh_groups_then_entities demo_world).
  apply (bool_decide_unpack _). vm_compute. exact I.
Defined.

(** C7: a second [Refresh] directly after a first one changes neither the
    entity collection nor any bucket (nor any entity). *)
Theorem Refresh_idempotent (w : World) :
  manager_ok w ->
  exists w1 w2,
    EntityManager_Refresh w = Ok (tt, w1)
    /\ EntityManager_Refresh w1 = Ok (tt, w2)
    /\ entities (manager w2) = entities (manager w1)
    /\ groupedEntities (manager w2) = groupedEntities (manager w1)
    /\ entityHeap w2 = entityHeap w1.
Proof.
  intros Hok.
  destruct (Refresh_run w Hok) as (w1 & Hr1 & Hp1).
  pose proof (refreshed_manager_ok _ _ Hok Hp1) as Hok1.
  destruct (Refresh_run w1 Hok1) as (w2 & Hr2 & Hp2).
  assert (Hlive : forall p, p ∈ entities (manager w1) ->
                            alive_in (entityHeap w1) p = true).
  { intros p Hp. rewrite (rf_entities _ _ Hp1) in Hp.
    apply elem_of_List_filter in Hp as [_ Ha].
    unfold alive_in. rewrite (refreshed_alive _ _ _ Hp1 Ha). exact Ha. }
  exists w1, w2. split_and!; try assumption.
  - rewrite (rf_entities _ _ Hp2). apply List_filter_all, Hlive.
  - rewrite (rf_groups _ _ Hp2). apply list_eq. intros i.
    unfold refreshed_buckets at 1. rewrite list_lookup_imap.
    destruct (groupedEntities (manager w1) !! i) as [v|] eqn:Hv; [|reflexivity].
    simpl. f_equal. apply List_filter_all. intros p Hp.
    rewrite (rf_groups _ _ Hp1) in Hv. unfold refreshed_buckets in Hv.
    rewrite list_lookup_imap in Hv.
    destruct (groupedEntities (manager w) !! i) as [v0|]; [|discriminate].
    injection Hv as <-. apply elem_of_List_filter in Hp as [_ Hk].
    apply (refreshed_keeps _ _ _ _ Hp1 Hk).
  - apply map_eq. intros p. rewrite (rf_heap _ _ Hp2).
    case_decide as Hd; [|reflexivity].
    destruct Hd as [Hp Hd]. rewrite (Hlive p Hp) in Hd. discriminate.
Qed.

Lemma Refresh_idempotent_witness :
  exists w1 w2,
    EntityManager_Refresh demo_world = Ok (tt, w1)
    /\ EntityManager_Refresh w1 = Ok (tt, w2)
    /\ entities (manager w2) = entities (manager w1)
    /\ groupedEntities (manager w2) = groupedEntities (manager w1)
    /\ entityHeap w2 = entityHeap w1.
Proof.
  apply (Refresh_idempotent demo_world).
  apply (bool_decide_unpack _). vm_compute. exact I.
Defined.

(** C10: [Refresh] runs to completion and every entity that was alive when
    it was called is afterwards the same object with the same members: the
    flags [alive] and [active], the vector [components], [componentArray],
    [componentBitset] and [groupBitset]. The components it owns are untouched
    as well, as long as no dead entity of the manager claims one of them. *)
Theorem Refresh_frames_survivors (w : World) :
  manager_ok w ->
  exists w',
    EntityManager_Refresh w = Ok (tt, w')
    /\ (forall e ent,
          entityHeap w !! e = Some ent -> alive ent = true ->
          entityHeap w' !! e = Some ent)
    /\ (forall e ent c,
          entityHeap w !! e = Some ent -> alive ent = true ->
          c ∈ components ent ->
          (forall p d, p ∈ entities (manager w) -> entityHeap w !! p = Some d ->
                       alive d = false -> c ∉ components d) ->
          componentHeap w' !! c = componentHeap w !! c).
Proof.
  intros Hok. destruct (Refresh_run w Hok) as (w' & Hr & Hp).
  exists w'. split_and!; [exact Hr | |].
  - intros e ent He Ha. rewrite <- He. apply (refreshed_alive _ _ _ Hp).
    unfold alive_in. rewrite He. exact Ha.
  - intros e ent c _ _ _ Hown. apply (rf_components _ _ Hp), Hown.
Qed.

Lemma Refresh_frames_survivors_witness :
  exists w',
    EntityManager_Refresh demo_world = Ok (tt, w')
    /\ (forall e ent,
          entityHeap demo_world !! e = Some ent -> alive ent = true ->
          entityHeap w' !! e = Some ent)
    /\ (forall e ent c,
          entityHeap demo_world !! e = Some ent -> alive ent = true ->
          c ∈ components ent ->
          (forall p d, p ∈ entities (manager demo_world) ->
                       entityHeap demo_world !! p = Some d ->
                       alive d = false -> c ∉ components d) ->
          componentHeap w' !! c = componentHeap demo_world !! c).
Proof.
  apply (Refresh_frames_survivors demo_world).
  apply (bool_decide_unpack _). vm_compute. exact I.
Defined.

(** ** Single operations on valid pointers *)

Lemma allocated_insert h p e q :
  allocated h q -> allocated (<[p := e]> h) q.
Proof.
  unfold allocated. rewrite lookup_insert. case_decide; eauto.
Qed.

Lemma poke_manager_ok p e w :
  manager_ok w -> manager_ok (poke p e w).
Proof.
  intros [Hlen Hnd Hent Hgrp]. split; simpl; try assumption.
  - eapply list.Forall_impl; [exact Hent|]. intros q. apply allocated_insert.
  - eapply list.Forall_impl; [exact Hgrp|]. intros v Hv.
    eapply list.Forall_impl; [exact Hv|]. intros q. apply allocated_insert.
Qed.

Lemma Entity_Destroy_run e ent w :
  entityHeap w !! e = Some ent ->
  Entity_Destroy e w = Ok (tt, poke e (with_alive false ent) w).
Proof.
  intros He. unfold Entity_Destroy, bind, deref, store, modify.
  rewrite He. reflexivity.
Qed.

Lemma Entity_Enable_run e ent w :
  entityHeap w !! e = Some ent ->
  Entity_Enable e w = Ok (tt, poke e (with_active true ent) w).
Proof.
  intros He. unfold Entity_Enable, bind, deref, store, modify.
  rewrite He. reflexivity.
Qed.

Lemma Entity_Disable_run e ent w :
  entityHeap w !! e = Some ent ->
  Entity_Disable e w = Ok (tt, poke e (with_active false ent) w).
Proof.
  intros He. unfold Entity_Disable, bind, deref, store, modify.
  rewrite He. reflexivity.
Qed.

Lemma Entity_IsAlive_run e ent w :
  entityHeap w !! e = Some ent -> Entity_IsAlive e w = Ok (alive ent, w).
Proof.
  intros He. unfold Entity_IsAlive, bind, deref, ret. rewrite He. reflexivity.
Qed.

Lemma Entity_IsActive_run e ent w :
  entityHeap w !! e = Some ent -> Entity_IsActive e w = Ok (active ent, w).
Proof.
  intros He. unfold Entity_IsActive, bind, deref, ret. rewrite He. reflexivity.
Qed.

Lemma Entity_HasGroup_run e ent g w :
  entityHeap w !! e = Some ent -> g < maxGroups ->
  Entity_HasGroup e g w = Ok (N.testbit (groupBitset ent) g, w).
Proof.
  intros He Hg. apply N.ltb_lt in Hg.
  unfold Entity_HasGroup, bind, deref, bitset_get, ret. rewrite He, Hg.
  reflexivity.
Qed.

Lemma GetEntitiesByGroup_run g v w :
  groupedEntities (manager w) !! N.to_nat g = Some v ->
  EntityManager_GetEntitiesByGroup g w = Ok (v, w).
Proof.
  intros Hv. unfold EntityManager_GetEntitiesByGroup, bucket, bind, get, ret.
  rewrite Hv. reflexivity.
Qed.

Lemma Entity_DelGroup_run e ent g w :
  entityHeap w !! e = Some ent -> g < maxGroups ->
  Entity_DelGroup e g w =
    Ok (tt, poke e (with_groupBitset (N.clearbit (groupBitset ent) g) ent) w).
Proof.
  intros He Hg. apply N.ltb_lt in Hg.
  unfold Entity_DelGroup, bind, deref, bitset_set, store, modify, ret.
  rewrite He, Hg. reflexivity.
Qed.

Lemma Entity_AddGroup_run e ent g v w :
  entityHeap w !! e = Some ent -> g < maxGroups ->
  groupedEntities (manager w) !! N.to_nat g = Some v ->
  Entity_AddGroup e g w =
    Ok (tt, set_buckets (<[N.to_nat g := v ++ [e]]> (groupedEntities (manager w)))
              (poke e (with_groupBitset (N.setbit (groupBitset ent) g) ent) w)).
Proof.
  intros He Hg Hv. apply N.ltb_lt in Hg.
  unfold Entity_AddGroup, EntityManager_AddToGroup, bucket, set_bucket, bind,
    deref, bitset_set, store, modify, get, ret.
  rewrite He, Hg. simpl. rewrite Hv. reflexivity.
Qed.

Lemma bucket_exists g w :
  manager_ok w -> g < maxGroups ->
  exists v, groupedEntities (manager w) !! N.to_nat g = Some v
            /\ Forall (allocated (entityHeap w)) v.
Proof.
  intros Hok Hg.
  destruct (lookup_lt_is_Some_2 (groupedEntities (manager w)) (N.to_nat g))
    as [v Hv].
  { rewrite (mo_buckets _ Hok). unfold maxGroups in *. lia. }
  exists v. split; [exact Hv|].
  eapply Forall_lookup_1; [apply (mo_grouped _ Hok) | exact Hv].
Qed.

Lemma AddGroup_manager_ok e ent ent' g v w :
  manager_ok w -> entityHeap w !! e = Some ent ->
  groupedEntities (manager w) !! N.to_nat g = Some v ->
  manager_ok (set_buckets (<[N.to_nat g := v ++ [e]]> (groupedEntities (manager w)))
                (poke e ent' w)).
Proof.
  intros Hok He Hv.
  destruct (poke_manager_ok e ent' w Hok) as [Hlen Hnd Hent Hgrp].
  split; simpl in *; try assumption.
  - rewrite length_insert. exact Hlen.
  - apply Forall_insert; [exact Hgrp|].
    apply Forall_app. split.
    + eapply Forall_lookup_1 in Hgrp; [exact Hgrp | exact Hv].
    + apply Forall_singleton. unfold allocated. rewrite lookup_insert_eq. eauto.
Qed.

(** After [Refresh], the bucket of a group holds no entity that was dead or
    outside the group. *)
Lemma refreshed_bucket_drops w w' g v p :
  refreshed w w' ->
  groupedEntities (manager w') !! g = Some v ->
  keeps (entityHeap w) (N.of_nat g) p = false -> p ∉ v.
Proof.
  intros Hr Hv Hk Hp. rewrite (rf_groups _ _ Hr) in Hv.
  unfold refreshed_buckets in Hv. rewrite list_lookup_imap in Hv.
  destruct (groupedEntities (manager w) !! g) as [v0|]; [|discriminate].
  injection Hv as <-. apply elem_of_List_filter in Hp as [_ Hp]. congruence.
Qed.

(** ** Destruction and group membership *)

(** C4: whatever the [active] flag of an allocated entity [e] is set to,
    [e.Destroy()] clears [alive], leaves [active] and the containers of the
    manager as they are (so [e] still appears wherever it appeared), and the
    next [Refresh] leaves [e] neither in the entity collection nor in any
    bucket. *)
Theorem Destroy_then_Refresh_removes (e : EntityPtr) (isActive : bool) (w : World) :
  manager_ok w -> allocated (entityHeap w) e ->
  exists w0 w1 w2,
    (if isActive then Entity_Enable e else Entity_Disable e) w = Ok (tt, w0)
    /\ Entity_IsActive e w0 = Ok (isActive, w0)
    /\ Entity_Destroy e w0 = Ok (tt, w1)
    /\ Entity_IsAlive e w1 = Ok (false, w1)
    /\ Entity_IsActive e w1 = Ok (isActive, w1)
    /\ manager w1 = manager w
    /\ EntityManager_Refresh w1 = Ok (tt, w2)
    /\ (e ∉ entities (manager w2))
    /\ (forall v, v ∈ groupedEntities (manager w2) -> e ∉ v).
Proof.
  intros Hok [ent He].
  set (ent0 := with_active isActive ent).
  set (w0 := poke e ent0 w).
  set (w1 := poke e (with_alive false ent0) w0).
  assert (He0 : entityHeap w0 !! e = Some ent0) by apply lookup_insert_eq.
  assert (He1 : entityHeap w1 !! e = Some (with_alive false ent0))
    by apply lookup_insert_eq.
  assert (Hok1 : manager_ok w1) by (do 2 apply poke_manager_ok; exact Hok).
  destruct (Refresh_run w1 Hok1) as (w2 & Hr & Hp).
  assert (Hdead : alive_in (entityHeap w1) e = false).
  { unfold alive_in. rewrite He1. reflexivity. }
  exists w0, w1, w2. split_and!.
  - destruct isActive; [apply Entity_Enable_run | apply Entity_Disable_run];
      exact He.
  - apply (Entity_IsActive_run e ent0 w0 He0).
  - apply (Entity_Destroy_run e ent0 w0 He0).
  - apply (Entity_IsAlive_run e _ w1 He1).
  - apply (Entity_IsActive_run e _ w1 He1).
  - reflexivity.
  - exact Hr.
  - rewrite (rf_entities _ _ Hp). rewrite elem_of_List_filter.
    intros [_ Ha]. congruence.
  - intros v Hv. apply list_elem_of_lookup in Hv as [g Hv].
    apply (refreshed_bucket_drops _ _ _ _ _ Hp Hv).
    unfold keeps. rewrite Hdead. reflexivity.
Qed.

Lemma Destroy_then_Refresh_removes_witness :
  (1%nat ∈ entities (manager demo_world))
  /\ exists w0 w1 w2,
    Entity_Disable 1%nat demo_world = Ok (tt, w0)
    /\ Entity_IsActive 1%nat w0 = Ok (false, w0)
    /\ Entity_Destroy 1%nat w0 = Ok (tt, w1)
    /\ Entity_IsAlive 1%nat w1 = Ok (false, w1)
    /\ Entity_IsActive 1%nat w1 = Ok (false, w1)
    /\ manager w1 = manager demo_world
    /\ EntityManager_Refresh w1 = Ok (tt, w2)
    /\ (1%nat ∉ entities (manager w2))
    /\ (forall v, v ∈ groupedEntities (manager w2) -> 1%nat ∉ v).
Proof.
  split; [vm_compute; apply (list_elem_of_further _ _ _ (list_elem_of_here _ _))|].
  apply (Destroy_then_Refresh_removes 1%nat false demo_world).
  - apply (bool_decide_unpack _). vm_compute. exact I.
  - apply (bool_decide_unpack _). vm_compute. exact I.
Defined.

(** C5: for an allocated entity [e] and a group [g < maxGroups]:
    [e.AddGroup(g)] sets the bit of [g] and appends [e] to the bucket of [g]
    at once; [e.DelGroup(g)] clears the bit and leaves the manager as it is,
    so the bucket still reads the same, and it is the next [Refresh] after
    which the bucket does not contain [e]. Each of the two does this and
    nothing else. The state after [AddGroup] is the state before with the
    bit of [g] set in [groupBitset] of [e] and [e] appended to the bucket of
    [g]; the state after [DelGroup] is the state before with the bit of [g]
    cleared in [groupBitset] of [e]: [e] is as alive and as active as it
    was, its other group bits and its components are as they were, and so
    are the other entities. *)
Theorem AddGroup_eager_DelGroup_lazy (e : EntityPtr) (g : Group) (w : World) :
  manager_ok w -> allocated (entityHeap w) e -> g < maxGroups ->
  exists v,
    EntityManager_GetEntitiesByGroup g w = Ok (v, w)
    /\ (exists w1,
          Entity_AddGroup e g w = Ok (tt, w1)
          /\ Entity_HasGroup e g w1 = Ok (true, w1)
          /\ EntityManager_GetEntitiesByGroup g w1 = Ok (v ++ [e], w1)
          /\ exists ent,
               entityHeap w !! e = Some ent
               /\ w1 = set_manager
                         (mkEntityManager (entities (manager w))
                            (<[N.to_nat g := v ++ [e]]>
                               (groupedEntities (manager w))))
                         (set_entityHeap
                            (<[e := mkEntity (alive ent) (components ent)
                                      (active ent) (componentArray ent)
                                      (componentBitset ent)
                                      (N.setbit (groupBitset ent) g)]>
                               (entityHeap w)) w)
               /\ Entity_IsAlive e w1 = Ok (alive ent, w1)
               /\ Entity_IsActive e w1 = Ok (active ent, w1)
               /\ (forall g', g' < maxGroups -> g' <> g ->
                     Entity_HasGroup e g' w1
                     = Ok (N.testbit (groupBitset ent) g', w1))
               /\ (forall g' v', g' <> g ->
                     EntityManager_GetEntitiesByGroup g' w = Ok (v', w) ->
                     EntityManager_GetEntitiesByGroup g' w1 = Ok (v', w1))
               /\ (forall q, q <> e -> entityHeap w1 !! q = entityHeap w !! q))
    /\ (exists w2 w3 v',
          Entity_DelGroup e g w = Ok (tt, w2)
          /\ Entity_HasGroup e g w2 = Ok (false, w2)
          /\ manager w2 = manager w
          /\ EntityManager_GetEntitiesByGroup g w2 = Ok (v, w2)
          /\ EntityManager_Refresh w2 = Ok (tt, w3)
          /\ EntityManager_GetEntitiesByGroup g w3 = Ok (v', w3)
          /\ (e ∉ v')
          /\ exists ent,
               entityHeap w !! e = Some ent
               /\ w2 = set_entityHeap
                         (<[e := mkEntity (alive ent) (components ent)
                                   (active ent) (componentArray ent)
                                   (componentBitset ent)
                                   (N.clearbit (groupBitset ent) g)]>
                            (entityHeap w)) w
               /\ Entity_IsAlive e w2 = Ok (alive ent, w2)
               /\ Entity_IsActive e w2 = Ok (active ent, w2)
               /\ (forall g', g' < maxGroups -> g' <> g ->
                     Entity_HasGroup e g' w2
                     = Ok (N.testbit (groupBitset ent) g', w2))
               /\ (forall q, q <> e -> entityHeap w2 !! q = entityHeap w !! q)).
Proof.
  intros Hok [ent He] Hg.
  destruct (bucket_exists g w Hok Hg) as (v & Hv & _).
  exists v. split_and!.
  - apply GetEntitiesByGroup_run, Hv.
  - set (ent1 := with_groupBitset (N.setbit (groupBitset ent) g) ent).
    set (w1 := set_buckets (<[N.to_nat g := v ++ [e]]> (groupedEntities (manager w)))
                 (poke e ent1 w)).
    assert (He1 : entityHeap w1 !! e = Some ent1) by apply lookup_insert_eq.
    exists w1. split_and!.
    + apply (Entity_AddGroup_run e ent g v w He Hg Hv).
    + rewrite (Entity_HasGroup_run e ent1 g w1 He1 Hg).
      simpl. rewrite N.setbit_eq. reflexivity.
    + apply GetEntitiesByGroup_run. simpl.
      apply list_lookup_insert_eq. eapply lookup_lt_Some, Hv.
    + exists ent. split_and!.
      * exact He.
      * reflexivity.
      * apply (Entity_IsAlive_run e ent1 w1 He1).
      * apply (Entity_IsActive_run e ent1 w1 He1).
      * intros g' Hg' Hne. rewrite (Entity_HasGroup_run e ent1 g' w1 He1 Hg').
        simpl. rewrite N.setbit_neq by done. reflexivity.
      * intros g' v' Hne Hread.
        unfold EntityManager_GetEntitiesByGroup, bucket, bind, get, ret in Hread.
        destruct (groupedEntities (manager w) !! N.to_nat g') as [x|] eqn:Hx;
          [|discriminate].
        injection Hread as <-. apply GetEntitiesByGroup_run. simpl.
        rewrite list_lookup_insert_ne; [exact Hx|].
        intros Heq. apply N2Nat.inj in Heq. congruence.
      * intros q Hq. simpl. by rewrite lookup_insert_ne.
  - set (ent2 := with_groupBitset (N.clearbit (groupBitset ent) g) ent).
    set (w2 := poke e ent2 w).
    assert (He2 : entityHeap w2 !! e = Some ent2) by apply lookup_insert_eq.
    assert (Hok2 : manager_ok w2) by (apply poke_manager_ok; exact Hok).
    destruct (Refresh_run w2 Hok2) as (w3 & Hr & Hp).
    destruct (bucket_exists g w3 (refreshed_manager_ok _ _ Hok2 Hp) Hg)
      as (v' & Hv' & _).
    exists w2, w3, v'. split_and!.
    + apply (Entity_DelGroup_run e ent g w He Hg).
    + erewrite Entity_HasGroup_run; [| exact He2 | exact Hg].
      simpl. rewrite N.clearbit_eq. reflexivity.
    + reflexivity.
    + apply GetEntitiesByGroup_run, Hv.
    + exact Hr.
    + apply GetEntitiesByGroup_run, Hv'.
    + apply (refreshed_bucket_drops _ _ _ _ _ Hp Hv').
      unfold keeps, in_group. rewrite He2. simpl.
      rewrite N2Nat.id, N.clearbit_eq. apply andb_false_r.
    + exists ent. split_and!.
      * exact He.
      * reflexivity.
      * apply (Entity_IsAlive_run e ent2 w2 He2).
      * apply (Entity_IsActive_run e ent2 w2 He2).
      * intros g' Hg' Hne. rewrite (Entity_HasGroup_run e ent2 g' w2 He2 Hg').
        simpl. rewrite N.clearbit_neq by done. reflexivity.
      * intros q Hq. simpl. by rewrite lookup_insert_ne.
Qed.

Lemma AddGroup_eager_DelGroup_lazy_witness :
  exists v w2 w3 v',
    EntityManager_GetEntitiesByGroup 3 demo_world = Ok (v, demo_world)
    /\ (0%nat ∈ v)
    /\ Entity_HasGroup 0%nat 0 demo_world = Ok (true, demo_world)
    /\ (exists w1,
          Entity_AddGroup 0%nat 3 demo_world = Ok (tt, w1)
          /\ Entity_HasGroup 0%nat 3 w1 = Ok (true, w1)
          /\ EntityManager_GetEntitiesByGroup 3 w1 = Ok (v ++ [0%nat], w1))
    /\ Entity_DelGroup 0%nat 3 demo_world = Ok (tt, w2)
    /\ Entity_HasGroup 0%nat 3 w2 = Ok (false, w2)
    /\ manager w2 = manager demo_world
    /\ EntityManager_GetEntitiesByGroup 3 w2 = Ok (v, w2)
    /\ EntityManager_Refresh w2 = Ok (tt, w3)
    /\ EntityManager_GetEntitiesByGroup 3 w3 = Ok (v', w3)
    /\ (0%nat ∉ v')
    /\ Entity_IsAlive 0%nat w2 = Ok (true, w2)
    /\ Entity_IsActive 0%nat w2 = Ok (true, w2)
    /\ Entity_HasGroup 0%nat 0 w2 = Ok (true, w2)
    /\ Entity_HasComponent "Physics" 0%nat w2 = Ok (true, w2).
Proof.
  destruct (AddGroup_eager_DelGroup_lazy 0%nat 3 demo_world)
    as (v & Hv & (w1 & Ha1 & Ha2 & Ha3 & _)
          & (w2 & w3 & v' & Hd1 & Hd2 & Hd3 & Hd4 & Hd5 & Hd6 & Hd7
               & ent & He & Hw2 & Hal & Hac & Hbits & _)).
  - apply (bool_decide_unpack _). vm_compute. exact I.
  - apply (bool_decide_unpack _). vm_compute. exact I.
  - reflexivity.
  - assert (Hent : ent = default Entity_new (entityHeap demo_world !! 0%nat))
      by (rewrite He; reflexivity).
    exists v, w2, w3, v'. split_and!; try assumption.
    + vm_compute in Hv. injection Hv as <-. apply list_elem_of_here.
    + vm_compute. reflexivity.
    + exact (ex_intro _ w1 (conj Ha1 (conj Ha2 Ha3))).
    + rewrite Hal, Hent. vm_compute. reflexivity.
    + rewrite Hac, Hent. vm_compute. reflexivity.
    + rewrite (Hbits 0); [|reflexivity|discriminate].
      rewrite Hent. vm_compute. reflexivity.
    + rewrite Hw2, Hent. vm_compute. reflexivity.
Defined.

(** C9: [e.AddGroup(g)] twice, for an allocated entity [e] and
    [g < maxGroups], appends [e] twice to the bucket of [g] and leaves the bit
    of [g] set; a [Refresh] directly afterwards filters the older entries of
    the bucket and keeps both new ones if [e] is alive (and drops both if it
    is not). *)
Theorem AddGroup_twice_keeps_duplicates (e : EntityPtr) (g : Group) (w : World) :
  manager_ok w -> allocated (entityHeap w) e -> g < maxGroups ->
  exists v w1 w2 w3,
    EntityManager_GetEntitiesByGroup g w = Ok (v, w)
    /\ Entity_AddGroup e g w = Ok (tt, w1)
    /\ Entity_AddGroup e g w1 = Ok (tt, w2)
    /\ EntityManager_GetEntitiesByGroup g w2 = Ok (v ++ [e; e], w2)
    /\ Entity_IsAlive e w2 = Ok (alive_in (entityHeap w) e, w2)
    /\ Entity_HasGroup e g w2 = Ok (true, w2)
    /\ EntityManager_Refresh w2 = Ok (tt, w3)
    /\ EntityManager_GetEntitiesByGroup g w3 =
         Ok (List.filter (keeps (entityHeap w2) g) v
               ++ (if alive_in (entityHeap w) e then [e; e] else []), w3).
Proof.
  intros Hok [ent He] Hg.
  assert (Hal : alive_in (entityHeap w) e = alive ent)
    by (unfold alive_in; rewrite He; done).
  destruct (bucket_exists g w Hok Hg) as (v & Hv & _).
  set (ent1 := with_groupBitset (N.setbit (groupBitset ent) g) ent).
  set (w1 := set_buckets (<[N.to_nat g := v ++ [e]]> (groupedEntities (manager w)))
               (poke e ent1 w)).
  assert (Hlt : (N.to_nat g < length (groupedEntities (manager w)))%nat)
    by (eapply lookup_lt_Some, Hv).
  assert (He1 : entityHeap w1 !! e = Some ent1) by apply lookup_insert_eq.
  assert (Hv1 : groupedEntities (manager w1) !! N.to_nat g = Some (v ++ [e]))
    by (simpl; apply list_lookup_insert_eq, Hlt).
  assert (Hok1 : manager_ok w1) by (eapply AddGroup_manager_ok; eauto).
  set (ent2 := with_groupBitset (N.setbit (groupBitset ent1) g) ent1).
  set (w2 := set_buckets (<[N.to_nat g := (v ++ [e]) ++ [e]]>
                            (groupedEntities (manager w1)))
               (poke e ent2 w1)).
  assert (He2 : entityHeap w2 !! e = Some ent2) by apply lookup_insert_eq.
  assert (Hv2 : groupedEntities (manager w2) !! N.to_nat g = Some (v ++ [e; e])).
  { simpl. rewrite list_insert_insert_eq, list_lookup_insert_eq by exact Hlt.
    rewrite <- app_assoc. reflexivity. }
  assert (Hok2 : manager_ok w2) by (eapply AddGroup_manager_ok; eauto).
  destruct (Refresh_run w2 Hok2) as (w3 & Hr & Hp).
  exists v, w1, w2, w3. split_and!.
  - apply GetEntitiesByGroup_run, Hv.
  - apply (Entity_AddGroup_run e ent g v w He Hg Hv).
  - apply (Entity_AddGroup_run e ent1 g (v ++ [e]) w1 He1 Hg Hv1).
  - apply GetEntitiesByGroup_run, Hv2.
  - rewrite (Entity_IsAlive_run e ent2 w2 He2), Hal. reflexivity.
  - rewrite (Entity_HasGroup_run e ent2 g w2 He2 Hg). simpl.
    rewrite N.setbit_eq. reflexivity.
  - exact Hr.
  - apply GetEntitiesByGroup_run. rewrite (rf_groups _ _ Hp).
    unfold refreshed_buckets. rewrite list_lookup_imap, Hv2. simpl.
    rewrite N2Nat.id, List.filter_app. do 2 f_equal.
    assert (Hk : keeps (entityHeap w2) g e = alive ent).
    { unfold keeps, alive_in, in_group. rewrite He2. simpl.
      rewrite N.setbit_eq. apply andb_true_r. }
    rewrite Hal. change (List.filter (keeps (entityHeap w2) g) [e; e]
                          = if alive ent then [e; e] else []).
    cbn [List.filter]. rewrite Hk. destruct (alive ent); reflexivity.
Qed.

Lemma AddGroup_twice_keeps_duplicates_witness :
  exists w1 w2 w3,
    Entity_AddGroup 2%nat 1 demo_world = Ok (tt, w1)
    /\ Entity_AddGroup 2%nat 1 w1 = Ok (tt, w2)
    /\ EntityManager_GetEntitiesByGroup 1 w2 = Ok ([2; 2; 2]%nat, w2)
    /\ EntityManager_Refresh w2 = Ok (tt, w3)
    /\ EntityManager_GetEntitiesByGroup 1 w3 = Ok ([2; 2; 2]%nat, w3).
Proof.
  destruct (AddGroup_twice_keeps_duplicates 2%nat 1 demo_world)
    as (v & w1 & w2 & w3 & Hv & H1 & H2 & Hg2 & _ & _ & Hr & Hg3).
  - apply (bool_decide_unpack _). vm_compute. exact I.
  - apply (bool_decide_unpack _). vm_compute. exact I.
  - reflexivity.
  - exists w1, w2, w3. vm_compute in Hv. injection Hv as <-.
    split_and!; try assumption.
    rewrite Hg3. do 2 f_equal.
    vm_compute in H1. injection H1 as <-.
    vm_compute in H2. injection H2 as <-.
    vm_compute. reflexivity.
Defined.

(** ** The update pass *)

Lemma same_structure_refl w : same_structure w w.
Proof. by split. Qed.

Lemma same_structure_trans w1 w2 w3 :
  same_structure w1 w2 -> same_structure w2 w3 -> same_structure w1 w3.
Proof.
  intros [He1 Hm1 Hc1] [He2 Hm2 Hc2]. split.
  - congruence.
  - intros p. rewrite Hm2. apply Hm1.
  - intros c Hc. apply Hc2, Hc1, Hc.
Qed.

Lemma same_structure_set_trace t w w' :
  same_structure w w' -> same_structure w (set_trace t w').
Proof. intros [He Hm Hc]. by split. Qed.

Lemma same_structure_lookup w w' p e :
  same_structure w w' -> entityHeap w !! p = Some e ->
  exists e', entityHeap w' !! p = Some e'
             /\ active e' = active e /\ components e' = components e.
Proof.
  intros Hs He. pose proof (ss_members _ _ Hs p) as Hm. rewrite He in Hm.
  destruct (entityHeap w' !! p) as [e'|]; [|discriminate].
  injection Hm as Ha Hc. eauto.
Qed.

Lemma update_events_same_structure frameTime w w' p :
  same_structure w w' ->
  update_events frameTime (entityHeap w') p = update_events frameTime (entityHeap w) p.
Proof.
  intros Hs. unfold update_events. pose proof (ss_members _ _ Hs p) as Hm.
  destruct (entityHeap w' !! p) as [e'|], (entityHeap w !! p) as [e|];
    try discriminate; [|reflexivity].
  injection Hm as -> ->. reflexivity.
Qed.

Section UpdatePass.
Context (vt : VTable) (frameTime : FrameTime).
Hypothesis hooks : update_hooks_keep_structure vt.

Lemma virtual_Update_run c w :
  is_Some (componentHeap w !! c) ->
  exists w',
    virtual_call (EvUpdate c frameTime) (fun T c => vUpdate vt T c frameTime) c w
      = Ok (tt, w')
    /\ same_structure w w'
    /\ trace w' = trace w ++ [EvUpdate c frameTime].
Proof.
  intros [comp Hc]. unfold virtual_call. rewrite Hc.
  destruct (hooks (dynType comp) c frameTime w) as (w1 & Hrun & Hs).
  rewrite Hrun. eexists. split; [reflexivity|]. split; [|reflexivity].
  apply same_structure_set_trace, Hs.
Qed.

Lemma Entity_Update_loop this all : forall cs w e,
  entityHeap w !! this = Some e -> components e = all ->
  Forall (fun c => is_Some (componentHeap w !! c)) cs ->
  exists w',
    for_each cs (fun c =>
      virtual_call (EvUpdate c frameTime) (fun T c => vUpdate vt T c frameTime) c ;;
      check_components this all) w = Ok (tt, w')
    /\ same_structure w w'
    /\ trace w' = trace w ++ map (fun c => EvUpdate c frameTime) cs.
Proof.
  induction cs as [|c cs IH]; intros w e He Hall Hcs.
  - exists w. split; [reflexivity|]. split; [apply same_structure_refl|].
    simpl. by rewrite app_nil_r.
  - apply list.Forall_cons in Hcs as [Hc Hcs].
    destruct (virtual_Update_run c w Hc) as (w1 & Hcall & Hs1 & Ht1).
    destruct (same_structure_lookup _ _ _ _ Hs1 He) as (e1 & He1 & _ & Hc1).
    assert (Hchk : check_components this all w1 = Ok (tt, w1)).
    { unfold check_components, bind, deref. rewrite He1.
      rewrite decide_True by congruence. reflexivity. }
    destruct (IH w1 e1 He1) as (w' & Hrun & Hs & Ht).
    { congruence. }
    { eapply list.Forall_impl; [exact Hcs|]. intros c'. apply (ss_components _ _ Hs1). }
    exists w'. split_and!.
    + cbn [for_each]. unfold bind at 1. unfold bind at 1.
      rewrite Hcall, Hchk. exact Hrun.
    + eapply same_structure_trans; eassumption.
    + rewrite Ht, Ht1. simpl. by rewrite <- app_assoc.
Qed.

Lemma Entity_Update_run this w e :
  entityHeap w !! this = Some e ->
  Forall (fun c => is_Some (componentHeap w !! c)) (components e) ->
  exists w',
    Entity_Update vt this frameTime w = Ok (tt, w')
    /\ same_structure w w'
    /\ trace w' = trace w ++ map (fun c => EvUpdate c frameTime) (components e).
Proof.
  intros He Hcs.
  destruct (Entity_Update_loop this (components e) (components e) w e He eq_refl Hcs)
    as (w' & Hrun & Hs & Ht).
  exists w'. split_and!; try assumption.
  unfold Entity_Update. rewrite (bind_run _ _ _ _ _ (deref_run _ _ _ He)).
  exact Hrun.
Qed.

Lemma EntityManager_Update_loop all : forall es w,
  entities (manager w) = all ->
  Forall (allocated (entityHeap w)) es ->
  components_ok w ->
  exists w',
    for_each es (Update_visit vt frameTime all) w = Ok (tt, w')
    /\ same_structure w w'
    /\ trace w' = trace w ++ flat_map (update_events frameTime (entityHeap w)) es.
Proof.
  induction es as [|p es IH]; intros w Hall Hes Hcok.
  - exists w. split; [reflexivity|]. split; [apply same_structure_refl|].
    simpl. by rewrite app_nil_r.
  - apply list.Forall_cons in Hes as [[e He] Hes].
    assert (Hvisit : exists w1,
      (if active e then Entity_Update vt p frameTime else ret tt) w = Ok (tt, w1)
      /\ same_structure w w1
      /\ trace w1 = trace w ++ update_events frameTime (entityHeap w) p).
    { unfold update_events. rewrite He. destruct (active e).
      - apply Entity_Update_run; [exact He|]. apply (Hcok p e He).
      - exists w. split; [reflexivity|]. split; [apply same_structure_refl|].
        by rewrite app_nil_r. }
    destruct Hvisit as (w1 & Hrun1 & Hs1 & Ht1).
    assert (Hchk : check_entities all w1 = Ok (tt, w1)).
    { unfold check_entities, bind, get.
      rewrite decide_True; [reflexivity|]. rewrite (ss_entities _ _ Hs1). exact Hall. }
    destruct (IH w1) as (w' & Hrun & Hs & Ht).
    { rewrite (ss_entities _ _ Hs1). exact Hall. }
    { eapply list.Forall_impl; [exact Hes|]. intros q [eq Hq].
      destruct (same_structure_lookup _ _ _ _ Hs1 Hq) as (eq' & Hq' & _).
      unfold allocated. eauto. }
    { intros q eq Hq.
      pose proof (ss_members _ _ Hs1 q) as Hm. rewrite Hq in Hm.
      destruct (entityHeap w !! q) as [eq0|] eqn:Hq0; [|discriminate].
      injection Hm as _ Hm. rewrite Hm.
      eapply list.Forall_impl; [apply (Hcok q eq0 Hq0)|].
      intros c. apply (ss_components _ _ Hs1). }
    exists w'. split_and!.
    + cbn [for_each]. unfold bind at 1. unfold Update_visit at 1.
      rewrite (bind_run _ _ _ _ _ (Entity_IsActive_run p e w He)).
      unfold bind at 1. rewrite Hrun1, Hchk. exact Hrun.
    + eapply same_structure_trans; eassumption.
    + rewrite Ht, Ht1. simpl. rewrite <- app_assoc. do 2 f_equal.
      apply flat_map_ext. intros q. apply update_events_same_structure, Hs1.
Qed.

Lemma EntityManager_Update_run w :
  Forall (allocated (entityHeap w)) (entities (manager w)) ->
  components_ok w ->
  exists w',
    EntityManager_Update vt frameTime w = Ok (tt, w')
    /\ same_structure w w'
    /\ trace w' =
         trace w ++ flat_map (update_events frameTime (entityHeap w))
                      (entities (manager w)).
Proof.
  intros Hes Hcok.
  destruct (EntityManager_Update_loop (entities (manager w)) (entities (manager w))
              w eq_refl Hes Hcok) as (w' & Hrun & Hs & Ht).
  exists w'. split_and!; try assumption.
Qed.
End UpdatePass.

(** ** Attaching and retrieving components *)

Lemma GetComponentTypeID_registered T r0 id r :
  GetComponentTypeID T r0 = (id, r) -> typeID r !! T = Some id.
Proof.
  unfold GetComponentTypeID. destruct (typeID r0 !! T) as [id0|] eqn:H0.
  - intros [= <- <-]. exact H0.
  - simpl. intros [= <- <-]. simpl. apply lookup_insert_eq.
Qed.

Lemma GetComponentTypeID_grows T r0 id r :
  GetComponentTypeID T r0 = (id, r) -> typeID r0 ⊆ typeID r.
Proof.
  unfold GetComponentTypeID. destruct (typeID r0 !! T) as [id0|] eqn:H0.
  - intros [= <- <-]. reflexivity.
  - simpl. intros [= <- <-]. simpl. by apply insert_subseteq.
Qed.

Lemma typeIdOf_run T w id r :
  GetComponentTypeID T (registry w) = (id, r) ->
  typeIdOf T w = Ok (id, set_registry r w).
Proof. intros H. unfold typeIdOf. rewrite H. reflexivity. Qed.

Lemma typeIdOf_known T w id :
  typeID (registry w) !! T = Some id -> typeIdOf T w = Ok (id, w).
Proof.
  intros H. unfold typeIdOf. rewrite (GetComponentTypeID_known _ _ _ H).
  destruct w as [[] ? ? ? ? ? ?]. reflexivity.
Qed.

Lemma Entity_HasComponent_run T e ent w id r :
  entityHeap w !! e = Some ent ->
  GetComponentTypeID T (registry w) = (id, r) ->
  id < maxComponents ->
  Entity_HasComponent T e w =
    Ok (N.testbit (componentBitset ent) id, set_registry r w).
Proof.
  intros He Hid Hlt. apply N.ltb_lt in Hlt.
  unfold Entity_HasComponent. rewrite (bind_run _ _ _ _ _ (typeIdOf_run _ _ _ _ Hid)).
  unfold bind, deref, bitset_get, ret. simpl. rewrite He, Hlt. reflexivity.
Qed.

Lemma Entity_HasComponent_inv T e w b w' :
  Entity_HasComponent T e w = Ok (b, w') ->
  exists ent id r,
    entityHeap w !! e = Some ent
    /\ GetComponentTypeID T (registry w) = (id, r)
    /\ id < maxComponents
    /\ b = N.testbit (componentBitset ent) id
    /\ w' = set_registry r w.
Proof.
  unfold Entity_HasComponent, bind, typeIdOf, deref, bitset_get, ret, undefined.
  destruct (GetComponentTypeID T (registry w)) as [id r] eqn:Hid. simpl.
  destruct (entityHeap w !! e) as [ent|] eqn:He; [|discriminate].
  destruct (id <? maxComponents) eqn:Hlt; [|discriminate].
  intros [= <- <-]. apply N.ltb_lt in Hlt. eauto 10.
Qed.

Lemma store_run p e w : store p e w = Ok (tt, poke p e w).
Proof. reflexivity. Qed.

Lemma set_component_entity_run c e comp w :
  componentHeap w !! c = Some comp ->
  set_component_entity c e w =
    Ok (tt, set_componentHeap
              (<[c := mkComponent (Some e) (dynType comp)]> (componentHeap w)) w).
Proof. intros H. unfold set_component_entity. rewrite H. reflexivity. Qed.

Lemma Entity_AddComponent_run vt T e ent w id r :
  entityHeap w !! e = Some ent ->
  GetComponentTypeID T (registry w) = (id, r) ->
  id < maxComponents ->
  N.testbit (componentBitset ent) id = false ->
  Entity_AddComponent vt T e w =
    if decide (N.to_nat id < length (componentArray ent))%nat
    then (virtual_call (EvInitialize (nextComponent w)) (vInitialize vt)
            (nextComponent w) ;;
          ret (nextComponent w)) (attached T e ent id r w)
    else Undefined.
Proof.
  intros He Hid Hlt Hbit.
  pose proof (GetComponentTypeID_registered _ _ _ _ Hid) as Hreg.
  unfold Entity_AddComponent.
  rewrite (bind_run _ _ _ _ _ (Entity_HasComponent_run _ _ _ _ _ _ He Hid Hlt)).
  rewrite Hbit. unfold assert_ at 1. unfold bind at 1. cbn [negb].
  unfold new_component at 1. unfold bind at 1. cbv beta zeta.
  set (c := nextComponent (set_registry r w)).
  erewrite bind_run; [| apply set_component_entity_run, lookup_insert_eq ].
  erewrite bind_run; [| apply deref_run; exact He ].
  rewrite (bind_run _ _ _ _ _ (store_run _ _ _)).
  erewrite bind_run; [| apply typeIdOf_known; exact Hreg ].
  erewrite bind_run; [| apply deref_run; apply lookup_insert_eq ].
  unfold componentArray_set at 1. cbn [componentArray with_components].
  case_decide as Hlen; [|reflexivity].
  unfold ret at 1. unfold bind at 1.
  rewrite (bind_run _ _ _ _ _ (store_run _ _ _)).
  erewrite bind_run; [| apply typeIdOf_known; exact Hreg ].
  erewrite bind_run; [| apply deref_run; apply lookup_insert_eq ].
  unfold bitset_set at 1. apply N.ltb_lt in Hlt. rewrite Hlt.
  unfold ret at 1. unfold bind at 1.
  rewrite (bind_run _ _ _ _ _ (store_run _ _ _)).
  f_equal.
  unfold attached, attach, poke, set_entityHeap, set_componentHeap,
    set_nextComponent, set_registry. cbn -[N.setbit insert].
  rewrite !insert_insert_eq. reflexivity.
Qed.

(** [Initialize] as [AddComponent] calls it. *)
Lemma virtual_Initialize_attached vt T e ent id r w :
  (virtual_call (EvInitialize (nextComponent w)) (vInitialize vt)
     (nextComponent w) ;;
   ret (nextComponent w)) (attached T e ent id r w) =
  match vInitialize vt T (nextComponent w) (attached T e ent id r w) with
  | Ok (_, wi) =>
      Ok (nextComponent w, set_trace (trace w ++ [EvInitialize (nextComponent w)]) wi)
  | AssertFail => AssertFail
  | Undefined => Undefined
  end.
Proof.
  unfold bind, virtual_call, ret. cbn [attached componentHeap trace].
  rewrite lookup_insert_eq. cbn [dynType].
  destruct (vInitialize vt T (nextComponent w) _) as [[[] wi]| |]; reflexivity.
Qed.

(** ** What any use of the public interface preserves *)

Lemma table_extends_refl ent : table_extends ent ent.
Proof. intros i Hi. done. Qed.

Lemma table_extends_trans e1 e2 e3 :
  table_extends e1 e2 -> table_extends e2 e3 -> table_extends e1 e3.
Proof.
  intros H12 H23 i Hi. destruct (H12 i Hi) as [Hb Hs].
  destruct (H23 i Hb) as [Hb' Hs']. split; [exact Hb'|congruence].
Qed.

Lemma evolves_refl w : evolves w w.
Proof.
  split; [reflexivity | lia |]. intros p ent' _ H. exists ent'.
  split; [exact H | apply table_extends_refl].
Qed.

Lemma evolves_trans w1 w2 w3 :
  evolves w1 w2 -> evolves w2 w3 -> evolves w1 w3.
Proof.
  intros [Hr1 Hn1 Ht1] [Hr2 Hn2 Ht2]. split.
  - etrans; eassumption.
  - lia.
  - intros p ent3 Hp H3.
    destruct (Ht2 p ent3 ltac:(lia) H3) as (ent2 & H2 & Hx2).
    destruct (Ht1 p ent2 Hp H2) as (ent1 & H1 & Hx1).
    exists ent1. split; [exact H1|]. eapply table_extends_trans; eassumption.
Qed.

Lemma advances_refl w : world_ok w -> advances w w.
Proof. intros H. split; [exact H | apply evolves_refl]. Qed.

Lemma advances_trans w1 w2 w3 :
  advances w1 w2 -> advances w2 w3 -> advances w1 w3.
Proof.
  intros [_ H12] [Hok H23]. split; [exact Hok|].
  eapply evolves_trans; eassumption.
Qed.

(** A step that leaves the entities alone. *)
Lemma advances_same_heap w w' :
  world_ok w ->
  entityHeap w' = entityHeap w -> nextEntity w' = nextEntity w ->
  typeID (registry w) ⊆ typeID (registry w') ->
  advances w w'.
Proof.
  intros Hok Hh Hn Hr. split.
  - unfold world_ok in *. rewrite Hh, Hn. exact Hok.
  - split; [exact Hr | lia |]. intros p ent' _ H. rewrite Hh in H.
    exists ent'. split; [exact H | apply table_extends_refl].
Qed.

(** A step that rewrites the members of one entity. *)
Lemma advances_poke w p ent ent' :
  world_ok w -> entityHeap w !! p = Some ent ->
  table_extends ent ent' ->
  length (componentArray ent') = length (componentArray ent) ->
  advances w (poke p ent' w).
Proof.
  intros Hok Hp Hx Hlen. split.
  - unfold world_ok, poke. simpl. apply map_Forall_insert_2; [|exact Hok].
    destruct (Hok p ent Hp) as [Hlt Hl]. split; [exact Hlt | congruence].
  - split; [reflexivity | simpl; lia |]. intros q entq _. simpl.
    rewrite lookup_insert. case_decide as Hd.
    + subst q. intros [= <-]. eauto.
    + intros Hq. exists entq. split; [exact Hq | apply table_extends_refl].
Qed.

Lemma respects_ret {A} (a : A) : respects (ret a).
Proof. intros w a' w' Hok [= <- <-]. by apply advances_refl. Qed.

Lemma respects_undefined {A} : respects (@undefined A).
Proof. intros w a w' _ H. discriminate. Qed.

Lemma respects_bind {A B} (m : M A) (k : A -> M B) :
  respects m -> (forall a, respects (k a)) -> respects (bind m k).
Proof.
  intros Hm Hk w b w2 Hok H. apply bind_inv in H as (a & w1 & H1 & H2).
  pose proof (Hm w a w1 Hok H1) as Hadv.
  eapply advances_trans; [exact Hadv|]. eapply Hk; [apply Hadv | exact H2].
Qed.

Lemma respects_for_each {A} (l : list A) (body : A -> M unit) :
  (forall x, respects (body x)) -> respects (for_each l body).
Proof.
  intros Hb. induction l as [|x l IH]; simpl.
  - apply respects_ret.
  - apply respects_bind; [apply Hb | intros _; exact IH].
Qed.

Lemma respects_get : respects get.
Proof. intros w a w' Hok [= <- <-]. by apply advances_refl. Qed.

Lemma respects_deref p : respects (deref p).
Proof.
  intros w a w' Hok H. apply deref_inv in H as [-> _]. by apply advances_refl.
Qed.

Lemma respects_assert b : respects (assert_ b).
Proof.
  intros w a w' Hok. unfold assert_. destruct b; [|discriminate].
  intros [= <- <-]. by apply advances_refl.
Qed.

Lemma respects_bitset_get n bits i : respects (bitset_get n bits i).
Proof.
  unfold bitset_get. destruct (i <? n); [apply respects_ret | apply respects_undefined].
Qed.

Lemma respects_typeIdOf T : respects (typeIdOf T).
Proof.
  intros w a w' Hok. unfold typeIdOf.
  destruct (GetComponentTypeID T (registry w)) as [id r] eqn:Hid.
  intros [= <- <-]. apply advances_same_heap; try done.
  simpl. eapply GetComponentTypeID_grows, Hid.
Qed.

Lemma respects_modify_manager (f : World -> EntityManager) :
  respects (modify (fun w => set_manager (f w) w)).
Proof.
  intros w a w' Hok [= <- <-]. by apply advances_same_heap.
Qed.

Lemma respects_bucket g : respects (bucket g).
Proof.
  unfold bucket. apply respects_bind; [apply respects_get|]. intros w.
  destruct (groupedEntities (manager w) !! N.to_nat g);
    [apply respects_ret | apply respects_undefined].
Qed.

Lemma respects_set_bucket g v : respects (set_bucket g v).
Proof. unfold set_bucket. apply (respects_modify_manager (fun w => _)). Qed.

Lemma respects_Entity_IsAlive e : respects (Entity_IsAlive e).
Proof.
  unfold Entity_IsAlive. apply respects_bind; [apply respects_deref|].
  intros ent. apply respects_ret.
Qed.

Lemma respects_Entity_IsActive e : respects (Entity_IsActive e).
Proof.
  unfold Entity_IsActive. apply respects_bind; [apply respects_deref|].
  intros ent. apply respects_ret.
Qed.

Lemma respects_Entity_HasGroup e g : respects (Entity_HasGroup e g).
Proof.
  unfold Entity_HasGroup. apply respects_bind; [apply respects_deref|].
  intros ent. apply respects_bitset_get.
Qed.

Lemma respects_Entity_HasComponent T e : respects (Entity_HasComponent T e).
Proof.
  unfold Entity_HasComponent. apply respects_bind; [apply respects_typeIdOf|].
  intros id. apply respects_bind; [apply respects_deref|].
  intros ent. apply respects_bitset_get.
Qed.

(** The operations that assign to members other than the component table. *)
Lemma respects_deref_store e (f : Entity -> Entity) :
  (forall ent, componentBitset (f ent) = componentBitset ent
               /\ componentArray (f ent) = componentArray ent) ->
  respects (let! ent := deref e in store e (f ent)).
Proof.
  intros Hf w a w' Hok H. apply bind_inv in H as (ent & w1 & Hd & Hs).
  apply deref_inv in Hd as [-> He]. rewrite store_run in Hs.
  injection Hs as <- <-. destruct (Hf ent) as [Hb Ha].
  apply (advances_poke w e ent); [exact Hok | exact He | | by rewrite Ha].
  intros i Hi. rewrite Hb, Ha. done.
Qed.

Lemma respects_Entity_Destroy e : respects (Entity_Destroy e).
Proof. apply (respects_deref_store e (with_alive false)). done. Qed.

Lemma respects_Entity_Enable e : respects (Entity_Enable e).
Proof. apply (respects_deref_store e (with_active true)). done. Qed.

Lemma respects_Entity_Disable e : respects (Entity_Disable e).
Proof. apply (respects_deref_store e (with_active false)). done. Qed.

Lemma respects_groupBitset_store e ent bits :
  forall w a w', world_ok w -> entityHeap w !! e = Some ent ->
    store e (with_groupBitset bits ent) w = Ok (a, w') -> advances w w'.
Proof.
  intros w a w' Hok He Hs. rewrite store_run in Hs. injection Hs as <- <-.
  apply (advances_poke w e ent); [exact Hok | exact He | | reflexivity].
  intros i Hi. done.
Qed.

Lemma respects_Entity_DelGroup e g : respects (Entity_DelGroup e g).
Proof.
  intros w a w' Hok H. unfold Entity_DelGroup in H.
  apply bind_inv in H as (ent & w1 & Hd & H). apply deref_inv in Hd as [-> He].
  apply bind_inv in H as (bits & w2 & Hb & H).
  unfold bitset_set in Hb. destruct (g <? maxGroups); [|discriminate].
  injection Hb as <- <-. eapply respects_groupBitset_store; eassumption.
Qed.

Lemma respects_EntityManager_AddToGroup e g :
  respects (EntityManager_AddToGroup e g).
Proof.
  unfold EntityManager_AddToGroup. apply respects_bind; [apply respects_bucket|].
  intros v. apply respects_set_bucket.
Qed.

Lemma respects_Entity_AddGroup e g : respects (Entity_AddGroup e g).
Proof.
  intros w a w' Hok H. unfold Entity_AddGroup in H.
  apply bind_inv in H as (ent & w1 & Hd & H). apply deref_inv in Hd as [-> He].
  apply bind_inv in H as (bits & w2 & Hb & H).
  unfold bitset_set in Hb. destruct (g <? maxGroups); [|discriminate].
  injection Hb as <- <-.
  apply bind_inv in H as ([] & w3 & Hs & H).
  pose proof (respects_groupBitset_store _ _ _ _ _ _ Hok He Hs) as Hadv.
  eapply advances_trans; [exact Hadv|].
  eapply respects_EntityManager_AddToGroup; [apply Hadv | exact H].
Qed.

Lemma respects_erase_remove_if {A} (pred : A -> M bool) (v : list A) :
  (forall x, respects (pred x)) -> respects (erase_remove_if pred v).
Proof.
  intros Hp. induction v as [|x v IH]; simpl.
  - apply respects_ret.
  - apply respects_bind; [apply Hp|]. intros drop.
    apply respects_bind; [exact IH|]. intros [kept erased]. apply respects_ret.
Qed.

Lemma respects_stale_in_group g e : respects (stale_in_group g e).
Proof.
  unfold stale_in_group. apply respects_bind; [apply respects_Entity_IsAlive|].
  intros isAlive. destruct (negb isAlive); [apply respects_ret|].
  apply respects_bind; [apply respects_Entity_HasGroup|].
  intros b. apply respects_ret.
Qed.

Lemma respects_is_dead e : respects (is_dead e).
Proof.
  unfold is_dead. apply respects_bind; [apply respects_Entity_IsAlive|].
  intros b. apply respects_ret.
Qed.

Lemma respects_delete_entity e : respects (delete_entity e).
Proof.
  intros w a w' Hok H. unfold delete_entity in H.
  apply bind_inv in H as (ent & w1 & Hd & H). apply deref_inv in Hd as [-> He].
  injection H as <- <-. split.
  - unfold world_ok. simpl. apply map_Forall_delete, Hok.
  - split; [reflexivity | simpl; lia |]. intros p ent' _. simpl.
    intros Hp. apply lookup_delete_Some in Hp as [_ Hp].
    exists ent'. split; [exact Hp | apply table_extends_refl].
Qed.

Lemma respects_Refresh : respects EntityManager_Refresh.
Proof.
  unfold EntityManager_Refresh, Refresh_groups, Refresh_entities.
  apply respects_bind.
  - apply respects_for_each. intros i.
    apply respects_bind; [apply respects_bucket|]. intros v.
    apply respects_bind.
    + apply respects_erase_remove_if. intros e. apply respects_stale_in_group.
    + intros [kept erased]. apply respects_set_bucket.
  - intros _. apply respects_bind; [apply respects_get|]. intros w.
    apply respects_bind.
    + apply respects_erase_remove_if. intros e. apply respects_is_dead.
    + intros [kept erased]. apply respects_bind.
      * apply (respects_modify_manager (fun w => _)).
      * intros _. apply respects_for_each. intros e. apply respects_delete_entity.
Qed.

Lemma respects_AddEntity : respects EntityManager_AddEntity.
Proof.
  intros w a w' Hok [= <- <-]. split.
  - unfold world_ok. simpl. apply map_Forall_insert_2.
    + split; [lia | reflexivity].
    + eapply map_Forall_impl; [exact Hok|]. simpl. intros p e [Hp Hl].
      split; [lia | exact Hl].
  - split; [reflexivity | simpl; lia |]. intros p ent' Hp. simpl.
    rewrite lookup_insert_ne by lia. intros H.
    exists ent'. split; [exact H | apply table_extends_refl].
Qed.

Lemma respects_check_components e cs : respects (check_components e cs).
Proof.
  unfold check_components. apply respects_bind; [apply respects_deref|].
  intros ent. case_decide; [apply respects_ret | apply respects_undefined].
Qed.

Lemma respects_check_entities es : respects (check_entities es).
Proof.
  unfold check_entities. apply respects_bind; [apply respects_get|].
  intros w. case_decide; [apply respects_ret | apply respects_undefined].
Qed.

Lemma advances_set_trace t w w' : advances w w' -> advances w (set_trace t w').
Proof. intros [Hok [Hr Hn Ht]]. split; [exact Hok|]. by split. Qed.

Lemma table_extends_attach id c ent :
  N.testbit (componentBitset ent) id = false ->
  table_extends ent (attach id c ent).
Proof.
  intros Hbit i Hi. assert (i <> id) by congruence.
  unfold attach. cbn [componentBitset componentArray with_componentBitset
                        with_componentArray with_components].
  split.
  - rewrite N.setbit_neq by done. exact Hi.
  - apply list_lookup_insert_ne. lia.
Qed.

Lemma attached_advances T e ent id r w :
  world_ok w -> entityHeap w !! e = Some ent ->
  GetComponentTypeID T (registry w) = (id, r) ->
  N.testbit (componentBitset ent) id = false ->
  advances w (attached T e ent id r w).
Proof.
  intros Hok He Hid Hbit. split.
  - unfold world_ok, attached. cbn [entityHeap nextEntity].
    apply map_Forall_insert_2; [|exact Hok].
    destruct (Hok e ent He) as [Hlt Hl]. split; [exact Hlt|].
    unfold attach. cbn [componentArray with_componentBitset with_componentArray].
    rewrite length_insert. exact Hl.
  - split.
    + cbn [attached registry]. eapply GetComponentTypeID_grows, Hid.
    + cbn [attached nextEntity]. lia.
    + intros p ent' _. cbn [attached entityHeap]. rewrite lookup_insert.
      case_decide as Hd.
      * subst p. intros [= <-]. exists ent. split; [exact He|].
        by apply table_extends_attach.
      * intros Hp. exists ent'. split; [exact Hp | apply table_extends_refl].
Qed.

Section Interface.
Context (vt : VTable).
Hypothesis hooks : hooks_respect_interface vt.

Lemma respects_virtual_call ev (hook : TypeKey -> CompPtr -> M unit) c :
  (forall T c, respects (hook T c)) -> respects (virtual_call ev hook c).
Proof.
  intros Hhook w a w' Hok H. unfold virtual_call in H.
  destruct (componentHeap w !! c) as [comp|]; [|discriminate].
  destruct (hook (dynType comp) c w) as [[[] wi]| |] eqn:Hrun; try discriminate.
  injection H as <- <-. apply advances_set_trace.
  apply (Hhook _ _ _ _ _ Hok Hrun).
Qed.

Lemma respects_virtual_Update ev frameTime c :
  respects (virtual_call ev (fun T c => vUpdate vt T c frameTime) c).
Proof. apply respects_virtual_call. intros T c'. apply hooks. Qed.

Lemma respects_virtual_Draw ev c :
  respects (virtual_call ev (vDraw vt) c).
Proof. apply respects_virtual_call, hooks. Qed.

Lemma respects_Entity_Update e frameTime :
  respects (Entity_Update vt e frameTime).
Proof.
  unfold Entity_Update. apply respects_bind; [apply respects_deref|].
  intros ent. apply respects_for_each. intros c.
  apply respects_bind; [apply respects_virtual_Update|].
  intros _. apply respects_check_components.
Qed.

Lemma respects_Entity_Draw e : respects (Entity_Draw vt e).
Proof.
  unfold Entity_Draw. apply respects_bind; [apply respects_deref|].
  intros ent. apply respects_for_each. intros c.
  apply respects_bind; [apply respects_virtual_Draw|].
  intros _. apply respects_check_components.
Qed.

Lemma respects_EntityManager_Update frameTime :
  respects (EntityManager_Update vt frameTime).
Proof.
  unfold EntityManager_Update. apply respects_bind; [apply respects_get|].
  intros w. apply respects_for_each. intros e.
  apply respects_bind; [apply respects_Entity_IsActive|]. intros isActive.
  apply respects_bind; [|intros _; apply respects_check_entities].
  destruct isActive; [apply respects_Entity_Update | apply respects_ret].
Qed.

Lemma respects_EntityManager_Draw : respects (EntityManager_Draw vt).
Proof.
  unfold EntityManager_Draw. apply respects_bind; [apply respects_get|].
  intros w. apply respects_for_each. intros e.
  apply respects_bind; [apply respects_Entity_IsActive|]. intros isActive.
  apply respects_bind; [|intros _; apply respects_check_entities].
  destruct isActive; [apply respects_Entity_Draw | apply respects_ret].
Qed.

(** What a normal return of [AddComponent] tells about the call. *)
Lemma Entity_AddComponent_inv T e w c w1 :
  Entity_AddComponent vt T e w = Ok (c, w1) ->
  exists ent id r wi,
    entityHeap w !! e = Some ent
    /\ GetComponentTypeID T (registry w) = (id, r)
    /\ id < maxComponents
    /\ N.testbit (componentBitset ent) id = false
    /\ (N.to_nat id < length (componentArray ent))%nat
    /\ c = nextComponent w
    /\ vInitialize vt T c (attached T e ent id r w) = Ok (tt, wi)
    /\ w1 = set_trace (trace w ++ [EvInitialize c]) wi.
Proof.
  intros H. pose proof H as H'. unfold Entity_AddComponent in H'.
  apply bind_inv in H' as (has & w0 & Hhas & H').
  apply Entity_HasComponent_inv in Hhas as (ent & id & r & He & Hid & Hlt & -> & ->).
  apply bind_inv in H' as ([] & w0' & Hassert & _).
  unfold assert_ in Hassert.
  destruct (N.testbit (componentBitset ent) id) eqn:Hbit; [discriminate|].
  rewrite (Entity_AddComponent_run vt T e ent w id r He Hid Hlt Hbit) in H.
  case_decide as Hlen; [|discriminate].
  rewrite virtual_Initialize_attached in H.
  destruct (vInitialize vt T (nextComponent w) _) as [[[] wi]| |] eqn:Hinit;
    try discriminate.
  injection H as <- <-. exists ent, id, r, wi. done.
Qed.

Lemma respects_Entity_AddComponent T e : respects (Entity_AddComponent vt T e).
Proof.
  intros w c w1 Hok H.
  apply Entity_AddComponent_inv in H
    as (ent & id & r & wi & He & Hid & Hlt & Hbit & Hlen & -> & Hinit & ->).
  pose proof (attached_advances T e ent id r w Hok He Hid Hbit) as Hadv.
  eapply advances_trans; [exact Hadv|].
  apply advances_set_trace.
  destruct hooks as (Hinitialize & _ & _).
  apply (Hinitialize _ _ _ _ _ (proj1 Hadv) Hinit).
Qed.

Lemma respects_Entity_GetComponent T e : respects (Entity_GetComponent T e).
Proof.
  unfold Entity_GetComponent.
  apply respects_bind; [apply respects_Entity_HasComponent|]. intros has.
  apply respects_bind; [apply respects_assert|]. intros _.
  apply respects_bind; [apply respects_typeIdOf|]. intros id.
  apply respects_bind; [apply respects_deref|]. intros ent.
  destruct (componentArray ent !! N.to_nat id) as [[ptr|]|];
    [apply respects_ret | apply respects_undefined | apply respects_undefined].
Qed.

Lemma respects_then_ret {A} (m : M A) : respects m -> respects (m ;; ret tt).
Proof. intros H. apply respects_bind; [exact H|]. intros _. apply respects_ret. Qed.

Lemma respects_run_call c : respects (run_call vt c).
Proof.
  destruct c; cbn [run_call]; try apply respects_then_ret.
  - apply respects_typeIdOf.
  - apply respects_Entity_Update.
  - apply respects_Entity_Draw.
  - apply respects_Entity_IsAlive.
  - apply respects_Entity_Destroy.
  - apply respects_Entity_IsActive.
  - apply respects_Entity_Enable.
  - apply respects_Entity_Disable.
  - apply respects_Entity_HasComponent.
  - apply respects_Entity_HasGroup.
  - apply respects_Entity_AddGroup.
  - apply respects_Entity_DelGroup.
  - apply respects_Entity_AddComponent.
  - apply respects_Entity_GetComponent.
  - apply respects_EntityManager_Update.
  - apply respects_EntityManager_Draw.
  - apply respects_EntityManager_AddToGroup.
  - apply respects_bucket.
  - apply respects_Refresh.
  - apply respects_AddEntity.
Qed.

Lemma respects_run_calls cs : respects (run_calls vt cs).
Proof. apply respects_for_each, respects_run_call. Qed.
End Interface.

(** In a later state in which the entity is still there, a component
    attached earlier is found, under the same ID, in the same slot. *)
Lemma attached_component_found T e id c ent0 w0 w :
  world_ok w0 ->
  entityHeap w0 !! e = Some ent0 ->
  typeID (registry w0) !! T = Some id ->
  id < maxComponents ->
  N.testbit (componentBitset ent0) id = true ->
  componentArray ent0 !! N.to_nat id = Some (Some c) ->
  evolves w0 w ->
  allocated (entityHeap w) e ->
  Entity_HasComponent T e w = Ok (true, w)
  /\ Entity_GetComponent T e w = Ok (c, w).
Proof.
  intros Hok0 He0 Hreg0 Hlt Hbit0 Hslot0 Hev [ent He].
  destruct (Hok0 e ent0 He0) as [Hlt0 _].
  destruct (ev_tables _ _ Hev e ent Hlt0 He) as (ent0' & He0' & Hx).
  assert (ent0' = ent0) as -> by congruence.
  destruct (Hx id Hbit0) as [Hbit Hslot]. rewrite Hslot0 in Hslot.
  pose proof (lookup_weaken _ _ _ _ Hreg0 (ev_registry _ _ Hev)) as Hreg.
  assert (Hhas : Entity_HasComponent T e w = Ok (true, w)).
  { unfold Entity_HasComponent.
    rewrite (bind_run _ _ _ _ _ (typeIdOf_known _ _ _ Hreg)).
    rewrite (bind_run _ _ _ _ _ (deref_run _ _ _ He)).
    unfold bitset_get. apply N.ltb_lt in Hlt. rewrite Hlt, Hbit. reflexivity. }
  split; [exact Hhas|].
  unfold Entity_GetComponent. rewrite (bind_run _ _ _ _ _ Hhas).
  unfold assert_ at 1. unfold bind at 1.
  rewrite (bind_run _ _ _ _ _ (typeIdOf_known _ _ _ Hreg)).
  rewrite (bind_run _ _ _ _ _ (deref_run _ _ _ He)).
  rewrite Hslot. reflexivity.
Qed.

(** After [AddComponent] the component stays attached. *)
Lemma Entity_AddComponent_persists vt T e w r w1 :
  hooks_respect_interface vt ->
  world_ok w ->
  Entity_AddComponent vt T e w = Ok (r, w1) ->
  forall calls w2,
    run_calls vt calls w1 = Ok (tt, w2) ->
    allocated (entityHeap w2) e ->
    Entity_HasComponent T e w2 = Ok (true, w2)
    /\ Entity_GetComponent T e w2 = Ok (r, w2).
Proof.
  intros Hhooks Hok Hadd calls w2 Hcalls Halloc.
  pose proof (respects_Entity_AddComponent vt Hhooks T e w r w1 Hok Hadd) as Hadv1.
  apply Entity_AddComponent_inv in Hadd
    as (ent & id & rg & wi & He & Hid & Hlt & Hbit & Hlen & -> & Hinit & ->).
  pose proof (attached_advances T e ent id rg w Hok He Hid Hbit) as [Hokp Hevp].
  set (c := nextComponent w) in *.
  set (wp := attached T e ent id rg w) in *.
  assert (Hadvi : advances wp (set_trace (trace w ++ [EvInitialize c]) wi)).
  { apply advances_set_trace. destruct Hhooks as (Hinitialize & _ & _).
    apply (Hinitialize _ _ _ _ _ Hokp Hinit). }
  pose proof (respects_run_calls vt Hhooks calls _ _ _ (proj1 Hadvi) Hcalls) as Hadv2.
  apply (attached_component_found T e id c (attach id c ent) wp w2); try assumption.
  - apply lookup_insert_eq.
  - apply (GetComponentTypeID_registered _ _ _ _ Hid).
  - unfold attach. cbn [componentBitset with_componentBitset]. apply N.setbit_eq.
  - unfold attach. cbn [componentArray with_componentBitset with_componentArray].
    apply list_lookup_insert_eq. exact Hlen.
  - eapply evolves_trans; [apply Hadvi | apply Hadv2].
Qed.

(** C2: let the hooks of the application use the framework through its
    public interface only, and let [e.AddComponent<T>()] return the component
    [r]. Then no component of type [T] was attached before the call
    ([HasComponent<T>()] was false), and after any further calls of the public
    interface that return and leave [e] allocated (none at all, to begin
    with), [e.HasComponent<T>()] is true and [e.GetComponent<T>()] returns
    [r]. *)
Theorem AddComponent_then_GetComponent
    (vt : VTable) (T : TypeKey) (e : EntityPtr) (r : CompPtr) (w w1 : World) :
  hooks_respect_interface vt ->
  world_ok w ->
  Entity_AddComponent vt T e w = Ok (r, w1) ->
  (exists w0, Entity_HasComponent T e w = Ok (false, w0))
  /\ forall calls w2,
       run_calls vt calls w1 = Ok (tt, w2) ->
       allocated (entityHeap w2) e ->
       Entity_HasComponent T e w2 = Ok (true, w2)
       /\ Entity_GetComponent T e w2 = Ok (r, w2).
Proof.
  intros Hhooks Hok Hadd. split.
  - unfold Entity_AddComponent in Hadd.
    apply bind_inv in Hadd as (has & w0 & Hhas & Hadd).
    apply bind_inv in Hadd as ([] & w0' & Hassert & _).
    unfold assert_ in Hassert. destruct has; [discriminate|]. eauto.
  - apply (Entity_AddComponent_persists vt T e w r w1); assumption.
Qed.

Lemma respects_owner c : respects (owner c).
Proof.
  intros w a w' Hok H. unfold owner in H.
  destruct (componentHeap w !! c) as [[[e|] ?]|]; try discriminate.
  injection H as <- <-. by apply advances_refl.
Qed.

Lemma Component_vtable_respects_interface :
  hooks_respect_interface Component_vtable.
Proof. split_and!; intros; apply respects_ret. Qed.

Lemma respects_vector_at {A} (v : list A) i : respects (vector_at v i).
Proof.
  unfold vector_at. case_decide; [|apply respects_undefined].
  destruct (v !! Z.to_nat i); [apply respects_ret | apply respects_undefined].
Qed.

Lemma respects_int_incr i : respects (int_incr i).
Proof.
  unfold int_incr. case_decide; [apply respects_ret | apply respects_undefined].
Qed.

Lemma respects_UseShipWeapon (group : Group) (i : Z) :
  respects
    (let! bulletList := EntityManager_GetEntitiesByGroup group in
     let! bullet := vector_at bulletList i in
     Entity_GetComponent "Transform" bullet ;;
     let! bullet := vector_at bulletList i in
     Entity_Enable bullet ;;
     int_incr i).
Proof.
  apply respects_bind; [apply respects_bucket|]. intros l.
  apply respects_bind; [apply respects_vector_at|]. intros b.
  apply respects_bind; [apply respects_Entity_GetComponent|]. intros _.
  apply respects_bind; [apply respects_vector_at|]. intros b'.
  apply respects_bind; [apply respects_Entity_Enable|]. intros _.
  apply respects_int_incr.
Qed.

Lemma respects_UsePlayerShipWeapon i : respects (UsePlayerShipWeapon i).
Proof. apply respects_UseShipWeapon. Qed.

Lemma respects_UseEnemyShipWeapon i : respects (UseEnemyShipWeapon i).
Proof. apply respects_UseShipWeapon. Qed.

(** The framework does not look at the state of the application. *)
Lemma advances_application a w : world_ok w -> advances w (set_application a w).
Proof.
  intros Hok. split; [exact Hok|]. split; cbn; [reflexivity | lia |].
  intros p ent' _ He. exists ent'. split; [exact He | apply table_extends_refl].
Qed.

Lemma respects_PlayerController_this c : respects (PlayerController_this c).
Proof. intros w a w' Hok [= <- <-]. by apply advances_refl. Qed.

Lemma respects_PlayerController_assign c this :
  respects (PlayerController_assign c this).
Proof. intros w a w' Hok [= <- <-]. by apply advances_application. Qed.

Lemma respects_WeaponAIController_this c : respects (WeaponAIController_this c).
Proof. intros w a w' Hok [= <- <-]. by apply advances_refl. Qed.

Lemma respects_WeaponAIController_assign c this :
  respects (WeaponAIController_assign c this).
Proof. intros w a w' Hok [= <- <-]. by apply advances_application. Qed.

Lemma respects_rndEngine_call : respects rndEngine_call.
Proof. intros w a w' Hok [= <- <-]. by apply advances_application. Qed.

Lemma respects_GetNextFireTimePoint c : respects (GetNextFireTimePoint c).
Proof.
  apply respects_bind; [apply respects_rndEngine_call|]. intros x.
  apply respects_bind; [apply respects_WeaponAIController_this|]. intros this.
  apply respects_WeaponAIController_assign.
Qed.

Lemma respects_PlayerController_Update Space c frameTime :
  respects (PlayerController_Update Space c frameTime).
Proof.
  apply respects_bind; [apply respects_PlayerController_this|]. intros this.
  apply respects_bind; [apply respects_PlayerController_assign|]. intros _.
  apply respects_bind; [apply respects_get|]. intros w.
  destruct (Space (trace w)); [|apply respects_ret].
  destruct (float_gt _ _); [|apply respects_ret].
  apply respects_bind; [apply respects_UsePlayerShipWeapon|]. intros i.
  apply respects_PlayerController_assign.
Qed.

Lemma respects_WeaponAIController_Update c frameTime :
  respects (WeaponAIController_Update c frameTime).
Proof.
  apply respects_bind; [apply respects_WeaponAIController_this|]. intros this.
  apply respects_bind; [apply respects_WeaponAIController_assign|]. intros _.
  destruct (float_gt _ _); [|apply respects_ret].
  apply respects_bind; [apply respects_UseEnemyShipWeapon|]. intros i.
  apply respects_bind; [apply respects_WeaponAIController_assign|]. intros _.
  apply respects_bind; [apply respects_GetNextFireTimePoint|]. intros _.
  apply respects_bind; [apply respects_WeaponAIController_this|]. intros this'.
  apply respects_WeaponAIController_assign.
Qed.

Lemma game_vtable_respects_interface Space :
  hooks_respect_interface (game_vtable Space).
Proof.
  split_and!.
  - intros T c. cbn [game_vtable vInitialize].
    repeat case_decide; try apply respects_ret.
    + apply respects_bind; [apply respects_owner|]. intros e.
      apply respects_bind; [apply respects_Entity_GetComponent|]. intros _.
      apply respects_GetNextFireTimePoint.
    + apply respects_bind; [apply respects_owner|]. intros e.
      apply respects_bind; [apply respects_Entity_GetComponent|]. intros _.
      apply respects_ret.
    + apply respects_bind; [apply respects_owner|]. intros e.
      apply respects_bind; [apply respects_Entity_GetComponent|]. intros _.
      apply respects_bind; [apply respects_Entity_GetComponent|]. intros _.
      apply respects_ret.
  - intros T c frameTime. cbn [game_vtable vUpdate].
    case_decide; [|case_decide; [|apply respects_ret]].
    + apply respects_PlayerController_Update.
    + apply respects_WeaponAIController_Update.
  - intros T c. apply respects_ret.
Qed.

Lemma AddComponent_then_GetComponent_witness :
  let r := 10%nat in
  let w1 := default World_init
              (world_after (Entity_AddComponent (game_vtable Space_held) "WeaponAIController"
                              1%nat game_world)) in
  let calls := [CallEnable 1%nat; CallAddComponent "Shield" 1%nat;
                CallUpdate S754_nan; CallRefresh; CallDraw]%string in
  let w2 := default World_init (world_after (run_calls (game_vtable Space_held) calls w1)) in
  Entity_AddComponent (game_vtable Space_held) "WeaponAIController" 1%nat game_world = Ok (r, w1)
  /\ run_calls (game_vtable Space_held) calls w1 = Ok (tt, w2)
  /\ Entity_HasComponent "WeaponAIController" 1%nat w2 = Ok (true, w2)
  /\ Entity_GetComponent "WeaponAIController" 1%nat w2 = Ok (r, w2).
Proof.
  intros r w1 calls w2.
  assert (Hadd : Entity_AddComponent (game_vtable Space_held) "WeaponAIController" 1%nat game_world
                 = Ok (r, w1)) by (vm_compute; reflexivity).
  assert (Hcalls : run_calls (game_vtable Space_held) calls w1 = Ok (tt, w2))
    by (vm_compute; reflexivity).
  split; [exact Hadd|]. split; [exact Hcalls|].
  destruct (AddComponent_then_GetComponent (game_vtable Space_held) "WeaponAIController" 1%nat r
              game_world w1 (game_vtable_respects_interface Space_held)
              ltac:(apply (bool_decide_unpack _); vm_compute; exact I)
              Hadd) as [_ Hlater].
  apply (Hlater calls w2 Hcalls).
  apply (bool_decide_unpack _). vm_compute. exact I.
Defined.

(** C8: [AddComponent<T>()] on an entity that has a component of type [T]
    stops at its assertion, reached with the entities and components as they
    were before the call: nothing is allocated or stored. On a well-formed
    entity that has none the assertion holds: the component is attached and
    [Initialize] is called on it, and the call ends as [Initialize] does; it
    returns when [Initialize] is the empty hook of the base class. A second
    [AddComponent<T>()] after a first one that returned stops at the
    assertion, whatever calls of the public interface came in between, as long
    as the entity is still there. *)
Theorem AddComponent_twice_asserts
    (vt : VTable) (T : TypeKey) (e : EntityPtr) (w : World) :
  (forall w', Entity_HasComponent T e w = Ok (true, w') ->
              Entity_AddComponent vt T e w = AssertFail
              /\ assert_ (negb true) w' = AssertFail
              /\ entityHeap w' = entityHeap w
              /\ componentHeap w' = componentHeap w)
  /\ (forall w', Entity_HasComponent T e w = Ok (false, w') -> world_ok w ->
      exists c wp,
        Entity_AddComponent vt T e w =
          match vInitialize vt T c wp with
          | Ok (_, wi) => Ok (c, set_trace (trace w ++ [EvInitialize c]) wi)
          | AssertFail => AssertFail
          | Undefined => Undefined
          end
        /\ Entity_HasComponent T e wp = Ok (true, wp)
        /\ Entity_GetComponent T e wp = Ok (c, wp)
        /\ (vInitialize vt T c = ret tt ->
            Entity_AddComponent vt T e w
            = Ok (c, set_trace (trace w ++ [EvInitialize c]) wp)))
  /\ (hooks_respect_interface vt -> world_ok w ->
      forall c w1 calls w2,
        Entity_AddComponent vt T e w = Ok (c, w1) ->
        run_calls vt calls w1 = Ok (tt, w2) ->
        allocated (entityHeap w2) e ->
        Entity_AddComponent vt T e w2 = AssertFail).
Proof.
  assert (Htrap : forall w0 w', Entity_HasComponent T e w0 = Ok (true, w') ->
                                Entity_AddComponent vt T e w0 = AssertFail).
  { intros w0 w' Hhas. unfold Entity_AddComponent.
    rewrite (bind_run _ _ _ _ _ Hhas). reflexivity. }
  split_and!.
  - intros w' Hhas. split; [apply (Htrap w w' Hhas)|].
    apply Entity_HasComponent_inv in Hhas as (ent & id & r & _ & _ & _ & _ & ->).
    done.
  - intros w' Hhas Hok.
    apply Entity_HasComponent_inv in Hhas as (ent & id & r & He & Hid & Hlt & Hbit & _).
    symmetry in Hbit. destruct (Hok e ent He) as [_ Hlen].
    assert (Hidx : (N.to_nat id < length (componentArray ent))%nat)
      by (unfold maxComponents in *; lia).
    pose proof (attached_advances T e ent id r w Hok He Hid Hbit) as [Hokp _].
    exists (nextComponent w), (attached T e ent id r w).
    assert (Hrun : Entity_AddComponent vt T e w =
                   match vInitialize vt T (nextComponent w) (attached T e ent id r w) with
                   | Ok (_, wi) =>
                       Ok (nextComponent w,
                           set_trace (trace w ++ [EvInitialize (nextComponent w)]) wi)
                   | AssertFail => AssertFail
                   | Undefined => Undefined
                   end).
    { rewrite (Entity_AddComponent_run vt T e ent w id r He Hid Hlt Hbit).
      rewrite decide_True by exact Hidx. apply virtual_Initialize_attached. }
    destruct (attached_component_found T e id (nextComponent w)
                (attach id (nextComponent w) ent)
                (attached T e ent id r w) (attached T e ent id r w))
      as [Hhas' Hget']; try assumption.
    + apply lookup_insert_eq.
    + apply (GetComponentTypeID_registered _ _ _ _ Hid).
    + unfold attach. cbn [componentBitset with_componentBitset]. apply N.setbit_eq.
    + unfold attach. cbn [componentArray with_componentBitset with_componentArray].
      apply list_lookup_insert_eq. exact Hidx.
    + apply evolves_refl.
    + unfold allocated. cbn [attached entityHeap]. rewrite lookup_insert_eq. eauto.
    + split_and!; try assumption.
      intros Hempty. rewrite Hrun, Hempty. reflexivity.
  - intros Hhooks Hok c w1 calls w2 Hadd Hcalls Halloc.
    destruct (Entity_AddComponent_persists vt T e w c w1 Hhooks Hok Hadd
                calls w2 Hcalls Halloc) as [Hhas2 _].
    apply (Htrap w2 w2 Hhas2).
Qed.

Lemma AddComponent_twice_asserts_witness :
  let w1 := default World_init
              (world_after (Entity_AddComponent (game_vtable Space_held) "WeaponAIController"
                              0%nat game_world)) in
  let calls := [CallAddEntity; CallDisable 0%nat; CallUpdate S754_nan; CallRefresh] in
  let w2 := default World_init (world_after (run_calls (game_vtable Space_held) calls w1)) in
  Entity_AddComponent (game_vtable Space_held) "Transform" 0%nat game_world = AssertFail
  /\ Entity_AddComponent (game_vtable Space_held) "WeaponAIController" 0%nat game_world
     = Ok (10%nat, w1)
  /\ run_calls (game_vtable Space_held) calls w1 = Ok (tt, w2)
  /\ Entity_AddComponent (game_vtable Space_held) "WeaponAIController" 0%nat w2 = AssertFail.
Proof.
  intros w1 calls w2.
  destruct (AddComponent_twice_asserts (game_vtable Space_held) "Transform" 0%nat game_world)
    as (Htrap & _ & _).
  destruct (AddComponent_twice_asserts (game_vtable Space_held) "WeaponAIController" 0%nat
              game_world) as (_ & _ & Hsecond).
  assert (Hadd : Entity_AddComponent (game_vtable Space_held) "WeaponAIController" 0%nat game_world
                 = Ok (10%nat, w1)) by (vm_compute; reflexivity).
  assert (Hcalls : run_calls (game_vtable Space_held) calls w1 = Ok (tt, w2))
    by (vm_compute; reflexivity).
  split_and!.
  - eapply Htrap. vm_compute. reflexivity.
  - exact Hadd.
  - exact Hcalls.
  - apply (Hsecond (game_vtable_respects_interface Space_held)
             ltac:(apply (bool_decide_unpack _); vm_compute; exact I)
             10%nat w1 calls w2 Hadd Hcalls).
    apply (bool_decide_unpack _). vm_compute. exact I.
Defined.

(** [Physics::Initialize] fetches the [Transform]: attaching [Physics] to an
    entity without one passes the assertion of [AddComponent] and fails the
    one of [GetComponent]. *)
Example AddComponent_Physics_without_Transform :
  (let! e := EntityManager_AddEntity in
   Entity_AddComponent (game_vtable Space_held) "Physics" e) game_world = AssertFail
  /\ (let! e := EntityManager_AddEntity in
      Entity_AddComponent Component_vtable "Physics" e ;; ret tt) game_world
     <> AssertFail.
Proof. split; vm_compute; [reflexivity | discriminate]. Qed.

(** ** The update pass, stated *)

Lemma for_each_app_inv {A} (l1 l2 : list A) (body : A -> M unit) w w' :
  for_each (l1 ++ l2) body w = Ok (tt, w') ->
  exists w1, for_each l1 body w = Ok (tt, w1) /\ for_each l2 body w1 = Ok (tt, w').
Proof.
  revert w. induction l1 as [|x l1 IH]; intros w H; simpl in *.
  - exists w. split; [reflexivity | exact H].
  - apply bind_inv in H as ([] & wx & Hx & H).
    destruct (IH wx H) as (w1 & H1 & H2). exists w1. split; [|exact H2].
    rewrite (bind_run _ _ _ _ _ Hx). exact H1.
Qed.

Lemma virtual_call_trace ev hook c w w' :
  virtual_call ev hook c w = Ok (tt, w') -> trace w' = trace w ++ [ev].
Proof.
  unfold virtual_call. destruct (componentHeap w !! c) as [comp|]; [|discriminate].
  destruct (hook (dynType comp) c w) as [[[] wi]| |]; try discriminate.
  intros [= <-]. reflexivity.
Qed.

Lemma check_components_inv this cs w w' :
  check_components this cs w = Ok (tt, w') -> w' = w.
Proof.
  unfold check_components, bind, deref.
  destruct (entityHeap w !! this) as [e|]; [|discriminate].
  case_decide; [|discriminate]. intros [= <-]. reflexivity.
Qed.

Lemma check_entities_inv es w w' :
  check_entities es w = Ok (tt, w') -> w' = w.
Proof.
  unfold check_entities, bind, get. case_decide; [|discriminate].
  intros [= <-]. reflexivity.
Qed.

Lemma Entity_Update_loop_trace vt this frameTime all : forall cs w w',
  for_each cs (fun c =>
    virtual_call (EvUpdate c frameTime) (fun T c => vUpdate vt T c frameTime) c ;;
    check_components this all) w = Ok (tt, w') ->
  trace w' = trace w ++ map (fun c => EvUpdate c frameTime) cs.
Proof.
  induction cs as [|c cs IH]; intros w w' H; cbn [for_each map] in *.
  - injection H as <-. by rewrite app_nil_r.
  - apply bind_inv in H as ([] & w1 & Hbody & H).
    apply bind_inv in Hbody as ([] & w0 & Hcall & Hchk).
    apply check_components_inv in Hchk as ->.
    apply virtual_call_trace in Hcall.
    rewrite (IH _ _ H), Hcall. by rewrite <- app_assoc.
Qed.

(** One visit of [Entity::Update] calls the hook of every component of the
    entity, in the order of the vector. *)
Lemma Entity_Update_trace vt this frameTime w w' ent :
  Entity_Update vt this frameTime w = Ok (tt, w') ->
  entityHeap w !! this = Some ent ->
  trace w' = trace w ++ map (fun c => EvUpdate c frameTime) (components ent).
Proof.
  intros H He. unfold Entity_Update in H.
  rewrite (bind_run _ _ _ _ _ (deref_run _ _ _ He)) in H.
  apply (Entity_Update_loop_trace _ _ _ _ _ _ _ H).
Qed.

(** What one turn of the loop of [EntityManager::Update] does when it
    completes. *)
Lemma Update_visit_trace vt frameTime es p w w' :
  Update_visit vt frameTime es p w = Ok (tt, w') ->
  exists ent,
    entityHeap w !! p = Some ent
    /\ trace w' =
         trace w ++
         (if active ent then map (fun c => EvUpdate c frameTime) (components ent)
          else []).
Proof.
  intros H. unfold Update_visit in H.
  apply bind_inv in H as (isActive & w0 & Hact & H).
  unfold Entity_IsActive in Hact.
  apply bind_inv in Hact as (ent & w0' & Hd & Hret).
  apply deref_inv in Hd as [-> He]. injection Hret as <- <-.
  apply bind_inv in H as ([] & w1 & Hupd & Hchk).
  apply check_entities_inv in Hchk as ->.
  exists ent. split; [exact He|].
  destruct (active ent).
  - apply (Entity_Update_trace _ _ _ _ _ _ Hupd He).
  - injection Hupd as <-. by rewrite app_nil_r.
Qed.

Lemma destroy_owner_keeps_structure c w :
  exists w', destroy_owner c w = Ok (tt, w') /\ same_structure w w'.
Proof.
  unfold destroy_owner.
  destruct (owner c w) as [[e w0]| |];
    try (exists w; split; [reflexivity | apply same_structure_refl]).
  destruct (Entity_Destroy e w) as [[[] w1]| |] eqn:Hd;
    try (exists w; split; [reflexivity | apply same_structure_refl]).
  exists w1. split; [reflexivity|].
  unfold Entity_Destroy in Hd. apply bind_inv in Hd as (ent & w2 & Hderef & Hs).
  apply deref_inv in Hderef as [-> He]. rewrite store_run in Hs.
  injection Hs as <-.
  split; cbn [poke set_entityHeap manager entityHeap componentHeap]; try done.
  intros q. rewrite lookup_insert. case_decide as Hq; [|reflexivity].
  subst q. rewrite He. reflexivity.
Qed.

Lemma demo_vtable_keeps_structure : update_hooks_keep_structure demo_vtable.
Proof.
  intros T c frameTime w. cbn [demo_vtable vUpdate].
  case_decide; [apply destroy_owner_keeps_structure|].
  exists w. split; [reflexivity | apply same_structure_refl].
Qed.

(** C6: a [Manager.Update(frameTime)] that returns has taken the entities
    of the collection in their order; when it reached an entity it read the
    [active] flag, and made the calls [c->Update(frameTime)] for the
    components [c] of the entity, in the order of its [components] vector, if
    the flag was set, and no call at all if it was not. When the hooks return
    and leave the flags and the containers alone, the pass returns, and the
    calls made are those of the entities whose flag is set when [Update] is
    called. Both orders are orders of insertion: [AddEntity] appends to the
    entity collection, and [AddComponent] has appended to [components] when it
    calls [Initialize]. *)
Theorem Update_visits_active_entities_in_order
    (vt : VTable) (frameTime : FrameTime) (w : World) :
  (forall w', EntityManager_Update vt frameTime w = Ok (tt, w') ->
     forall i p, entities (manager w) !! i = Some p ->
       exists wi ent wi',
         for_each (take i (entities (manager w)))
           (Update_visit vt frameTime (entities (manager w))) w = Ok (tt, wi)
         /\ entityHeap wi !! p = Some ent
         /\ Update_visit vt frameTime (entities (manager w)) p wi = Ok (tt, wi')
         /\ trace wi' =
              trace wi ++
              (if active ent
               then map (fun c => EvUpdate c frameTime) (components ent)
               else [])
         /\ for_each (drop (S i) (entities (manager w)))
              (Update_visit vt frameTime (entities (manager w))) wi' = Ok (tt, w'))
  /\ (update_hooks_keep_structure vt ->
      Forall (allocated (entityHeap w)) (entities (manager w)) ->
      components_ok w ->
      exists w',
        EntityManager_Update vt frameTime w = Ok (tt, w')
        /\ trace w' =
             trace w ++
             flat_map (fun p =>
                 match entityHeap w !! p with
                 | Some e =>
                     if active e
                     then map (fun c => EvUpdate c frameTime) (components e)
                     else []
                 | None => []
                 end) (entities (manager w)))
  /\ (exists p w1,
        EntityManager_AddEntity w = Ok (p, w1)
        /\ entities (manager w1) = entities (manager w) ++ [p])
  /\ (forall T e c w1,
        Entity_AddComponent vt T e w = Ok (c, w1) ->
        exists ent wp wi,
          entityHeap w !! e = Some ent
          /\ components <$> entityHeap wp !! e = Some (components ent ++ [c])
          /\ vInitialize vt T c wp = Ok (tt, wi)
          /\ w1 = set_trace (trace w ++ [EvInitialize c]) wi).
Proof.
  split_and!.
  - intros w' Hrun i p Hp.
    unfold EntityManager_Update, bind at 1, get in Hrun.
    rewrite <- (take_drop_middle _ _ _ Hp) in Hrun at 1.
    apply for_each_app_inv in Hrun as (wi & Hpre & Hrest).
    cbn [for_each] in Hrest. apply bind_inv in Hrest as ([] & wi' & Hvisit & Hpost).
    destruct (Update_visit_trace _ _ _ _ _ _ Hvisit) as (ent & He & Ht).
    exists wi, ent, wi'. done.
  - intros Hhooks Hes Hcok.
    destruct (EntityManager_Update_run vt frameTime Hhooks w Hes Hcok)
      as (w' & Hrun & _ & Ht).
    exists w'. split; [exact Hrun | exact Ht].
  - eexists _, _. split; reflexivity.
  - intros T e c w1 Hadd.
    apply Entity_AddComponent_inv in Hadd
      as (ent & id & r & wi & He & Hid & Hlt & Hbit & Hlen & -> & Hinit & ->).
    exists ent, (attached T e ent id r w), wi. split_and!; try done.
    cbn [attached entityHeap]. rewrite lookup_insert_eq. reflexivity.
Qed.

Lemma Update_visits_active_entities_in_order_witness :
  let frameTime := float_of_int 1 in
  (* the hooks of the game, the fire key down: the timer of the ship stands
     above [fireRate], it fires and enables bullet 1 during the pass *)
  (Entity_IsActive 1%nat game_world = Ok (false, game_world)
   /\ exists w' wi ent wi',
        EntityManager_Update (game_vtable Space_held) frameTime game_world = Ok (tt, w')
        /\ for_each [0%nat] (Update_visit (game_vtable Space_held) frameTime [0; 1; 2]%nat)
             game_world = Ok (tt, wi)
        /\ entityHeap wi !! 1%nat = Some ent
        /\ active ent = true
        /\ Update_visit (game_vtable Space_held) frameTime [0; 1; 2]%nat 1%nat wi = Ok (tt, wi')
        /\ trace wi' =
             trace wi ++ map (fun c => EvUpdate c frameTime) [4; 5; 6]%nat)
  (* hooks that leave the flags alone *)
  /\ (active <$> entityHeap demo_world !! 2%nat = Some false
      /\ exists w',
           EntityManager_Update demo_vtable frameTime demo_world = Ok (tt, w')
           /\ trace w' =
                trace demo_world ++
                [EvUpdate 0%nat frameTime; EvUpdate 1%nat frameTime;
                 EvUpdate 2%nat frameTime]).
Proof.
  intros frameTime. split.
  - split; [vm_compute; reflexivity|].
    destruct (Update_visits_active_entities_in_order (game_vtable Space_held) frameTime game_world)
      as (Hvisit & _).
    set (w' := default World_init
                 (world_after (EntityManager_Update (game_vtable Space_held) frameTime game_world))).
    assert (Hrun : EntityManager_Update (game_vtable Space_held) frameTime game_world = Ok (tt, w'))
      by (vm_compute; reflexivity).
    destruct (Hvisit w' Hrun 1%nat 1%nat ltac:(vm_compute; reflexivity))
      as (wi & ent & wi' & Hpre & He & Hv & Ht & _).
    exists w', wi, ent, wi'.
    assert (Hpre' : for_each [0%nat] (Update_visit (game_vtable Space_held) frameTime [0; 1; 2]%nat)
                      game_world = Ok (tt, wi)) by exact Hpre.
    assert (Hent : active ent = true /\ components ent = [4; 5; 6]%nat).
    { vm_compute in Hpre. injection Hpre as <-.
      vm_compute in He. injection He as <-. split; reflexivity. }
    destruct Hent as [Hact Hcs]. rewrite Hact, Hcs in Ht.
    split_and!; try assumption.
  - split; [vm_compute; reflexivity|].
    destruct (Update_visits_active_entities_in_order demo_vtable frameTime demo_world)
      as (_ & Hstatic & _).
    destruct Hstatic as (w' & Hrun & Ht).
    + exact demo_vtable_keeps_structure.
    + apply (bool_decide_unpack _). vm_compute. exact I.
    + apply (bool_decide_unpack _). vm_compute. exact I.
    + exists w'. split; [exact Hrun|]. rewrite Ht. f_equal.
Defined.

(** That pass as a whole: bullet 1, inactive when [Update] is
    called, is enabled by the ship and updated in the same pass; bullet 2 is
    skipped. *)
Example game_world_Update :
  let frameTime := float_of_int 1 in
  (fun w => drop (length (trace game_world)) (trace w))
    <$> world_after (EntityManager_Update (game_vtable Space_held) frameTime game_world)
  = Some (map (fun c => EvUpdate c frameTime) [0; 1; 2; 3; 4; 5; 6]%nat).
Proof. vm_compute. reflexivity. Qed.

(** ** The scenarios of the specification, run *)

(** An entity with components A and B has A and B and not C; destroyed and
    refreshed once, the manager owns one entity less. *)
Example scenario_components_then_destroy :
  let setup := [CallAddEntity; CallAddEntity;
                CallAddComponent "A" 1%nat; CallAddComponent "B" 1%nat]%string in
  let w := default World_init
             (world_after (run_calls Component_vtable setup World_init)) in
  let w' := default World_init
              (world_after ((Entity_Destroy 1%nat ;; EntityManager_Refresh) w)) in
  value_after (Entity_HasComponent "A" 1%nat w) = Some true
  /\ value_after (Entity_HasComponent "B" 1%nat w) = Some true
  /\ value_after (Entity_HasComponent "C" 1%nat w) = Some false
  /\ entities (manager w) = [0; 1]%nat
  /\ entities (manager w') = [0%nat].
Proof. vm_compute. done. Qed.

(** Three entities, the first and the third in group 7: the bucket holds
    exactly these two, in that order. *)
Example scenario_group_of_two :
  let setup := [CallAddEntity; CallAddEntity; CallAddEntity;
                CallAddGroup 0%nat 7; CallAddGroup 2%nat 7] in
  value_after
    ((run_calls Component_vtable setup ;; EntityManager_GetEntitiesByGroup 7)
       World_init)
  = Some [0; 2]%nat.
Proof. vm_compute. reflexivity. Qed.

(** A disabled entity gets no [Update] call; enabled again, it does. *)
Example scenario_inactive_is_skipped :
  let frameTime := float_of_int 1 in
  let setup := [CallAddEntity; CallAddComponent "Counter" 0%nat;
                CallDisable 0%nat; CallUpdate frameTime; CallUpdate frameTime;
                CallEnable 0%nat; CallUpdate frameTime]%string in
  trace <$> world_after (run_calls Component_vtable setup World_init)
  = Some [EvInitialize 0%nat; EvUpdate 0%nat frameTime].
Proof. vm_compute. reflexivity. Qed.

(** Disabled, then destroyed, then refreshed: the entity is gone. *)
Example scenario_disable_destroy_refresh :
  let setup := [CallAddEntity; CallAddEntity; CallAddGroup 1%nat 0;
                CallDisable 1%nat; CallDestroy 1%nat; CallRefresh] in
  (fun w => (entities (manager w), groupedEntities (manager w) !! 0%nat,
             entityHeap w !! 1%nat))
    <$> world_after (run_calls Component_vtable setup World_init)
  = Some ([0%nat], Some [], None).
Proof. vm_compute. reflexivity. Qed.

(** * Further properties of the framework *)

(** ** Limits: component types and groups *)

(** X1: the bitset and the array of an entity have 32 places and are indexed
    without a check. Once 32 component types are in use, the ID of any further
    type is 32 or more, and [HasComponent], [AddComponent] and [GetComponent]
    for it are undefined behaviour on every entity. *)
Theorem component_capacity_exceeded
    (vt : VTable) (T : TypeKey) (e : EntityPtr) (w : World) :
  registry_inv (registry w) ->
  typeID (registry w) !! T = None ->
  maxComponents <= N.of_nat (size (typeID (registry w))) ->
  N.of_nat (size (typeID (registry w))) < size_t_modulus ->
  (GetComponentTypeID T (registry w)).1 = N.of_nat (size (typeID (registry w)))
  /\ Entity_HasComponent T e w = Undefined
  /\ Entity_AddComponent vt T e w = Undefined
  /\ Entity_GetComponent T e w = Undefined.
Proof.
  intros Hinv Hnew Hfull Hroom.
  destruct (GetComponentTypeID_inv T (registry w) Hinv (or_intror Hroom))
    as (_ & _ & _ & _ & Hid).
  specialize (Hid Hnew).
  assert (Hhas : Entity_HasComponent T e w = Undefined).
  { unfold Entity_HasComponent, bind, typeIdOf, deref, bitset_get, undefined.
    destruct (GetComponentTypeID T (registry w)) as [id r]. simpl in *. subst id.
    destruct (entityHeap w !! e); [|reflexivity].
    replace (N.of_nat (size (typeID (registry w))) <? maxComponents) with false;
      [reflexivity|]. symmetry. apply N.ltb_ge. exact Hfull. }
  split_and!; try assumption.
  - unfold Entity_AddComponent, bind. rewrite Hhas. reflexivity.
  - unfold Entity_GetComponent, bind. rewrite Hhas. reflexivity.
Qed.

Lemma crowded_world_registry :
  registry crowded_world = (type_id_calls many_types registry_init).2.
Proof. vm_compute. reflexivity. Qed.

Lemma component_capacity_exceeded_witness :
  (GetComponentTypeID "Transform" (registry crowded_world)).1 = 32
  /\ Entity_HasComponent "Transform" 0%nat crowded_world = Undefined
  /\ Entity_AddComponent (game_vtable Space_held) "Transform" 0%nat crowded_world = Undefined
  /\ Entity_GetComponent "Transform" 0%nat crowded_world = Undefined.
Proof.
  apply (component_capacity_exceeded (game_vtable Space_held) "Transform" 0%nat crowded_world).
  - rewrite crowded_world_registry.
    assert (Hroom : N.of_nat (size (dom (typeID registry_init)
                                      ∪ list_to_set many_types)) <= size_t_modulus)
      by (vm_compute; discriminate).
    exact (proj1 (type_id_calls_spec many_types registry_init registry_init_inv Hroom)).
  - vm_compute. reflexivity.
  - vm_compute. discriminate.
  - vm_compute. reflexivity.
Defined.

(** X2: a group is a [std::size_t] and indexes a bitset and an array of 32
    places without a check. For a group of 32 or more, each of [HasGroup],
    [AddGroup], [DelGroup], [AddToGroup] and [GetEntitiesByGroup] is undefined
    behaviour, on every entity. *)
Theorem group_out_of_range (e : EntityPtr) (g : Group) (w : World) :
  length (groupedEntities (manager w)) = N.to_nat maxGroups ->
  maxGroups <= g ->
  Entity_HasGroup e g w = Undefined
  /\ Entity_AddGroup e g w = Undefined
  /\ Entity_DelGroup e g w = Undefined
  /\ EntityManager_AddToGroup e g w = Undefined
  /\ EntityManager_GetEntitiesByGroup g w = Undefined.
Proof.
  intros Hlen Hg.
  assert (Hb : (g <? maxGroups) = false) by (apply N.ltb_ge; exact Hg).
  assert (Hnone : groupedEntities (manager w) !! N.to_nat g = None).
  { apply lookup_ge_None_2. rewrite Hlen. lia. }
  split_and!.
  - unfold Entity_HasGroup, bind, deref, bitset_get, undefined.
    destruct (entityHeap w !! e); [rewrite Hb|]; reflexivity.
  - unfold Entity_AddGroup, bind, deref, bitset_set, undefined.
    destruct (entityHeap w !! e); [rewrite Hb|]; reflexivity.
  - unfold Entity_DelGroup, bind, deref, bitset_set, undefined.
    destruct (entityHeap w !! e); [rewrite Hb|]; reflexivity.
  - unfold EntityManager_AddToGroup, bucket, bind, get, undefined.
    rewrite Hnone. reflexivity.
  - unfold EntityManager_GetEntitiesByGroup, bucket, bind, get, undefined.
    rewrite Hnone. reflexivity.
Qed.

Lemma group_out_of_range_witness :
  Entity_HasGroup 0%nat 32 demo_world = Undefined
  /\ Entity_AddGroup 0%nat 32 demo_world = Undefined
  /\ Entity_DelGroup 0%nat 32 demo_world = Undefined
  /\ EntityManager_AddToGroup 0%nat 32 demo_world = Undefined
  /\ EntityManager_GetEntitiesByGroup 32 demo_world = Undefined.
Proof.
  apply (group_out_of_range 0%nat 32 demo_world).
  - vm_compute. reflexivity.
  - vm_compute. discriminate.
Defined.

(** ** Fresh entities *)

(** X3: on a well-formed world [AddEntity] returns an entity that was not
    allocated before and is in no container of the manager; it appends it to
    the entity collection and leaves the buckets and all other entities as
    they are. The new entity is alive and active, owns no component, has no
    component of any type and is in no group; the world stays well formed. *)
Theorem AddEntity_fresh (w : World) :
  world_ok w -> manager_ok w ->
  exists p w1,
    EntityManager_AddEntity w = Ok (p, w1)
    /\ ~ allocated (entityHeap w) p
    /\ (p ∉ entities (manager w))
    /\ (forall v, v ∈ groupedEntities (manager w) -> p ∉ v)
    /\ entities (manager w1) = entities (manager w) ++ [p]
    /\ groupedEntities (manager w1) = groupedEntities (manager w)
    /\ (forall q, q <> p -> entityHeap w1 !! q = entityHeap w !! q)
    /\ Entity_IsAlive p w1 = Ok (true, w1)
    /\ Entity_IsActive p w1 = Ok (true, w1)
    /\ (components <$> entityHeap w1 !! p) = Some []
    /\ (forall T w', Entity_HasComponent T p w1 <> Ok (true, w'))
    /\ (forall g, g < maxGroups -> Entity_HasGroup p g w1 = Ok (false, w1))
    /\ world_ok w1 /\ manager_ok w1.
Proof.
  intros Hwok Hmok.
  assert (Hfresh : ~ allocated (entityHeap w) (nextEntity w)).
  { intros [ent He]. destruct (Hwok _ _ He) as [Hlt _]. lia. }
  set (p := nextEntity w).
  set (w1 := set_manager (with_entities (entities (manager w) ++ [p]) (manager w))
               (set_nextEntity (S p)
                  (set_entityHeap (<[p := Entity_new]> (entityHeap w)) w))).
  assert (Hp : entityHeap w1 !! p = Some Entity_new) by apply lookup_insert_eq.
  assert (Hnotin : p ∉ entities (manager w)).
  { intros Hin. apply Hfresh.
    pose proof (mo_entities _ Hmok) as Hall.
    rewrite list.Forall_forall in Hall. apply Hall, Hin. }
  exists p, w1. split_and!; try reflexivity; try assumption.
  - intros v Hv Hin. apply Hfresh.
    pose proof (mo_grouped _ Hmok) as Hall.
    rewrite list.Forall_forall in Hall. specialize (Hall v Hv).
    rewrite list.Forall_forall in Hall. apply Hall, Hin.
  - intros q Hq. subst w1. cbn. rewrite lookup_insert_ne by done. reflexivity.
  - apply (Entity_IsAlive_run p Entity_new w1 Hp).
  - apply (Entity_IsActive_run p Entity_new w1 Hp).
  - rewrite Hp. reflexivity.
  - intros T w' Hhas.
    apply Entity_HasComponent_inv in Hhas as (ent & id & r & He & _ & _ & Hbit & _).
    rewrite Hp in He. injection He as <-.
    change (componentBitset Entity_new) with 0 in Hbit.
    rewrite N.bits_0 in Hbit. discriminate.
  - intros g Hg. rewrite (Entity_HasGroup_run p Entity_new g w1 Hp Hg).
    change (groupBitset Entity_new) with 0. rewrite N.bits_0. reflexivity.
  - apply (proj1 (respects_AddEntity w p w1 Hwok eq_refl)).
  - destruct Hmok as [Hlen Hnd Hent Hgrp]. split; subst w1; cbn.
    + exact Hlen.
    + apply list.NoDup_app. split_and!; [exact Hnd | | apply list.NoDup_singleton].
      intros x Hx Hx'. apply list_elem_of_singleton in Hx'. subst x. contradiction.
    + apply Forall_app. split.
      * eapply list.Forall_impl; [exact Hent|]. intros q. apply allocated_insert.
      * apply Forall_singleton. unfold allocated. rewrite lookup_insert_eq. eauto.
    + eapply list.Forall_impl; [exact Hgrp|]. intros v Hv.
      eapply list.Forall_impl; [exact Hv|]. intros q. apply allocated_insert.
Qed.

Lemma AddEntity_fresh_witness :
  exists p w1,
    EntityManager_AddEntity demo_world = Ok (p, w1)
    /\ p = 3%nat
    /\ entities (manager w1) = [0; 1; 2; 3]%nat
    /\ Entity_IsAlive p w1 = Ok (true, w1)
    /\ Entity_IsActive p w1 = Ok (true, w1)
    /\ manager_ok w1.
Proof.
  destruct (AddEntity_fresh demo_world)
    as (p & w1 & Hadd & _ & _ & _ & Hes & _ & _ & Hal & Hac & _ & _ & _ & _ & Hok).
  - apply (bool_decide_unpack _). vm_compute. exact I.
  - apply (bool_decide_unpack _). vm_compute. exact I.
  - exists p, w1. split_and!; try assumption.
    + vm_compute in Hadd. injection Hadd as <- _. reflexivity.
    + rewrite Hes. vm_compute in Hadd. injection Hadd as <- _. reflexivity.
Defined.

(** ** More on [Refresh] *)

Lemma refreshed_buckets_all h G :
  (forall g v p, G !! g = Some v -> p ∈ v -> keeps h (N.of_nat g) p = true) ->
  refreshed_buckets h G = G.
Proof.
  intros Hall. apply list_eq. intros g. unfold refreshed_buckets.
  rewrite list_lookup_imap. destruct (G !! g) as [v|] eqn:Hv; [|reflexivity].
  simpl. f_equal. apply List_filter_all. intros p Hp. apply (Hall g v p Hv Hp).
Qed.

Lemma List_filter_none {A} (f : A -> bool) (l : list A) :
  (forall x, x ∈ l -> f x = false) -> List.filter f l = [].
Proof.
  induction l as [|x l IH]; intros H; simpl; [reflexivity|].
  rewrite (H x (list_elem_of_here x l)). apply IH.
  intros y Hy. apply H. by apply list_elem_of_further.
Qed.

(** X4: when every entity of the collection is alive and every
    back-reference in a bucket points to a living member of the group,
    [Refresh] changes nothing at all. *)
Theorem Refresh_nothing_stale (w : World) :
  manager_ok w ->
  (forall p, p ∈ entities (manager w) -> alive_in (entityHeap w) p = true) ->
  (forall g v p, groupedEntities (manager w) !! g = Some v -> p ∈ v ->
                 alive_in (entityHeap w) p = true
                 /\ in_group (entityHeap w) (N.of_nat g) p = true) ->
  EntityManager_Refresh w = Ok (tt, w).
Proof.
  intros [Hlen Hnd Hent Hgrp] Halive Hkept.
  unfold EntityManager_Refresh.
  rewrite (bind_run _ _ _ _ _ (Refresh_groups_run w Hlen Hgrp)).
  rewrite refreshed_buckets_all.
  2:{ intros g v p Hv Hp. destruct (Hkept g v p Hv Hp) as [Ha Hg].
      unfold keeps. rewrite Ha, Hg. reflexivity. }
  assert (Hsame : set_buckets (groupedEntities (manager w)) w = w)
    by (destruct w as [? ? ? ? ? [] ?]; reflexivity).
  rewrite Hsame.
  unfold Refresh_entities. unfold bind at 1. unfold get.
  erewrite bind_run; cycle 1.
  { apply (erase_remove_if_pure _ (fun p => negb (alive_in (entityHeap w) p))).
    intros p Hp. apply is_dead_run.
    rewrite list.Forall_forall in Hent. apply Hent, Hp. }
  rewrite filter_negb_negb, (List_filter_all _ _ Halive).
  rewrite List_filter_none.
  2:{ intros p Hp. rewrite (Halive p Hp). reflexivity. }
  unfold modify, bind, for_each, ret. do 2 f_equal.
  destruct w as [? ? ? ? ? [] ?]; reflexivity.
Qed.

Lemma buckets_forall (P : nat -> EntityPtr -> Prop) (G : list (list EntityPtr)) :
  Forall (fun gv => Forall (P gv.1) gv.2) (imap (fun g v => (g, v)) G) ->
  forall g v p, G !! g = Some v -> p ∈ v -> P g p.
Proof.
  intros Hall g v p Hv Hp.
  rewrite list.Forall_forall in Hall.
  assert (Hin : (g, v) ∈ imap (fun g v => (g, v)) G).
  { apply list_elem_of_lookup. exists g. rewrite list_lookup_imap, Hv. reflexivity. }
  specialize (Hall _ Hin). cbn in Hall.
  rewrite list.Forall_forall in Hall. apply Hall, Hp.
Qed.

Lemma Refresh_nothing_stale_witness :
  exists w1,
    EntityManager_Refresh demo_world = Ok (tt, w1)
    /\ w1 <> demo_world
    /\ EntityManager_Refresh w1 = Ok (tt, w1).
Proof.
  set (w1 := default World_init (world_after (EntityManager_Refresh demo_world))).
  exists w1. split; [vm_compute; reflexivity|]. split.
  - intros H. apply (f_equal (fun w => entities (manager w))) in H.
    vm_compute in H. discriminate.
  - apply (Refresh_nothing_stale w1).
    + apply (bool_decide_unpack _). vm_compute. exact I.
    + intros p Hp. vm_compute in Hp.
      repeat (apply elem_of_cons in Hp as [->|Hp]; [vm_compute; reflexivity|]).
      by apply elem_of_nil in Hp.
    + apply (buckets_forall
               (fun g p => alive_in (entityHeap w1) p = true
                           /\ in_group (entityHeap w1) (N.of_nat g) p = true)).
      apply (bool_decide_unpack _). vm_compute. exact I.
Defined.

Lemma lookup_foldr_delete_in (m : gmap CompPtr Component) (l : list CompPtr) c :
  c ∈ l -> foldr delete m l !! c = None.
Proof.
  induction l as [|x l IH]; intros Hc; simpl.
  - by apply elem_of_nil in Hc.
  - destruct (decide (c = x)) as [->|Hne]; [apply lookup_delete_eq|].
    rewrite lookup_delete_ne by done. apply IH.
    apply elem_of_cons in Hc as [?|?]; [contradiction|assumption].
Qed.

Lemma lookup_foldr_delete_None (m : gmap CompPtr Component) (l : list CompPtr) c :
  m !! c = None -> foldr delete m l !! c = None.
Proof.
  intros Hc. induction l as [|x l IH]; simpl; [exact Hc|].
  destruct (decide (c = x)) as [->|Hne]; [apply lookup_delete_eq|].
  rewrite lookup_delete_ne by done. exact IH.
Qed.

(** The destructors of the erased entities free their components. *)
Lemma delete_entities_components dead : forall w w',
  NoDup dead ->
  for_each dead delete_entity w = Ok (tt, w') ->
  (forall c, componentHeap w !! c = None -> componentHeap w' !! c = None)
  /\ (forall p e c, p ∈ dead -> entityHeap w !! p = Some e -> c ∈ components e ->
                    componentHeap w' !! c = None).
Proof.
  induction dead as [|p0 dead IH]; intros w w' Hnd Hrun.
  - injection Hrun as <-. split; [done|]. intros p e c Hp. by apply elem_of_nil in Hp.
  - apply list.NoDup_cons in Hnd as [Hp0 Hnd]. cbn [for_each] in Hrun.
    apply bind_inv in Hrun as ([] & w1 & Hdel & Hrun).
    unfold delete_entity in Hdel. apply bind_inv in Hdel as (e0 & w0 & Hd & Hm).
    apply deref_inv in Hd as [-> He0]. injection Hm as <-.
    destruct (IH _ _ Hnd Hrun) as [Hnone Hdead]. cbn in Hnone, Hdead. split.
    + intros c Hc. apply Hnone. by apply lookup_foldr_delete_None.
    + intros p e c Hp He Hc. apply elem_of_cons in Hp as [->|Hp].
      * apply Hnone. assert (e = e0) as -> by congruence.
        by apply lookup_foldr_delete_in.
      * apply (Hdead p e c Hp); [|exact Hc].
        rewrite lookup_delete_ne; [exact He|]. intros ->. contradiction.
Qed.

Lemma Refresh_entities_frees w w' p e c :
  NoDup (entities (manager w)) ->
  Forall (allocated (entityHeap w)) (entities (manager w)) ->
  Refresh_entities w = Ok (tt, w') ->
  p ∈ entities (manager w) -> entityHeap w !! p = Some e -> alive e = false ->
  c ∈ components e ->
  componentHeap w' !! c = None.
Proof.
  intros Hnd Hal Hrun Hp He Hdead Hc.
  unfold Refresh_entities in Hrun. unfold bind at 1 in Hrun. unfold get in Hrun.
  erewrite bind_run in Hrun; cycle 1.
  { apply (erase_remove_if_pure _ (fun p => negb (alive_in (entityHeap w) p))).
    intros q Hq. apply is_dead_run.
    rewrite list.Forall_forall in Hal. apply Hal, Hq. }
  unfold modify in Hrun. unfold bind at 1 in Hrun.
  apply delete_entities_components in Hrun as [_ Hfreed].
  - apply (Hfreed p e c); [|exact He|exact Hc].
    apply elem_of_List_filter. split; [exact Hp|].
    unfold alive_in. rewrite He. cbn. rewrite Hdead. reflexivity.
  - apply NoDup_List_filter, Hnd.
Qed.

(** X5: [Refresh] frees every dead entity of the collection together with
    the components it owns. A pointer or reference to such an entity, or to
    one of its components, dangles afterwards: every member function called
    on the entity is undefined behaviour. *)
Theorem Refresh_frees_the_dead
    (vt : VTable) (e : EntityPtr) (ent : Entity) (w : World) :
  manager_ok w ->
  e ∈ entities (manager w) ->
  entityHeap w !! e = Some ent ->
  alive ent = false ->
  exists w',
    EntityManager_Refresh w = Ok (tt, w')
    /\ entityHeap w' !! e = None
    /\ (forall c, c ∈ components ent -> componentHeap w' !! c = None)
    /\ Entity_IsAlive e w' = Undefined
    /\ Entity_IsActive e w' = Undefined
    /\ Entity_Enable e w' = Undefined
    /\ Entity_Destroy e w' = Undefined
    /\ (forall g, Entity_HasGroup e g w' = Undefined
                  /\ Entity_AddGroup e g w' = Undefined
                  /\ Entity_DelGroup e g w' = Undefined)
    /\ (forall T, Entity_HasComponent T e w' = Undefined
                  /\ Entity_GetComponent T e w' = Undefined
                  /\ Entity_AddComponent vt T e w' = Undefined)
    /\ (forall frameTime, Entity_Update vt e frameTime w' = Undefined)
    /\ Entity_Draw vt e w' = Undefined.
Proof.
  intros Hok Hin He Hdead.
  destruct (Refresh_halves_run w Hok) as (w' & Hent & Hrun & Hp).
  assert (Hgone : entityHeap w' !! e = None).
  { rewrite (rf_heap _ _ Hp). rewrite decide_True; [reflexivity|].
    split; [exact Hin|]. unfold alive_in. rewrite He. exact Hdead. }
  assert (Hderef : forall w0, entityHeap w0 !! e = None -> deref e w0 = Undefined).
  { intros w0 H0. unfold deref. rewrite H0. reflexivity. }
  assert (Hhas : forall T, Entity_HasComponent T e w' = Undefined).
  { intros T. unfold Entity_HasComponent, bind, typeIdOf.
    destruct (GetComponentTypeID T (registry w')) as [id r].
    rewrite Hderef by exact Hgone. reflexivity. }
  exists w'. split_and!; try assumption.
  - intros c Hc.
    apply (Refresh_entities_frees
             (set_buckets (refreshed_buckets (entityHeap w)
                             (groupedEntities (manager w))) w)
             w' e ent c (mo_owned_once _ Hok) (mo_entities _ Hok) Hent Hin He
             Hdead Hc).
  - unfold Entity_IsAlive, bind. by rewrite Hderef.
  - unfold Entity_IsActive, bind. by rewrite Hderef.
  - unfold Entity_Enable, bind. by rewrite Hderef.
  - unfold Entity_Destroy, bind. by rewrite Hderef.
  - intros g. split_and!.
    + unfold Entity_HasGroup, bind. by rewrite Hderef.
    + unfold Entity_AddGroup, bind. by rewrite Hderef.
    + unfold Entity_DelGroup, bind. by rewrite Hderef.
  - intros T. split_and!.
    + apply Hhas.
    + unfold Entity_GetComponent, bind. by rewrite Hhas.
    + unfold Entity_AddComponent, bind. by rewrite Hhas.
  - intros frameTime. unfold Entity_Update, bind. by rewrite Hderef.
  - unfold Entity_Draw, bind. by rewrite Hderef.
Qed.

Lemma Refresh_frees_the_dead_witness :
  exists w',
    EntityManager_Refresh demo_world = Ok (tt, w')
    /\ entityHeap w' !! 1%nat = None
    /\ componentHeap demo_world !! 2%nat
       = Some (mkComponent (Some 1%nat) "Transform")
    /\ componentHeap w' !! 2%nat = None
    /\ Entity_IsAlive 1%nat w' = Undefined.
Proof.
  destruct (Refresh_frees_the_dead (game_vtable Space_held) 1%nat
              (default Entity_new (entityHeap demo_world !! 1%nat)) demo_world)
    as (w' & Hrun & Hgone & Hcomps & Halive & _).
  - apply (bool_decide_unpack _). vm_compute. exact I.
  - apply (bool_decide_unpack _). vm_compute. exact I.
  - vm_compute. reflexivity.
  - vm_compute. reflexivity.
  - exists w'. split_and!; try assumption; [vm_compute; reflexivity|].
    apply Hcomps. apply (bool_decide_unpack _). vm_compute. exact I.
Defined.

(** ** Leaving a group and joining it again *)

Lemma count_occ_List_filter (f : EntityPtr -> bool) (l : list EntityPtr) x :
  f x = true ->
  List.count_occ Nat.eq_dec (List.filter f l) x = List.count_occ Nat.eq_dec l x.
Proof.
  intros Hx. induction l as [|y l IH]; simpl; [reflexivity|].
  destruct (Nat.eq_dec y x) as [->|Hne].
  - rewrite Hx. simpl. destruct (Nat.eq_dec x x); [|contradiction]. by rewrite IH.
  - destruct (f y); simpl; [|exact IH].
    destruct (Nat.eq_dec y x); [contradiction|exact IH].
Qed.

(** X6: [DelGroup] does not take the entity out of the bucket and
    [AddGroup] does not look whether it is in: leaving a group and joining it
    again before the next [Refresh] leaves one more back-reference to a living
    entity in the bucket than there was, and [Refresh] keeps them all. *)
Theorem DelGroup_AddGroup_duplicates
    (e : EntityPtr) (ent : Entity) (g : Group) (w : World) :
  manager_ok w ->
  entityHeap w !! e = Some ent -> alive ent = true -> g < maxGroups ->
  exists v w1 w2 w3 v',
    EntityManager_GetEntitiesByGroup g w = Ok (v, w)
    /\ Entity_DelGroup e g w = Ok (tt, w1)
    /\ Entity_AddGroup e g w1 = Ok (tt, w2)
    /\ EntityManager_GetEntitiesByGroup g w2 = Ok (v ++ [e], w2)
    /\ EntityManager_Refresh w2 = Ok (tt, w3)
    /\ EntityManager_GetEntitiesByGroup g w3 = Ok (v', w3)
    /\ List.count_occ Nat.eq_dec v' e = S (List.count_occ Nat.eq_dec v e).
Proof.
  intros Hok He Hal Hg.
  destruct (bucket_exists g w Hok Hg) as (v & Hv & _).
  set (ent1 := with_groupBitset (N.clearbit (groupBitset ent) g) ent).
  set (w1 := poke e ent1 w).
  assert (He1 : entityHeap w1 !! e = Some ent1) by apply lookup_insert_eq.
  assert (Hok1 : manager_ok w1) by (apply poke_manager_ok; exact Hok).
  set (ent2 := with_groupBitset (N.setbit (groupBitset ent1) g) ent1).
  set (w2 := set_buckets (<[N.to_nat g := v ++ [e]]> (groupedEntities (manager w1)))
               (poke e ent2 w1)).
  assert (Hlt : (N.to_nat g < length (groupedEntities (manager w)))%nat)
    by (eapply lookup_lt_Some, Hv).
  assert (He2 : entityHeap w2 !! e = Some ent2) by apply lookup_insert_eq.
  assert (Hv2 : groupedEntities (manager w2) !! N.to_nat g = Some (v ++ [e]))
    by (cbn; apply list_lookup_insert_eq, Hlt).
  assert (Hok2 : manager_ok w2) by (eapply AddGroup_manager_ok; eauto).
  destruct (Refresh_run w2 Hok2) as (w3 & Hr & Hp).
  assert (Hk : keeps (entityHeap w2) g e = true).
  { unfold keeps, alive_in, in_group. rewrite He2. cbn.
    rewrite Hal, N.setbit_eq. reflexivity. }
  exists v, w1, w2, w3,
    (List.filter (keeps (entityHeap w2) g) (v ++ [e])).
  split_and!.
  - apply GetEntitiesByGroup_run, Hv.
  - apply (Entity_DelGroup_run e ent g w He Hg).
  - apply (Entity_AddGroup_run e ent1 g v w1 He1 Hg Hv).
  - apply GetEntitiesByGroup_run, Hv2.
  - exact Hr.
  - apply GetEntitiesByGroup_run. rewrite (rf_groups _ _ Hp).
    unfold refreshed_buckets. rewrite list_lookup_imap, Hv2. cbn.
    rewrite N2Nat.id. reflexivity.
  - rewrite (count_occ_List_filter _ _ _ Hk), List.count_occ_app. cbn.
    destruct (Nat.eq_dec e e); [lia|contradiction].
Qed.

Lemma DelGroup_AddGroup_duplicates_witness :
  exists w1 w2 w3,
    EntityManager_GetEntitiesByGroup 3 demo_world = Ok ([0%nat], demo_world)
    /\ Entity_DelGroup 0%nat 3 demo_world = Ok (tt, w1)
    /\ Entity_AddGroup 0%nat 3 w1 = Ok (tt, w2)
    /\ EntityManager_Refresh w2 = Ok (tt, w3)
    /\ EntityManager_GetEntitiesByGroup 3 w3 = Ok ([0; 0]%nat, w3).
Proof.
  destruct (DelGroup_AddGroup_duplicates 0%nat
              (default Entity_new (entityHeap demo_world !! 0%nat)) 3 demo_world)
    as (v & w1 & w2 & w3 & v' & Hv & H1 & H2 & _ & Hr & Hv' & _).
  - apply (bool_decide_unpack _). vm_compute. exact I.
  - vm_compute. reflexivity.
  - vm_compute. reflexivity.
  - reflexivity.
  - exists w1, w2, w3. split_and!; try assumption; [vm_compute; reflexivity|].
    rewrite Hv'. do 2 f_equal.
    vm_compute in H1. injection H1 as <-.
    vm_compute in H2. injection H2 as <-.
    vm_compute in Hr. injection Hr as <-.
    vm_compute in Hv'. injection Hv' as <-. reflexivity.
Defined.

(** ** [Initialize] and the components attached before *)

Lemma Entity_GetComponent_inv T e w c w' :
  Entity_GetComponent T e w = Ok (c, w') ->
  exists ent id r,
    entityHeap w !! e = Some ent
    /\ GetComponentTypeID T (registry w) = (id, r)
    /\ id < maxComponents
    /\ N.testbit (componentBitset ent) id = true
    /\ componentArray ent !! N.to_nat id = Some (Some c)
    /\ w' = set_registry r w.
Proof.
  intros H. unfold Entity_GetComponent in H.
  apply bind_inv in H as (has & w0 & Hhas & H).
  apply Entity_HasComponent_inv in Hhas as (ent & id & r & He & Hid & Hlt & -> & ->).
  apply bind_inv in H as ([] & w1 & Hassert & H).
  unfold assert_ in Hassert.
  destruct (N.testbit (componentBitset ent) id) eqn:Hbit; [|discriminate].
  injection Hassert as <-.
  pose proof (GetComponentTypeID_registered _ _ _ _ Hid) as Hreg.
  assert (Hknown : typeIdOf T (set_registry r w) = Ok (id, set_registry r w))
    by (apply typeIdOf_known; exact Hreg).
  rewrite (bind_run _ _ _ _ _ Hknown) in H.
  assert (He' : entityHeap (set_registry r w) !! e = Some ent) by exact He.
  rewrite (bind_run _ _ _ _ _ (deref_run _ _ _ He')) in H.
  destruct (componentArray ent !! N.to_nat id) as [[ptr|]|] eqn:Hslot;
    try discriminate.
  injection H as <- <-. exists ent, id, r. done.
Qed.

Lemma set_registry_same_inv r w : set_registry r w = w -> r = registry w.
Proof. intros H. apply (f_equal registry) in H. exact H. Qed.

(** X7: [AddComponent] calls [Initialize] after it has attached the new
    component and without touching the others: in the state [Initialize]
    runs in, every component that could be fetched before the call is fetched
    as before, and the new component is fetched under its own type. *)
Theorem Initialize_sees_siblings
    (vt : VTable) (T U : TypeKey) (e : EntityPtr) (cu : CompPtr) (w w0 : World) :
  world_ok w ->
  Entity_GetComponent U e w = Ok (cu, w) ->
  Entity_HasComponent T e w = Ok (false, w0) ->
  exists c wp,
    Entity_AddComponent vt T e w =
      match vInitialize vt T c wp with
      | Ok (_, wi) => Ok (c, set_trace (trace w ++ [EvInitialize c]) wi)
      | AssertFail => AssertFail
      | Undefined => Undefined
      end
    /\ Entity_GetComponent U e wp = Ok (cu, wp)
    /\ Entity_GetComponent T e wp = Ok (c, wp).
Proof.
  intros Hok Hget Hhas.
  apply Entity_GetComponent_inv in Hget
    as (ent & idu & ru & He & Hidu & Hltu & Hbitu & Hslotu & Hsame).
  symmetry in Hsame. apply set_registry_same_inv in Hsame. subst ru.
  pose proof (GetComponentTypeID_registered _ _ _ _ Hidu) as Hregu.
  apply Entity_HasComponent_inv in Hhas
    as (ent' & id & r & He' & Hid & Hlt & Hbit & _).
  assert (ent' = ent) as -> by congruence. symmetry in Hbit.
  destruct (Hok e ent He) as [_ Hlen].
  assert (Hidx : (N.to_nat id < length (componentArray ent))%nat)
    by (unfold maxComponents in *; lia).
  pose proof (attached_advances T e ent id r w Hok He Hid Hbit) as [Hokp Hevp].
  set (c := nextComponent w) in *.
  set (wp := attached T e ent id r w) in *.
  assert (Hep : entityHeap wp !! e = Some (attach id c ent)) by apply lookup_insert_eq.
  exists c, wp. split_and!.
  - rewrite (Entity_AddComponent_run vt T e ent w id r He Hid Hlt Hbit).
    rewrite decide_True by exact Hidx. apply virtual_Initialize_attached.
  - apply (attached_component_found U e idu cu ent w wp); try assumption.
    unfold allocated. rewrite Hep. eauto.
  - apply (attached_component_found T e id c (attach id c ent) wp wp);
      try assumption.
    + apply (GetComponentTypeID_registered _ _ _ _ Hid).
    + unfold attach. cbn [componentBitset with_componentBitset]. apply N.setbit_eq.
    + unfold attach. cbn [componentArray with_componentBitset with_componentArray].
      apply list_lookup_insert_eq. exact Hidx.
    + apply evolves_refl.
    + unfold allocated. rewrite Hep. eauto.
Qed.

Lemma Initialize_sees_siblings_witness :
  Entity_GetComponent "Transform" 1%nat game_world = Ok (4%nat, game_world)
  /\ exists c wp,
       Entity_AddComponent (game_vtable Space_held) "WeaponAIController" 1%nat game_world =
         match vInitialize (game_vtable Space_held) "WeaponAIController" c wp with
         | Ok (_, wi) => Ok (c, set_trace (trace game_world ++ [EvInitialize c]) wi)
         | AssertFail => AssertFail
         | Undefined => Undefined
         end
       /\ Entity_GetComponent "Transform" 1%nat wp = Ok (4%nat, wp)
       /\ Entity_GetComponent "WeaponAIController" 1%nat wp = Ok (c, wp).
Proof.
  assert (Hget : Entity_GetComponent "Transform" 1%nat game_world
                 = Ok (4%nat, game_world)) by (vm_compute; reflexivity).
  split; [exact Hget|].
  apply (Initialize_sees_siblings (game_vtable Space_held) "WeaponAIController" "Transform"
           1%nat 4%nat game_world
           (set_registry (GetComponentTypeID "WeaponAIController"
                            (registry game_world)).2 game_world)).
  - apply (bool_decide_unpack _). vm_compute. exact I.
  - exact Hget.
  - vm_compute. reflexivity.
Defined.

(** ** The draw pass *)

Lemma virtual_Draw_run vt c w :
  draw_hooks_keep_structure vt ->
  is_Some (componentHeap w !! c) ->
  exists w',
    virtual_call (EvDraw c) (vDraw vt) c w = Ok (tt, w')
    /\ same_structure w w'
    /\ trace w' = trace w ++ [EvDraw c].
Proof.
  intros Hhooks [comp Hc]. unfold virtual_call. rewrite Hc.
  destruct (Hhooks (dynType comp) c w) as (w1 & Hrun & Hs).
  rewrite Hrun. eexists. split; [reflexivity|]. split; [|reflexivity].
  apply same_structure_set_trace, Hs.
Qed.

Lemma Entity_Draw_loop vt this all :
  draw_hooks_keep_structure vt ->
  forall cs w e,
    entityHeap w !! this = Some e -> components e = all ->
    Forall (fun c => is_Some (componentHeap w !! c)) cs ->
    exists w',
      for_each cs (fun c =>
        virtual_call (EvDraw c) (vDraw vt) c ;; check_components this all) w
        = Ok (tt, w')
      /\ same_structure w w'
      /\ trace w' = trace w ++ map EvDraw cs.
Proof.
  intros Hhooks. induction cs as [|c cs IH]; intros w e He Hall Hcs.
  - exists w. split; [reflexivity|]. split; [apply same_structure_refl|].
    cbn. by rewrite app_nil_r.
  - apply list.Forall_cons in Hcs as [Hc Hcs].
    destruct (virtual_Draw_run vt c w Hhooks Hc) as (w1 & Hcall & Hs1 & Ht1).
    destruct (same_structure_lookup _ _ _ _ Hs1 He) as (e1 & He1 & _ & Hc1).
    assert (Hchk : check_components this all w1 = Ok (tt, w1)).
    { unfold check_components, bind, deref. rewrite He1.
      rewrite decide_True by congruence. reflexivity. }
    destruct (IH w1 e1 He1) as (w' & Hrun & Hs & Ht).
    { congruence. }
    { eapply list.Forall_impl; [exact Hcs|]. intros c'. apply (ss_components _ _ Hs1). }
    exists w'. split_and!.
    + cbn [for_each]. unfold bind at 1. unfold bind at 1.
      rewrite Hcall, Hchk. exact Hrun.
    + eapply same_structure_trans; eassumption.
    + rewrite Ht, Ht1. cbn. by rewrite <- app_assoc.
Qed.

Lemma draw_events_same_structure w w' p :
  same_structure w w' ->
  draw_events (entityHeap w') p = draw_events (entityHeap w) p.
Proof.
  intros Hs. unfold draw_events. pose proof (ss_members _ _ Hs p) as Hm.
  destruct (entityHeap w' !! p) as [e'|], (entityHeap w !! p) as [e|];
    try discriminate; [|reflexivity].
  injection Hm as -> ->. reflexivity.
Qed.

Lemma EntityManager_Draw_loop vt all :
  draw_hooks_keep_structure vt ->
  forall es w,
    entities (manager w) = all ->
    Forall (allocated (entityHeap w)) es ->
    components_ok w ->
    exists w',
      for_each es (Draw_visit vt all) w = Ok (tt, w')
      /\ same_structure w w'
      /\ trace w' = trace w ++ flat_map (draw_events (entityHeap w)) es.
Proof.
  intros Hhooks. induction es as [|p es IH]; intros w Hall Hes Hcok.
  - exists w. split; [reflexivity|]. split; [apply same_structure_refl|].
    cbn. by rewrite app_nil_r.
  - apply list.Forall_cons in Hes as [[e He] Hes].
    assert (Hvisit : exists w1,
      (if active e then Entity_Draw vt p else ret tt) w = Ok (tt, w1)
      /\ same_structure w w1
      /\ trace w1 = trace w ++ draw_events (entityHeap w) p).
    { unfold draw_events. rewrite He. destruct (active e).
      - destruct (Entity_Draw_loop vt p (components e) Hhooks (components e) w e
                    He eq_refl (Hcok p e He)) as (w1 & Hrun & Hs & Ht).
        exists w1. split_and!; try assumption.
        unfold Entity_Draw. rewrite (bind_run _ _ _ _ _ (deref_run _ _ _ He)).
        exact Hrun.
      - exists w. split; [reflexivity|]. split; [apply same_structure_refl|].
        by rewrite app_nil_r. }
    destruct Hvisit as (w1 & Hrun1 & Hs1 & Ht1).
    assert (Hchk : check_entities all w1 = Ok (tt, w1)).
    { unfold check_entities, bind, get.
      rewrite decide_True; [reflexivity|]. rewrite (ss_entities _ _ Hs1). exact Hall. }
    destruct (IH w1) as (w' & Hrun & Hs & Ht).
    { rewrite (ss_entities _ _ Hs1). exact Hall. }
    { eapply list.Forall_impl; [exact Hes|]. intros q [eq Hq].
      destruct (same_structure_lookup _ _ _ _ Hs1 Hq) as (eq' & Hq' & _).
      unfold allocated. eauto. }
    { intros q eq Hq.
      pose proof (ss_members _ _ Hs1 q) as Hm. rewrite Hq in Hm.
      destruct (entityHeap w !! q) as [eq0|] eqn:Hq0; [|discriminate].
      injection Hm as _ Hm. rewrite Hm.
      eapply list.Forall_impl; [apply (Hcok q eq0 Hq0)|].
      intros c. apply (ss_components _ _ Hs1). }
    exists w'. split_and!.
    + cbn [for_each]. unfold bind at 1. unfold Draw_visit at 1.
      rewrite (bind_run _ _ _ _ _ (Entity_IsActive_run p e w He)).
      unfold bind at 1. rewrite Hrun1, Hchk. exact Hrun.
    + eapply same_structure_trans; eassumption.
    + rewrite Ht, Ht1. cbn. rewrite <- app_assoc. do 2 f_equal.
      apply flat_map_ext. intros q. apply draw_events_same_structure, Hs1.
Qed.

Lemma Entity_Draw_loop_trace vt this all : forall cs w w',
  for_each cs (fun c =>
    virtual_call (EvDraw c) (vDraw vt) c ;; check_components this all) w
    = Ok (tt, w') ->
  trace w' = trace w ++ map EvDraw cs.
Proof.
  induction cs as [|c cs IH]; intros w w' H; cbn [for_each map] in *.
  - injection H as <-. by rewrite app_nil_r.
  - apply bind_inv in H as ([] & w1 & Hbody & H).
    apply bind_inv in Hbody as ([] & w0 & Hcall & Hchk).
    apply check_components_inv in Hchk as ->.
    apply virtual_call_trace in Hcall.
    rewrite (IH _ _ H), Hcall. by rewrite <- app_assoc.
Qed.

Lemma Draw_visit_trace vt es p w w' :
  Draw_visit vt es p w = Ok (tt, w') ->
  exists ent,
    entityHeap w !! p = Some ent
    /\ trace w' = trace w ++ (if active ent then map EvDraw (components ent) else []).
Proof.
  intros H. unfold Draw_visit in H.
  apply bind_inv in H as (isActive & w0 & Hact & H).
  unfold Entity_IsActive in Hact.
  apply bind_inv in Hact as (ent & w0' & Hd & Hret).
  apply deref_inv in Hd as [-> He]. injection Hret as <- <-.
  apply bind_inv in H as ([] & w1 & Hdraw & Hchk).
  apply check_entities_inv in Hchk as ->.
  exists ent. split; [exact He|].
  destruct (active ent).
  - unfold Entity_Draw in Hdraw.
    rewrite (bind_run _ _ _ _ _ (deref_run _ _ _ He)) in Hdraw.
    apply (Entity_Draw_loop_trace _ _ _ _ _ _ Hdraw).
  - injection Hdraw as <-. by rewrite app_nil_r.
Qed.

(** X8: [Manager.Draw()] works as [Manager.Update] does. A pass that
    returns has taken the entities in the order of the collection, read the
    [active] flag of each when it reached it, and made the calls [c->Draw()]
    for the components of the entity in the order of its vector if the flag
    was set, none if it was not; it does not consult [alive]. When the [Draw]
    hooks return and leave flags and containers alone the pass returns, and
    it changes nothing but what the hooks change. *)
Theorem Draw_visits_active_entities_in_order (vt : VTable) (w : World) :
  (forall w', EntityManager_Draw vt w = Ok (tt, w') ->
     forall i p, entities (manager w) !! i = Some p ->
       exists wi ent wi',
         for_each (take i (entities (manager w)))
           (Draw_visit vt (entities (manager w))) w = Ok (tt, wi)
         /\ entityHeap wi !! p = Some ent
         /\ Draw_visit vt (entities (manager w)) p wi = Ok (tt, wi')
         /\ trace wi' =
              trace wi ++ (if active ent then map EvDraw (components ent) else [])
         /\ for_each (drop (S i) (entities (manager w)))
              (Draw_visit vt (entities (manager w))) wi' = Ok (tt, w'))
  /\ (draw_hooks_keep_structure vt ->
      Forall (allocated (entityHeap w)) (entities (manager w)) ->
      components_ok w ->
      exists w',
        EntityManager_Draw vt w = Ok (tt, w')
        /\ same_structure w w'
        /\ trace w' =
             trace w ++
             flat_map (fun p =>
                 match entityHeap w !! p with
                 | Some e => if active e then map EvDraw (components e) else []
                 | None => []
                 end) (entities (manager w))).
Proof.
  split.
  - intros w' Hrun i p Hp.
    unfold EntityManager_Draw, bind at 1, get in Hrun.
    rewrite <- (take_drop_middle _ _ _ Hp) in Hrun at 1.
    apply for_each_app_inv in Hrun as (wi & Hpre & Hrest).
    cbn [for_each] in Hrest. apply bind_inv in Hrest as ([] & wi' & Hvisit & Hpost).
    destruct (Draw_visit_trace _ _ _ _ _ Hvisit) as (ent & He & Ht).
    exists wi, ent, wi'. done.
  - intros Hhooks Hes Hcok.
    destruct (EntityManager_Draw_loop vt (entities (manager w)) Hhooks
                (entities (manager w)) w eq_refl Hes Hcok) as (w' & Hrun & Hs & Ht).
    exists w'. split_and!; assumption.
Qed.

Lemma Draw_visits_active_entities_in_order_witness :
  active <$> entityHeap game_world !! 0%nat = Some true
  /\ active <$> entityHeap game_world !! 1%nat = Some false
  /\ exists w',
       EntityManager_Draw (game_vtable Space_held) game_world = Ok (tt, w')
       /\ trace w' = trace game_world ++ map EvDraw [0; 1; 2; 3]%nat.
Proof.
  split; [vm_compute; reflexivity|]. split; [vm_compute; reflexivity|].
  destruct (Draw_visits_active_entities_in_order (game_vtable Space_held) game_world)
    as (_ & Hstatic).
  destruct Hstatic as (w' & Hrun & _ & Ht).
  - intros T c w. exists w. split; [reflexivity | apply same_structure_refl].
  - apply (bool_decide_unpack _). vm_compute. exact I.
  - apply (bool_decide_unpack _). vm_compute. exact I.
  - exists w'. split; [exact Hrun|]. rewrite Ht. f_equal.
Defined.

(** * The data of the framework stays sound *)

Lemma follows_refl w : follows w w.
Proof.
  split; [lia | lia | | done].
  intros p e' _ H. exists e'. done.
Qed.

Lemma follows_trans w1 w2 w3 : follows w1 w2 -> follows w2 w3 -> follows w1 w3.
Proof.
  intros [Hn1 Hc1 He1 Hk1] [Hn2 Hc2 He2 Hk2]. split; [lia | lia | |].
  - intros p e3 Hp H3.
    destruct (He2 p e3 ltac:(lia) H3) as (e2 & H2 & Ha2 & Hp2).
    destruct (He1 p e2 Hp H2) as (e1 & H1 & Ha1 & Hp1).
    exists e1. split_and!; [exact H1 | auto | by etrans].
  - intros c comp Hc H3. apply Hk1; [exact Hc|]. apply Hk2; [lia | exact H3].
Qed.

Lemma maintains_ret {A} (a : A) : maintains (ret a).
Proof. intros w a' w' Hs [= <- <-]. split; [exact Hs | apply follows_refl]. Qed.

Lemma maintains_undefined {A} : maintains (@undefined A).
Proof. intros w a w' _ H. discriminate. Qed.

Lemma maintains_bind {A B} (m : M A) (k : A -> M B) :
  maintains m -> (forall a, maintains (k a)) -> maintains (bind m k).
Proof.
  intros Hm Hk w b w2 Hs H. apply bind_inv in H as (a & w1 & H1 & H2).
  destruct (Hm _ _ _ Hs H1) as [Hs1 Hf1].
  destruct (Hk a _ _ _ Hs1 H2) as [Hs2 Hf2].
  split; [exact Hs2 | by eapply follows_trans].
Qed.

Lemma maintains_for_each {A} (l : list A) (body : A -> M unit) :
  (forall x, x ∈ l -> maintains (body x)) -> maintains (for_each l body).
Proof.
  induction l as [|x l IH]; intros Hb; simpl.
  - apply maintains_ret.
  - apply maintains_bind; [apply Hb, list_elem_of_here|].
    intros _. apply IH. intros y Hy. apply Hb. by apply list_elem_of_further.
Qed.

Lemma maintains_get : maintains get.
Proof. intros w a w' Hs [= <- <-]. split; [exact Hs | apply follows_refl]. Qed.

Lemma maintains_deref p : maintains (deref p).
Proof.
  intros w a w' Hs H. apply deref_inv in H as [-> _].
  split; [exact Hs | apply follows_refl].
Qed.

Lemma maintains_assert b : maintains (assert_ b).
Proof.
  intros w a w' Hs. unfold assert_. destruct b; [|discriminate].
  intros [= <- <-]. split; [exact Hs | apply follows_refl].
Qed.

Lemma maintains_bitset_get n bits i : maintains (bitset_get n bits i).
Proof.
  unfold bitset_get.
  destruct (i <? n); [apply maintains_ret | apply maintains_undefined].
Qed.

Lemma maintains_then_ret {A} (m : M A) : maintains m -> maintains (m ;; ret tt).
Proof.
  intros H. apply maintains_bind; [exact H|]. intros _. apply maintains_ret.
Qed.

(** A step that touches neither the objects nor the manager. *)
Lemma sound_quiet w w' :
  sound w ->
  entityHeap w' = entityHeap w -> nextEntity w' = nextEntity w ->
  componentHeap w' = componentHeap w -> nextComponent w' = nextComponent w ->
  manager w' = manager w ->
  typeID (registry w) ⊆ typeID (registry w') ->
  sound w' /\ follows w w'.
Proof.
  intros [Hw Hm Hr Hf Hd Ho Ht] Hh Hn Hc Hnc Hman Hreg. split.
  - split.
    + unfold world_ok. rewrite Hh, Hn. exact Hw.
    + destruct Hm as [H1 H2 H3 H4]. split; rewrite ?Hman, ?Hh; assumption.
    + intros p. rewrite Hh, Hman. apply Hr.
    + intros c. rewrite Hc, Hnc. apply Hf.
    + intros p e. rewrite Hh. apply Hd.
    + intros p e c. rewrite Hh, Hc. apply Ho.
    + intros p e id. rewrite Hh, Hc. intros He Hb.
      destruct (Ht p e id He Hb) as (c & T & Hslot & Hin & Hcomp & Hid).
      exists c, T. split_and!; try assumption.
      eapply lookup_weaken; eassumption.
  - split; [lia | lia | |].
    + intros p e' _. rewrite Hh. intros H. exists e'. done.
    + intros c comp _. rewrite Hc. done.
Qed.

Lemma maintains_typeIdOf T : maintains (typeIdOf T).
Proof.
  intros w a w' Hs. unfold typeIdOf.
  destruct (GetComponentTypeID T (registry w)) as [id r] eqn:Hid.
  intros [= <- <-]. apply sound_quiet; try done.
  simpl. eapply GetComponentTypeID_grows, Hid.
Qed.

Lemma sound_set_trace t w : sound w -> sound (set_trace t w) /\ follows w (set_trace t w).
Proof. intros Hs. by apply sound_quiet. Qed.

(** A step that assigns to the flags or to the group bits of one entity. *)
Lemma sound_poke w p e e' :
  sound w -> entityHeap w !! p = Some e ->
  components e' = components e ->
  componentArray e' = componentArray e ->
  componentBitset e' = componentBitset e ->
  (alive e = false -> alive e' = false) ->
  sound (poke p e' w) /\ follows w (poke p e' w).
Proof.
  intros [Hw Hm Hr Hf Hd Ho Ht] He Hcs Harr Hbits Hal. split.
  - split.
    + apply (advances_poke w p e e' Hw He); [|by rewrite Harr].
      intros i Hi. rewrite Hbits, Harr. done.
    + by apply poke_manager_ok.
    + intros q [eq Hq]. cbn in Hq |- *. apply Hr.
      rewrite lookup_insert in Hq. case_decide; [subst q|]; by eexists.
    + exact Hf.
    + intros q eq. cbn. rewrite lookup_insert. case_decide as Hq.
      * subst q. intros [= <-]. rewrite Hcs. by eapply Hd.
      * apply Hd.
    + intros q eq c. cbn. rewrite lookup_insert. case_decide as Hq.
      * subst q. intros [= <-]. rewrite Hcs. by apply Ho.
      * apply Ho.
    + intros q eq id. cbn. rewrite lookup_insert. case_decide as Hq.
      * subst q. intros [= <-]. rewrite Hcs, Harr, Hbits. by apply Ht.
      * apply Ht.
  - split; cbn; [lia | lia | | done].
    intros q e'' _. rewrite lookup_insert. case_decide as Hq.
    + subst q. intros [= <-]. exists e. split_and!; [exact He | exact Hal |].
      by rewrite Hcs.
    + intros H. exists e''. done.
Qed.

Lemma maintains_deref_store e (f : Entity -> Entity) :
  (forall ent, components (f ent) = components ent
               /\ componentArray (f ent) = componentArray ent
               /\ componentBitset (f ent) = componentBitset ent
               /\ (alive ent = false -> alive (f ent) = false)) ->
  maintains (let! ent := deref e in store e (f ent)).
Proof.
  intros Hf w a w' Hs H. apply bind_inv in H as (ent & w1 & Hd & Hst).
  apply deref_inv in Hd as [-> He]. rewrite store_run in Hst.
  injection Hst as <- <-. destruct (Hf ent) as (H1 & H2 & H3 & H4).
  by apply (sound_poke w e ent).
Qed.

Lemma maintains_Entity_Destroy e : maintains (Entity_Destroy e).
Proof. apply (maintains_deref_store e (with_alive false)). done. Qed.

Lemma maintains_Entity_Enable e : maintains (Entity_Enable e).
Proof. apply (maintains_deref_store e (with_active true)). done. Qed.

Lemma maintains_Entity_Disable e : maintains (Entity_Disable e).
Proof. apply (maintains_deref_store e (with_active false)). done. Qed.

Lemma maintains_Entity_IsAlive e : maintains (Entity_IsAlive e).
Proof.
  unfold Entity_IsAlive. apply maintains_bind; [apply maintains_deref|].
  intros ent. apply maintains_ret.
Qed.

Lemma maintains_Entity_IsActive e : maintains (Entity_IsActive e).
Proof.
  unfold Entity_IsActive. apply maintains_bind; [apply maintains_deref|].
  intros ent. apply maintains_ret.
Qed.

Lemma maintains_Entity_HasGroup e g : maintains (Entity_HasGroup e g).
Proof.
  unfold Entity_HasGroup. apply maintains_bind; [apply maintains_deref|].
  intros ent. apply maintains_bitset_get.
Qed.

Lemma maintains_Entity_HasComponent T e : maintains (Entity_HasComponent T e).
Proof.
  unfold Entity_HasComponent. apply maintains_bind; [apply maintains_typeIdOf|].
  intros id. apply maintains_bind; [apply maintains_deref|].
  intros ent. apply maintains_bitset_get.
Qed.

Lemma maintains_Entity_GetComponent T e : maintains (Entity_GetComponent T e).
Proof.
  unfold Entity_GetComponent.
  apply maintains_bind; [apply maintains_Entity_HasComponent|]. intros has.
  apply maintains_bind; [apply maintains_assert|]. intros _.
  apply maintains_bind; [apply maintains_typeIdOf|]. intros id.
  apply maintains_bind; [apply maintains_deref|]. intros ent.
  destruct (componentArray ent !! N.to_nat id) as [[ptr|]|];
    [apply maintains_ret | apply maintains_undefined | apply maintains_undefined].
Qed.

Lemma maintains_bucket g : maintains (bucket g).
Proof.
  unfold bucket. apply maintains_bind; [apply maintains_get|]. intros w.
  destruct (groupedEntities (manager w) !! N.to_nat g);
    [apply maintains_ret | apply maintains_undefined].
Qed.

Lemma maintains_Entity_DelGroup e g : maintains (Entity_DelGroup e g).
Proof.
  intros w a w' Hs H. unfold Entity_DelGroup in H.
  apply bind_inv in H as (ent & w1 & Hd & H). apply deref_inv in Hd as [-> He].
  apply bind_inv in H as (bits & w2 & Hb & H).
  unfold bitset_set in Hb. destruct (g <? maxGroups); [|discriminate].
  injection Hb as <- <-. rewrite store_run in H. injection H as <- <-.
  by apply (sound_poke w e ent).
Qed.

(** A step that rewrites the buckets. *)
Lemma sound_set_buckets w G :
  sound w ->
  length G = N.to_nat maxGroups ->
  Forall (Forall (allocated (entityHeap w))) G ->
  sound (set_buckets G w) /\ follows w (set_buckets G w).
Proof.
  intros [Hw Hm Hr Hf Hd Ho Ht] Hlen Hall. split.
  - split; try assumption.
    destruct Hm as [H1 H2 H3 H4]. split; assumption.
  - split; cbn; [lia | lia | | done].
    intros p e' _ H. exists e'. done.
Qed.

(** [AddToGroup] with a pointer to an entity that is there. *)
Lemma AddToGroup_sound e g w a w' :
  sound w -> allocated (entityHeap w) e ->
  EntityManager_AddToGroup e g w = Ok (a, w') ->
  sound w' /\ follows w w'.
Proof.
  intros Hs He H. unfold EntityManager_AddToGroup in H.
  apply bind_inv in H as (v & w1 & Hb & H).
  unfold bucket, bind, get in Hb.
  destruct (groupedEntities (manager w) !! N.to_nat g) as [v0|] eqn:Hv;
    [|discriminate].
  injection Hb as <- <-. injection H as <- <-.
  change (sound (set_buckets (<[N.to_nat g := v0 ++ [e]]> (groupedEntities (manager w))) w)
          /\ follows w (set_buckets (<[N.to_nat g := v0 ++ [e]]>
                                       (groupedEntities (manager w))) w)).
  pose proof (so_manager _ Hs) as [Hlen _ _ Hgrp].
  apply sound_set_buckets; [exact Hs | by rewrite length_insert |].
  apply Forall_insert; [exact Hgrp|]. apply Forall_app. split.
  - eapply Forall_lookup_1 in Hgrp; [exact Hgrp | exact Hv].
  - apply Forall_singleton. exact He.
Qed.

Lemma maintains_Entity_AddGroup e g : maintains (Entity_AddGroup e g).
Proof.
  intros w a w' Hs H. unfold Entity_AddGroup in H.
  apply bind_inv in H as (ent & w1 & Hd & H). apply deref_inv in Hd as [-> He].
  apply bind_inv in H as (bits & w2 & Hb & H).
  unfold bitset_set in Hb. destruct (g <? maxGroups); [|discriminate].
  injection Hb as <- <-.
  apply bind_inv in H as ([] & w3 & Hst & H).
  rewrite store_run in Hst. injection Hst as <-.
  destruct (sound_poke w e ent (with_groupBitset (N.setbit (groupBitset ent) g) ent)
              Hs He eq_refl eq_refl eq_refl (fun x => x)) as [Hs1 Hf1].
  destruct (AddToGroup_sound e g _ a w' Hs1) as [Hs2 Hf2]; [|exact H|].
  - unfold allocated. cbn. rewrite lookup_insert_eq. eauto.
  - split; [exact Hs2 | by eapply follows_trans].
Qed.

Lemma foldr_delete_subseteq (m : gmap CompPtr Component) (l : list CompPtr) :
  foldr delete m l ⊆ m.
Proof.
  induction l as [|x l IH]; simpl; [done|].
  etrans; [apply delete_subseteq | exact IH].
Qed.

Lemma delete_entities_componentHeap dead : forall w w',
  for_each dead delete_entity w = Ok (tt, w') ->
  componentHeap w' ⊆ componentHeap w /\ nextComponent w' = nextComponent w.
Proof.
  induction dead as [|p dead IH]; intros w w' Hrun.
  - injection Hrun as <-. done.
  - cbn [for_each] in Hrun. apply bind_inv in Hrun as ([] & w1 & Hdel & Hrun).
    unfold delete_entity in Hdel. apply bind_inv in Hdel as (e & w0 & Hd & Hm).
    apply deref_inv in Hd as [-> He]. injection Hm as <-.
    destruct (IH _ _ Hrun) as [Hsub Hn]. cbn in Hsub, Hn. split; [|exact Hn].
    etrans; [exact Hsub | apply foldr_delete_subseteq].
Qed.

(** [Refresh] allocates no component and alters none. *)
Lemma Refresh_componentHeap w w' :
  manager_ok w -> EntityManager_Refresh w = Ok (tt, w') ->
  componentHeap w' ⊆ componentHeap w /\ nextComponent w' = nextComponent w.
Proof.
  intros Hm H. destruct (Refresh_halves_run w Hm) as (w2 & He & Hr & _).
  rewrite Hr in H. injection H as <-.
  destruct Hm as [_ Hnd Hal _].
  set (w1 := set_buckets
               (refreshed_buckets (entityHeap w) (groupedEntities (manager w))) w)
    in *.
  unfold Refresh_entities in He. unfold bind at 1 in He. unfold get in He.
  erewrite bind_run in He; cycle 1.
  { apply (erase_remove_if_pure _ (fun p => negb (alive_in (entityHeap w1) p))).
    intros q Hq. apply is_dead_run.
    rewrite list.Forall_forall in Hal. apply (Hal q Hq). }
  unfold modify in He. unfold bind at 1 in He.
  apply delete_entities_componentHeap in He. exact He.
Qed.

Lemma Refresh_sound w w' :
  sound w -> EntityManager_Refresh w = Ok (tt, w') -> sound w' /\ follows w w'.
Proof.
  intros Hs H. pose proof Hs as [Hw Hm Hr Hf Hd Ho Ht].
  destruct (Refresh_componentHeap w w' Hm H) as [Hsub Hnc].
  destruct (Refresh_run w Hm) as (w'' & H' & Href).
  assert (w'' = w') as -> by congruence.
  assert (Hkeep : forall p e, entityHeap w' !! p = Some e ->
            entityHeap w !! p = Some e /\ alive e = true).
  { intros p e Hp. rewrite (rf_heap _ _ Href) in Hp.
    case_decide as Hdec; [discriminate|]. split; [exact Hp|].
    destruct (alive e) eqn:Ha; [reflexivity|]. exfalso. apply Hdec. split.
    - apply Hr. by eexists.
    - unfold alive_in. rewrite Hp. exact Ha. }
  assert (Hcomp : forall p e c, entityHeap w' !! p = Some e -> c ∈ components e ->
            componentHeap w' !! c = componentHeap w !! c).
  { intros p e c Hp Hc. destruct (Hkeep p e Hp) as [Hp0 Ha].
    apply (rf_components _ _ Href). intros q eq Hq Hq0 Hdead Hcq.
    destruct (Ho p e c Hp0 Hc) as (T & HT).
    destruct (Ho q eq c Hq0 Hcq) as (T' & HT').
    rewrite HT in HT'. injection HT' as -> _. congruence. }
  split.
  - split.
    + apply (respects_Refresh w tt w' Hw H).
    + by apply (refreshed_manager_ok w).
    + intros p [e Hp]. rewrite (rf_entities _ _ Href).
      destruct (Hkeep p e Hp) as [Hp0 Ha].
      apply elem_of_List_filter. split; [apply Hr; by eexists|].
      unfold alive_in. rewrite Hp0. exact Ha.
    + intros c [comp Hc]. rewrite Hnc. apply Hf.
      exists comp. eapply lookup_weaken; eassumption.
    + intros p e Hp. destruct (Hkeep p e Hp) as [Hp0 _]. by eapply Hd.
    + intros p e c Hp Hc. rewrite (Hcomp p e c Hp Hc).
      destruct (Hkeep p e Hp) as [Hp0 _]. by apply (Ho p e c).
    + intros p e id Hp Hb. destruct (Hkeep p e Hp) as [Hp0 _].
      destruct (Ht p e id Hp0 Hb) as (c & T & Hslot & Hin & Hc & Hid).
      exists c, T. rewrite (Hcomp p e c Hp Hin), (rf_registry _ _ Href). done.
  - split.
    + rewrite (rf_nextEntity _ _ Href). lia.
    + lia.
    + intros p e' _ Hp. destruct (Hkeep p e' Hp) as [Hp0 _]. exists e'. done.
    + intros c comp _ Hc. eapply lookup_weaken; eassumption.
Qed.

Lemma maintains_Refresh : maintains EntityManager_Refresh.
Proof. intros w [] w'. apply Refresh_sound. Qed.

Lemma maintains_AddEntity : maintains EntityManager_AddEntity.
Proof.
  intros w p w1 Hs H. pose proof Hs as [Hw Hm Hr Hf Hd Ho Ht].
  pose proof (respects_AddEntity w p w1 Hw H) as [Hw1 _].
  injection H as <- <-.
  assert (Hfresh : entityHeap w !! nextEntity w = None).
  { destruct (entityHeap w !! nextEntity w) as [ent|] eqn:He; [|reflexivity].
    destruct (Hw _ _ He) as [Hlt _]. lia. }
  set (p := nextEntity w) in *.
  assert (Hnotin : p ∉ entities (manager w)).
  { intros Hin. pose proof (mo_entities _ Hm) as Hall.
    rewrite list.Forall_forall in Hall. destruct (Hall p Hin) as [ent He].
    congruence. }
  split.
  - split.
    + exact Hw1.
    + destruct Hm as [Hlen Hnd Hent Hgrp]. split; cbn.
      * exact Hlen.
      * apply list.NoDup_app. split_and!; [exact Hnd | | apply list.NoDup_singleton].
        intros x Hx Hx'. apply list_elem_of_singleton in Hx'. subst x. contradiction.
      * apply Forall_app. split.
        -- eapply list.Forall_impl; [exact Hent|]. intros q. apply allocated_insert.
        -- apply Forall_singleton. unfold allocated. rewrite lookup_insert_eq. eauto.
      * eapply list.Forall_impl; [exact Hgrp|]. intros v Hv.
        eapply list.Forall_impl; [exact Hv|]. intros q. apply allocated_insert.
    + intros q [eq Hq]. cbn in Hq |- *. rewrite lookup_insert in Hq.
      apply elem_of_app. case_decide as Hd'.
      * right. subst q. apply list_elem_of_here.
      * left. apply Hr. by eexists.
    + exact Hf.
    + intros q eq. cbn. rewrite lookup_insert. case_decide as Hd'.
      * intros [= <-]. apply NoDup_nil_2.
      * apply Hd.
    + intros q eq c. cbn. rewrite lookup_insert. case_decide as Hd'.
      * intros [= <-] Hc. by apply elem_of_nil in Hc.
      * apply Ho.
    + intros q eq id. cbn. rewrite lookup_insert. case_decide as Hd'.
      * intros [= <-]. change (componentBitset Entity_new) with 0.
        rewrite N.bits_0. discriminate.
      * apply Ht.
  - split; cbn; [lia | lia | | done].
    intros q e' Hq. rewrite lookup_insert_ne by (subst p; lia).
    intros H. exists e'. done.
Qed.

(** The state in which [AddComponent] calls [Initialize]. *)
Lemma attached_sound T e ent id r w :
  sound w -> entityHeap w !! e = Some ent ->
  GetComponentTypeID T (registry w) = (id, r) ->
  N.testbit (componentBitset ent) id = false ->
  (N.to_nat id < length (componentArray ent))%nat ->
  sound (attached T e ent id r w) /\ follows w (attached T e ent id r w).
Proof.
  intros Hs He Hid Hbit Hlen. pose proof Hs as [Hw Hm Hr Hf Hd Ho Ht].
  pose proof (GetComponentTypeID_grows _ _ _ _ Hid) as Hgrow.
  set (c := nextComponent w).
  assert (Hold : forall c', is_Some (componentHeap w !! c') -> c' <> c).
  { intros c' Hc' ->. apply Hf in Hc'. subst c. lia. }
  assert (Hnotin : forall q eq, entityHeap w !! q = Some eq -> c ∉ components eq).
  { intros q eq Hq Hin. destruct (Ho q eq c Hq Hin) as (T' & HT').
    apply (Hold c); [by eexists | reflexivity]. }
  assert (Hother : forall q eq c', entityHeap w !! q = Some eq -> c' ∈ components eq ->
            <[c := mkComponent (Some e) T]> (componentHeap w) !! c'
            = componentHeap w !! c').
  { intros q eq c' Hq Hc'. apply lookup_insert_ne. intros <-.
    by apply (Hnotin q eq Hq). }
  split.
  - split.
    + apply (attached_advances T e ent id r w Hw He Hid Hbit).
    + destruct Hm as [Hl Hnd Hent Hgrp]. split; cbn [attached manager entityHeap].
      * exact Hl.
      * exact Hnd.
      * eapply list.Forall_impl; [exact Hent|]. intros q. apply allocated_insert.
      * eapply list.Forall_impl; [exact Hgrp|]. intros v Hv.
        eapply list.Forall_impl; [exact Hv|]. intros q. apply allocated_insert.
    + intros q [eq Hq]. cbn [attached manager entityHeap] in Hq |- *. apply Hr.
      rewrite lookup_insert in Hq. case_decide; [subst q|]; by eexists.
    + intros c' [comp Hc']. cbn [attached componentHeap nextComponent] in Hc' |- *.
      rewrite lookup_insert in Hc'. fold c in Hc' |- *. case_decide as Hd'.
      * subst c'. lia.
      * assert (c' < c)%nat; [|lia]. apply Hf. by eexists.
    + intros q eq. cbn [attached entityHeap]. rewrite lookup_insert.
      case_decide as Hq.
      * subst q. intros [= <-]. cbn. apply list.NoDup_app. split_and!.
        -- by eapply Hd.
        -- intros x Hx Hx'. apply list_elem_of_singleton in Hx'. subst x.
           by apply (Hnotin e ent He).
        -- apply list.NoDup_singleton.
      * apply Hd.
    + intros q eq c'. cbn [attached entityHeap componentHeap]. fold c.
      rewrite lookup_insert. case_decide as Hq.
      * subst q. intros [= <-]. cbn. intros Hc'. apply elem_of_app in Hc' as [Hc'|Hc'].
        -- rewrite (Hother e ent c' He Hc'). by apply (Ho e ent c').
        -- apply list_elem_of_singleton in Hc'. subst c'.
           rewrite lookup_insert_eq. eauto.
      * intros Hq' Hc'. rewrite (Hother q eq c' Hq' Hc'). by apply (Ho q eq c').
    + intros q eq i. cbn [attached entityHeap componentHeap registry]. fold c.
      rewrite lookup_insert. case_decide as Hq.
      * subst q. intros [= <-].
        unfold attach. cbn [componentBitset componentArray components
                            with_componentBitset with_componentArray with_components].
        destruct (decide (i = id)) as [->|Hne].
        -- intros _. exists c, T. split_and!.
           ++ by apply list_lookup_insert_eq.
           ++ apply elem_of_app. right. apply list_elem_of_here.
           ++ apply lookup_insert_eq.
           ++ by eapply GetComponentTypeID_registered.
        -- rewrite N.setbit_neq by done. intros Hb.
           destruct (Ht e ent i He Hb) as (c' & T' & Hslot & Hin & Hc' & Hi).
           exists c', T'. split_and!.
           ++ rewrite list_lookup_insert_ne by lia. exact Hslot.
           ++ apply elem_of_app. by left.
           ++ rewrite (Hother e ent c' He Hin). exact Hc'.
           ++ eapply lookup_weaken; eassumption.
      * intros Hq' Hb.
        destruct (Ht q eq i Hq' Hb) as (c' & T' & Hslot & Hin & Hc' & Hi).
        exists c', T'. split_and!; try assumption.
        -- rewrite (Hother q eq c' Hq' Hin). exact Hc'.
        -- eapply lookup_weaken; eassumption.
  - split; cbn [attached nextEntity nextComponent entityHeap componentHeap].
    + lia.
    + lia.
    + intros q e' _. rewrite lookup_insert. case_decide as Hq.
      * subst q. intros [= <-]. exists ent. split_and!; [exact He | done |].
        cbn. by apply prefix_app_r.
      * intros H. exists e'. done.
    + intros c' comp Hc'. rewrite lookup_insert_ne by (fold c; lia). done.
Qed.

Lemma maintains_check_components e cs : maintains (check_components e cs).
Proof.
  unfold check_components. apply maintains_bind; [apply maintains_deref|].
  intros ent. case_decide; [apply maintains_ret | apply maintains_undefined].
Qed.

Lemma maintains_check_entities es : maintains (check_entities es).
Proof.
  unfold check_entities. apply maintains_bind; [apply maintains_get|].
  intros w. case_decide; [apply maintains_ret | apply maintains_undefined].
Qed.

Lemma maintains_owner c : maintains (owner c).
Proof.
  intros w a w' Hs H. unfold owner in H.
  destruct (componentHeap w !! c) as [[[e|] ?]|]; try discriminate.
  injection H as <- <-. split; [exact Hs | apply follows_refl].
Qed.

Section Maintained.
Context (vt : VTable).
Hypothesis hooks : hooks_maintain vt.

Lemma maintains_virtual_call ev (hook : TypeKey -> CompPtr -> M unit) c :
  (forall T c, maintains (hook T c)) -> maintains (virtual_call ev hook c).
Proof.
  intros Hhook w a w' Hs H. unfold virtual_call in H.
  destruct (componentHeap w !! c) as [comp|]; [|discriminate].
  destruct (hook (dynType comp) c w) as [[[] wi]| |] eqn:Hrun; try discriminate.
  injection H as <- <-.
  destruct (Hhook _ _ _ _ _ Hs Hrun) as [Hsi Hfi].
  destruct (sound_set_trace (trace w ++ [ev]) wi Hsi) as [Hs' Hf'].
  split; [exact Hs' | by eapply follows_trans].
Qed.

Lemma maintains_Entity_Update e frameTime :
  maintains (Entity_Update vt e frameTime).
Proof.
  unfold Entity_Update. apply maintains_bind; [apply maintains_deref|].
  intros ent. apply maintains_for_each. intros c _.
  apply maintains_bind; [|intros _; apply maintains_check_components].
  apply maintains_virtual_call. intros T c'. apply hooks.
Qed.

Lemma maintains_Entity_Draw e : maintains (Entity_Draw vt e).
Proof.
  unfold Entity_Draw. apply maintains_bind; [apply maintains_deref|].
  intros ent. apply maintains_for_each. intros c _.
  apply maintains_bind; [|intros _; apply maintains_check_components].
  apply maintains_virtual_call, hooks.
Qed.

Lemma maintains_EntityManager_Update frameTime :
  maintains (EntityManager_Update vt frameTime).
Proof.
  unfold EntityManager_Update. apply maintains_bind; [apply maintains_get|].
  intros w. apply maintains_for_each. intros e _.
  apply maintains_bind; [apply maintains_Entity_IsActive|]. intros isActive.
  apply maintains_bind; [|intros _; apply maintains_check_entities].
  destruct isActive; [apply maintains_Entity_Update | apply maintains_ret].
Qed.

Lemma maintains_EntityManager_Draw : maintains (EntityManager_Draw vt).
Proof.
  unfold EntityManager_Draw. apply maintains_bind; [apply maintains_get|].
  intros w. apply maintains_for_each. intros e _.
  apply maintains_bind; [apply maintains_Entity_IsActive|]. intros isActive.
  apply maintains_bind; [|intros _; apply maintains_check_entities].
  destruct isActive; [apply maintains_Entity_Draw | apply maintains_ret].
Qed.

Lemma maintains_Entity_AddComponent T e : maintains (Entity_AddComponent vt T e).
Proof.
  intros w c w1 Hs H.
  apply Entity_AddComponent_inv in H
    as (ent & id & r & wi & He & Hid & Hlt & Hbit & Hlen & -> & Hinit & ->).
  destruct (attached_sound T e ent id r w Hs He Hid Hbit Hlen) as [Hsa Hfa].
  destruct hooks as (Hinitialize & _ & _).
  destruct (Hinitialize _ _ _ _ _ Hsa Hinit) as [Hsi Hfi].
  destruct (sound_set_trace (trace w ++ [EvInitialize (nextComponent w)]) wi Hsi)
    as [Hs' Hf'].
  split; [exact Hs'|].
  eapply follows_trans; [exact Hfa|]. by eapply follows_trans.
Qed.

Lemma maintains_run_call c : client_call c -> maintains (run_call vt c).
Proof.
  intros Hc. destruct c; cbn [run_call]; try apply maintains_then_ret.
  - apply maintains_typeIdOf.
  - apply maintains_Entity_Update.
  - apply maintains_Entity_Draw.
  - apply maintains_Entity_IsAlive.
  - apply maintains_Entity_Destroy.
  - apply maintains_Entity_IsActive.
  - apply maintains_Entity_Enable.
  - apply maintains_Entity_Disable.
  - apply maintains_Entity_HasComponent.
  - apply maintains_Entity_HasGroup.
  - apply maintains_Entity_AddGroup.
  - apply maintains_Entity_DelGroup.
  - apply maintains_Entity_AddComponent.
  - apply maintains_Entity_GetComponent.
  - apply maintains_EntityManager_Update.
  - apply maintains_EntityManager_Draw.
  - destruct Hc.
  - apply maintains_bucket.
  - apply maintains_Refresh.
  - apply maintains_AddEntity.
Qed.

Lemma maintains_run_calls cs : Forall client_call cs -> maintains (run_calls vt cs).
Proof.
  intros Hcs. apply maintains_for_each. intros c Hc.
  apply maintains_run_call. rewrite list.Forall_forall in Hcs. by apply Hcs.
Qed.
End Maintained.

Lemma World_init_sound : sound World_init.
Proof.
  split.
  - apply map_Forall_empty.
  - split; cbn.
    + by rewrite length_replicate.
    + apply NoDup_nil_2.
    + apply Forall_nil_2.
    + apply Forall_replicate. apply Forall_nil_2.
  - intros p [e He]. cbn in He. by rewrite lookup_empty in He.
  - intros c [comp Hc]. cbn in Hc. by rewrite lookup_empty in Hc.
  - intros p e He. cbn in He. by rewrite lookup_empty in He.
  - intros p e c He. cbn in He. by rewrite lookup_empty in He.
  - intros p e id He. cbn in He. by rewrite lookup_empty in He.
Qed.

Lemma Component_vtable_maintains : hooks_maintain Component_vtable.
Proof. split_and!; intros; apply maintains_ret. Qed.

Lemma maintains_vector_at {A} (v : list A) i : maintains (vector_at v i).
Proof.
  unfold vector_at. case_decide; [|apply maintains_undefined].
  destruct (v !! Z.to_nat i); [apply maintains_ret | apply maintains_undefined].
Qed.

Lemma maintains_int_incr i : maintains (int_incr i).
Proof.
  unfold int_incr. case_decide; [apply maintains_ret | apply maintains_undefined].
Qed.

Lemma maintains_UseShipWeapon (group : Group) (i : Z) :
  maintains
    (let! bulletList := EntityManager_GetEntitiesByGroup group in
     let! bullet := vector_at bulletList i in
     Entity_GetComponent "Transform" bullet ;;
     let! bullet := vector_at bulletList i in
     Entity_Enable bullet ;;
     int_incr i).
Proof.
  apply maintains_bind; [apply maintains_bucket|]. intros l.
  apply maintains_bind; [apply maintains_vector_at|]. intros b.
  apply maintains_bind; [apply maintains_Entity_GetComponent|]. intros _.
  apply maintains_bind; [apply maintains_vector_at|]. intros b'.
  apply maintains_bind; [apply maintains_Entity_Enable|]. intros _.
  apply maintains_int_incr.
Qed.

Lemma sound_application a w : sound w -> sound (set_application a w).
Proof.
  intros [H1 [] H3 H4 H5 H6 H7]. split; [exact H1 | by split | assumption..].
Qed.

Lemma follows_application a w : follows w (set_application a w).
Proof.
  split; cbn; [lia | lia | | done]. intros p e' _ H. exists e'. done.
Qed.

Lemma maintains_PlayerController_this c : maintains (PlayerController_this c).
Proof. intros w a w' Hs [= <- <-]. split; [exact Hs | apply follows_refl]. Qed.

Lemma maintains_PlayerController_assign c this :
  maintains (PlayerController_assign c this).
Proof.
  intros w a w' Hs [= <- <-].
  split; [by apply sound_application | apply follows_application].
Qed.

Lemma maintains_WeaponAIController_this c :
  maintains (WeaponAIController_this c).
Proof. intros w a w' Hs [= <- <-]. split; [exact Hs | apply follows_refl]. Qed.

Lemma maintains_WeaponAIController_assign c this :
  maintains (WeaponAIController_assign c this).
Proof.
  intros w a w' Hs [= <- <-].
  split; [by apply sound_application | apply follows_application].
Qed.

Lemma maintains_rndEngine_call : maintains rndEngine_call.
Proof.
  intros w a w' Hs [= <- <-].
  split; [by apply sound_application | apply follows_application].
Qed.

Lemma maintains_GetNextFireTimePoint c : maintains (GetNextFireTimePoint c).
Proof.
  apply maintains_bind; [apply maintains_rndEngine_call|]. intros x.
  apply maintains_bind; [apply maintains_WeaponAIController_this|]. intros this.
  apply maintains_WeaponAIController_assign.
Qed.

Lemma maintains_PlayerController_Update Space c frameTime :
  maintains (PlayerController_Update Space c frameTime).
Proof.
  apply maintains_bind; [apply maintains_PlayerController_this|]. intros this.
  apply maintains_bind; [apply maintains_PlayerController_assign|]. intros _.
  apply maintains_bind; [apply maintains_get|]. intros w.
  destruct (Space (trace w)); [|apply maintains_ret].
  destruct (float_gt _ _); [|apply maintains_ret].
  apply maintains_bind; [apply maintains_UseShipWeapon|]. intros i.
  apply maintains_PlayerController_assign.
Qed.

Lemma maintains_WeaponAIController_Update c frameTime :
  maintains (WeaponAIController_Update c frameTime).
Proof.
  apply maintains_bind; [apply maintains_WeaponAIController_this|]. intros this.
  apply maintains_bind; [apply maintains_WeaponAIController_assign|]. intros _.
  destruct (float_gt _ _); [|apply maintains_ret].
  apply maintains_bind; [apply maintains_UseShipWeapon|]. intros i.
  apply maintains_bind; [apply maintains_WeaponAIController_assign|]. intros _.
  apply maintains_bind; [apply maintains_GetNextFireTimePoint|]. intros _.
  apply maintains_bind; [apply maintains_WeaponAIController_this|]. intros this'.
  apply maintains_WeaponAIController_assign.
Qed.

Lemma game_vtable_maintains Space : hooks_maintain (game_vtable Space).
Proof.
  split_and!.
  - intros T c. cbn [game_vtable vInitialize].
    repeat case_decide; try apply maintains_ret.
    + apply maintains_bind; [apply maintains_owner|]. intros e.
      apply maintains_bind; [apply maintains_Entity_GetComponent|]. intros _.
      apply maintains_GetNextFireTimePoint.
    + apply maintains_bind; [apply maintains_owner|]. intros e.
      apply maintains_bind; [apply maintains_Entity_GetComponent|]. intros _.
      apply maintains_ret.
    + apply maintains_bind; [apply maintains_owner|]. intros e.
      apply maintains_bind; [apply maintains_Entity_GetComponent|]. intros _.
      apply maintains_bind; [apply maintains_Entity_GetComponent|]. intros _.
      apply maintains_ret.
  - intros T c frameTime. cbn [game_vtable vUpdate].
    case_decide; [|case_decide; [|apply maintains_ret]].
    + apply maintains_PlayerController_Update.
    + apply maintains_WeaponAIController_Update.
  - intros T c. apply maintains_ret.
Qed.

Lemma demo_vtable_maintains : hooks_maintain demo_vtable.
Proof.
  split_and!; try (intros; apply maintains_ret).
  intros T c frameTime. cbn [demo_vtable vUpdate].
  case_decide as HT; [|apply maintains_ret].
  intros w a w' Hs H. unfold destroy_owner in H.
  destruct (owner c w) as [[e w0]| |] eqn:Hown;
    try (injection H as <- <-; split; [exact Hs | apply follows_refl]).
  destruct (Entity_Destroy e w) as [[[] wd]| |] eqn:Hd;
    try (injection H as <- <-; split; [exact Hs | apply follows_refl]).
  injection H as <- <-. by apply (maintains_Entity_Destroy e w tt).
Qed.

Lemma game_world_run :
  run_calls (game_vtable Space_held) game_setup World_init = Ok (tt, game_world).
Proof. vm_compute. reflexivity. Qed.

Lemma demo_world_run :
  run_calls Component_vtable demo_setup World_init = Ok (tt, demo_world).
Proof. vm_compute. reflexivity. Qed.

Lemma game_world_sound : sound game_world.
Proof.
  refine (proj1 (maintains_run_calls (game_vtable Space_held) (game_vtable_maintains Space_held) game_setup
                   _ World_init tt game_world World_init_sound game_world_run)).
  repeat constructor.
Qed.

Lemma demo_world_sound : sound demo_world.
Proof.
  refine (proj1 (maintains_run_calls Component_vtable Component_vtable_maintains
                   demo_setup _ World_init tt demo_world World_init_sound
                   demo_world_run)).
  repeat constructor.
Qed.

(** X9: the member functions keep the data of the framework sound. The
    state at program start is sound; and from a sound state, any calls a
    client makes on entities and on the manager, with hooks that keep to the
    same, end in a sound state if they end: the manager has its 32 buckets
    and owns each entity once, none of its pointers dangles, every entity on
    the heap is in its collection, every entity holds its components once,
    each allocated with its [entity] member pointing back, and every bit of
    [componentBitset] that is set has a component of the entity, of the type
    with that ID, in its slot of [componentArray]. *)
Theorem framework_keeps_data_sound (vt : VTable) :
  sound World_init
  /\ (hooks_maintain vt ->
      forall calls w w',
        sound w -> Forall client_call calls ->
        run_calls vt calls w = Ok (tt, w') ->
        sound w').
Proof.
  split; [exact World_init_sound|].
  intros Hhooks calls w w' Hs Hcalls Hrun.
  exact (proj1 (maintains_run_calls vt Hhooks calls Hcalls w tt w' Hs Hrun)).
Qed.

Lemma framework_keeps_data_sound_witness :
  sound game_world
  /\ entities (manager game_world) = [0; 1; 2]%nat.
Proof.
  split; [|vm_compute; reflexivity].
  destruct (framework_keeps_data_sound (game_vtable Space_held)) as [Hinit Hkeep].
  apply (Hkeep (game_vtable_maintains Space_held) game_setup World_init game_world Hinit).
  - repeat constructor.
  - vm_compute. reflexivity.
Defined.

Lemma Entity_Destroy_inv e w a w1 :
  Entity_Destroy e w = Ok (a, w1) ->
  exists ent, entityHeap w !! e = Some ent /\ w1 = poke e (with_alive false ent) w.
Proof.
  intros H. unfold Entity_Destroy in H.
  apply bind_inv in H as (ent & w0 & Hd & Hst). apply deref_inv in Hd as [-> He].
  rewrite store_run in Hst. injection Hst as _ <-. eauto.
Qed.

Lemma dead_stays_dead w w' e ent ent' :
  world_ok w -> follows w w' ->
  entityHeap w !! e = Some ent -> alive ent = false ->
  entityHeap w' !! e = Some ent' -> alive ent' = false.
Proof.
  intros Hw Hf He Hdead He'. destruct (Hw e ent He) as [Hlt _].
  destruct (fo_entities _ _ Hf e ent' Hlt He') as (ent0 & He0 & Hal & _).
  apply Hal. congruence.
Qed.

Lemma freed_stays_freed w w' e :
  follows w w' -> (e < nextEntity w)%nat ->
  entityHeap w !! e = None -> entityHeap w' !! e = None.
Proof.
  intros Hf Hlt He. destruct (entityHeap w' !! e) as [ent'|] eqn:He'; [|reflexivity].
  destruct (fo_entities _ _ Hf e ent' Hlt He') as (ent0 & He0 & _). congruence.
Qed.

(** X10: [Destroy] is final. Once [e.Destroy()] has been called, whatever a
    client and the hooks call afterwards, [e.IsAlive()] is false for as long
    as the entity exists; no member function sets [alive] again. And if the
    calls include a [Refresh], the entity is gone: it was freed by the first
    one and the pointer dangles from then on. *)
Theorem Destroy_is_final
    (vt : VTable) (e : EntityPtr) (w w1 : World) (calls : list Call) (w2 : World) :
  hooks_maintain vt ->
  sound w ->
  Entity_Destroy e w = Ok (tt, w1) ->
  Forall client_call calls ->
  run_calls vt calls w1 = Ok (tt, w2) ->
  (Entity_IsAlive e w2 = Ok (false, w2) \/ entityHeap w2 !! e = None)
  /\ (CallRefresh ∈ calls -> entityHeap w2 !! e = None).
Proof.
  intros Hhooks Hs Hd Hcalls Hrun.
  destruct (maintains_Entity_Destroy e w tt w1 Hs Hd) as [Hs1 _].
  apply Entity_Destroy_inv in Hd as (ent & He & ->).
  set (w1 := poke e (with_alive false ent) w) in *.
  assert (He1 : entityHeap w1 !! e = Some (with_alive false ent))
    by apply lookup_insert_eq.
  destruct (so_world _ Hs1 e _ He1) as [Hlt1 _].
  split.
  - destruct (maintains_run_calls vt Hhooks calls Hcalls w1 tt w2 Hs1 Hrun)
      as [Hs2 Hf2].
    destruct (entityHeap w2 !! e) as [ent2|] eqn:He2; [left | by right].
    rewrite (Entity_IsAlive_run e ent2 w2 He2).
    by rewrite (dead_stays_dead w1 w2 e _ ent2 (so_world _ Hs1) Hf2 He1 eq_refl He2).
  - intros Hin. apply list_elem_of_split in Hin as (l1 & l2 & ->).
    apply Forall_app in Hcalls as [Hl1 Hl2].
    apply list.Forall_cons in Hl2 as [_ Hl2].
    unfold run_calls in Hrun. apply for_each_app_inv in Hrun as (wa & Hrun1 & Hrun).
    cbn [for_each run_call] in Hrun. apply bind_inv in Hrun as ([] & wb & Href & Hrun2).
    destruct (maintains_run_calls vt Hhooks l1 Hl1 w1 tt wa Hs1 Hrun1) as [Hsa Hfa].
    destruct (Refresh_sound wa wb Hsa Href) as [Hsb Hfb].
    destruct (maintains_run_calls vt Hhooks l2 Hl2 wb tt w2 Hsb Hrun2) as [_ Hf2].
    pose proof (fo_nextEntity _ _ Hfa) as Hna.
    pose proof (fo_nextEntity _ _ Hfb) as Hnb.
    apply (freed_stays_freed wb w2 e Hf2); [lia|].
    destruct (entityHeap wa !! e) as [enta|] eqn:Hea.
    + pose proof (dead_stays_dead w1 wa e _ enta (so_world _ Hs1) Hfa He1 eq_refl Hea)
        as Hdead.
      destruct (Refresh_run wa (so_manager _ Hsa)) as (wb' & Href' & Hr).
      assert (wb' = wb) as -> by congruence.
      rewrite (rf_heap _ _ Hr). rewrite decide_True; [reflexivity|]. split.
      * apply (so_reachable _ Hsa). by eexists.
      * unfold alive_in. rewrite Hea. exact Hdead.
    + apply (freed_stays_freed wa wb e Hfb); [lia | exact Hea].
Qed.

Lemma Destroy_is_final_witness :
  let w1 := default World_init (world_after (Entity_Destroy 1%nat game_world)) in
  let calls := [CallEnable 1%nat; CallAddGroup 1%nat 0; CallRefresh; CallAddEntity] in
  let w2 := default World_init (world_after (run_calls (game_vtable Space_held) calls w1)) in
  Entity_IsAlive 1%nat game_world = Ok (true, game_world)
  /\ entityHeap w2 !! 1%nat = None.
Proof.
  intros w1 calls w2. split; [vm_compute; reflexivity|].
  apply (Destroy_is_final (game_vtable Space_held) 1%nat game_world w1 calls w2).
  - exact (game_vtable_maintains Space_held).
  - exact game_world_sound.
  - vm_compute. reflexivity.
  - repeat constructor.
  - vm_compute. reflexivity.
  - vm_compute. apply list_elem_of_further, list_elem_of_further, list_elem_of_here.
Defined.

(** X11: components are attached for good. Whatever a client and the hooks
    call, as long as the entity exists its [components] vector keeps the
    components it had, in their order, with any new ones after them (so
    [Update] and [Draw] keep taking them in the order of attachment), and
    each of these components is still allocated, the same object with the
    same owner: a pointer to a component stays valid for the life of its
    entity. *)
Theorem components_stay_attached
    (vt : VTable) (e : EntityPtr) (ent : Entity) (calls : list Call)
    (w w2 : World) (ent2 : Entity) :
  hooks_maintain vt ->
  sound w ->
  entityHeap w !! e = Some ent ->
  Forall client_call calls ->
  run_calls vt calls w = Ok (tt, w2) ->
  entityHeap w2 !! e = Some ent2 ->
  components ent `prefix_of` components ent2
  /\ forall c, c ∈ components ent ->
       exists T, componentHeap w !! c = Some (mkComponent (Some e) T)
                 /\ componentHeap w2 !! c = Some (mkComponent (Some e) T).
Proof.
  intros Hhooks Hs He Hcalls Hrun He2.
  destruct (maintains_run_calls vt Hhooks calls Hcalls w tt w2 Hs Hrun) as [Hs2 Hf].
  destruct (so_world _ Hs e ent He) as [Hlt _].
  destruct (fo_entities _ _ Hf e ent2 Hlt He2) as (ent0 & He0 & _ & Hpre).
  assert (ent0 = ent) as -> by congruence.
  split; [exact Hpre|]. intros c Hc.
  destruct (so_owned _ Hs e ent c He Hc) as (T & HT).
  assert (Hc2 : c ∈ components ent2).
  { destruct Hpre as [k ->]. apply elem_of_app. by left. }
  destruct (so_owned _ Hs2 e ent2 c He2 Hc2) as (T2 & HT2).
  assert (Hltc : (c < nextComponent w)%nat).
  { apply (so_fresh _ Hs). by eexists. }
  pose proof (fo_components _ _ Hf c _ Hltc HT2) as HT'.
  exists T. split; [exact HT | congruence].
Qed.

Lemma components_stay_attached_witness :
  let calls := [CallAddComponent "WeaponAIController" 0%nat; CallDestroy 0%nat;
                CallUpdate (float_of_int 1)]%string in
  let w2 := default World_init (world_after (run_calls (game_vtable Space_held) calls game_world)) in
  (components <$> entityHeap game_world !! 0%nat) = Some [0; 1; 2; 3]%nat
  /\ (components <$> entityHeap w2 !! 0%nat) = Some [0; 1; 2; 3; 10]%nat
  /\ componentHeap w2 !! 3%nat = Some (mkComponent (Some 0%nat) "PlayerController").
Proof.
  intros calls w2.
  split; [vm_compute; reflexivity|]. split; [vm_compute; reflexivity|].
  set (ent := default Entity_new (entityHeap game_world !! 0%nat)).
  set (ent2 := default Entity_new (entityHeap w2 !! 0%nat)).
  destruct (components_stay_attached (game_vtable Space_held) 0%nat ent calls game_world w2 ent2)
    as [_ Hkept].
  - exact (game_vtable_maintains Space_held).
  - exact game_world_sound.
  - vm_compute. reflexivity.
  - repeat constructor.
  - vm_compute. reflexivity.
  - vm_compute. reflexivity.
  - destruct (Hkept 3%nat) as (T & HT & HT2).
    + vm_compute. do 3 apply list_elem_of_further. apply list_elem_of_here.
    + rewrite HT2. vm_compute in HT. injection HT as <-. reflexivity.
Defined.

(** X12: in a sound state [GetComponent<T>()] is checked and typed. Called
    on an entity that exists, for a type whose ID is below 32, it either
    fails its assertion, when the bit of [T] is not set, or returns; there is
    no undefined behaviour. What it returns is a component of the entity,
    allocated, with its [entity] member pointing to the entity and, as long
    as the counter of the registry has not wrapped, of dynamic type [T]: the
    [reinterpret_cast<T*>] is right. *)
Theorem GetComponent_checked_and_typed
    (T : TypeKey) (e : EntityPtr) (ent : Entity) (id : ComponentID)
    (r : Registry) (w : World) :
  sound w ->
  entityHeap w !! e = Some ent ->
  GetComponentTypeID T (registry w) = (id, r) ->
  id < maxComponents ->
  registry_inv r ->
  if N.testbit (componentBitset ent) id
  then exists c,
         Entity_GetComponent T e w = Ok (c, set_registry r w)
         /\ c ∈ components ent
         /\ componentHeap w !! c = Some (mkComponent (Some e) T)
  else Entity_GetComponent T e w = AssertFail.
Proof.
  intros Hs He Hid Hlt Hinv.
  unfold Entity_GetComponent.
  rewrite (bind_run _ _ _ _ _ (Entity_HasComponent_run T e ent w id r He Hid Hlt)).
  destruct (N.testbit (componentBitset ent) id) eqn:Hbit; [|reflexivity].
  destruct (so_table _ Hs e ent id He Hbit) as (c & T' & Hslot & Hin & Hc & Hreg').
  pose proof (GetComponentTypeID_registered _ _ _ _ Hid) as Hreg.
  pose proof (lookup_weaken _ _ _ _ Hreg' (GetComponentTypeID_grows _ _ _ _ Hid))
    as Hreg''.
  assert (T' = T) as -> by apply (ri_inj _ Hinv T' T id Hreg'' Hreg).
  exists c. split_and!; [|exact Hin|exact Hc].
  unfold assert_ at 1. unfold bind at 1.
  rewrite (bind_run _ _ _ _ _ (typeIdOf_known T (set_registry r w) id Hreg)).
  assert (He' : entityHeap (set_registry r w) !! e = Some ent) by exact He.
  rewrite (bind_run _ _ _ _ _ (deref_run _ _ _ He')).
  rewrite Hslot. reflexivity.
Qed.

Lemma game_world_registry :
  registry game_world =
    (type_id_calls ["Transform"; "Physics"; "RectangleRenderer"; "PlayerController"]
       registry_init).2.
Proof. vm_compute. reflexivity. Qed.

Lemma GetComponent_checked_and_typed_witness :
  (exists c,
     Entity_GetComponent "Physics" 1%nat game_world = Ok (c, game_world)
     /\ componentHeap game_world !! c = Some (mkComponent (Some 1%nat) "Physics"))
  /\ Entity_GetComponent "PlayerController" 1%nat game_world = AssertFail.
Proof.
  set (ent := default Entity_new (entityHeap game_world !! 1%nat)).
  assert (Hent : entityHeap game_world !! 1%nat = Some ent) by (vm_compute; reflexivity).
  assert (Hinv : registry_inv (registry game_world)).
  { rewrite game_world_registry.
    assert (Hroom : N.of_nat (size (dom (typeID registry_init)
                      ∪ list_to_set ["Transform"; "Physics"; "RectangleRenderer";
                                     "PlayerController"]%string)) <= size_t_modulus)
      by (vm_compute; discriminate).
    exact (proj1 (type_id_calls_spec _ registry_init registry_init_inv Hroom)). }
  split.
  - pose proof (GetComponent_checked_and_typed "Physics" 1%nat ent 1
                  (registry game_world) game_world game_world_sound Hent
                  ltac:(vm_compute; reflexivity) ltac:(vm_compute; reflexivity) Hinv)
      as H.
    change (N.testbit (componentBitset ent) 1) with true in H.
    destruct H as (c & Hrun & _ & Hc). exists c. split; [|exact Hc].
    assert (Hw : set_registry (registry game_world) game_world = game_world)
      by (vm_compute; reflexivity).
    rewrite Hw in Hrun. exact Hrun.
  - pose proof (GetComponent_checked_and_typed "PlayerController" 1%nat ent 3
                  (registry game_world) game_world game_world_sound Hent
                  ltac:(vm_compute; reflexivity) ltac:(vm_compute; reflexivity) Hinv)
      as H.
    exact H.
Defined.

Lemma sound_components_ok w : sound w -> components_ok w.
Proof.
  intros Hs p e He. apply list.Forall_forall. intros c Hc.
  destruct (so_owned _ Hs p e c He Hc) as (T & HT). by eexists.
Qed.

Lemma flat_map_frame_events frameTime w w1 :
  refreshed w w1 ->
  forall l,
    flat_map (update_events frameTime (entityHeap w1))
      (List.filter (alive_in (entityHeap w)) l)
    = flat_map (frame_events frameTime (entityHeap w)) l.
Proof.
  intros Href. induction l as [|p l IH]; [reflexivity|]. cbn [List.filter flat_map].
  destruct (alive_in (entityHeap w) p) eqn:Ha.
  - cbn [flat_map]. rewrite IH. f_equal.
    unfold update_events, frame_events. rewrite (refreshed_alive _ _ _ Href Ha).
    unfold alive_in in Ha. destruct (entityHeap w !! p) as [e|]; [|reflexivity].
    cbn in Ha. rewrite Ha. reflexivity.
  - rewrite IH. unfold frame_events. unfold alive_in in Ha.
    destruct (entityHeap w !! p) as [e|]; [|reflexivity].
    cbn in Ha. rewrite Ha. reflexivity.
Qed.

(** X13: a time slice of the game begins with [manager.Refresh();
    manager.Update(ftStep);]. From a sound state, with [Update] hooks that
    return and leave flags and containers alone, the two calls return, and
    the components updated are those of the entities that were alive and
    active when the slice began, entity by entity in the order of the
    collection: an entity destroyed during one slice is still updated to the
    end of that slice, and never in a later one. *)
Theorem UpdatePhase_step_updates_the_living
    (vt : VTable) (ftStep : FrameTime) (w : World) :
  update_hooks_keep_structure vt ->
  sound w ->
  exists w1 w2,
    EntityManager_Refresh w = Ok (tt, w1)
    /\ EntityManager_Update vt ftStep w1 = Ok (tt, w2)
    /\ UpdatePhase_step vt ftStep w = Ok (tt, w2)
    /\ entities (manager w2) =
         List.filter (alive_in (entityHeap w)) (entities (manager w))
    /\ trace w2 =
         trace w ++ flat_map (frame_events ftStep (entityHeap w))
                      (entities (manager w)).
Proof.
  intros Hhooks Hs.
  destruct (Refresh_run w (so_manager _ Hs)) as (w1 & Href & Hr).
  destruct (Refresh_sound w w1 Hs Href) as [Hs1 _].
  destruct (EntityManager_Update_run vt ftStep Hhooks w1
              (mo_entities _ (so_manager _ Hs1)) (sound_components_ok w1 Hs1))
    as (w2 & Hup & Hss & Ht).
  exists w1, w2. split_and!.
  - exact Href.
  - exact Hup.
  - unfold UpdatePhase_step. rewrite (bind_run _ _ _ _ _ Href). exact Hup.
  - rewrite (ss_entities _ _ Hss). apply (rf_entities _ _ Hr).
  - rewrite Ht, (rf_trace _ _ Hr), (rf_entities _ _ Hr). f_equal.
    apply flat_map_frame_events, Hr.
Qed.

Lemma UpdatePhase_step_updates_the_living_witness :
  let ftStep := float_of_int 1 in
  (alive <$> entityHeap demo_world !! 1%nat) = Some false
  /\ (active <$> entityHeap demo_world !! 2%nat) = Some false
  /\ exists w2,
       UpdatePhase_step demo_vtable ftStep demo_world = Ok (tt, w2)
       /\ entities (manager w2) = [0; 2]%nat
       /\ trace w2 = trace demo_world ++ [EvUpdate 0%nat ftStep; EvUpdate 1%nat ftStep].
Proof.
  intros ftStep.
  split; [vm_compute; reflexivity|]. split; [vm_compute; reflexivity|].
  destruct (UpdatePhase_step_updates_the_living demo_vtable ftStep demo_world)
    as (w1 & w2 & _ & _ & Hrun & Hes & Ht).
  - exact demo_vtable_keeps_structure.
  - exact demo_world_sound.
  - exists w2. split; [exact Hrun|]. split.
    + rewrite Hes. vm_compute. reflexivity.
    + rewrite Ht. f_equal.
Defined.

(** * The game: collisions *)

Lemma SFcompare_antisym (a b : float) :
  SFcompare b a = CompOpp <$> SFcompare a b.
Proof.
  destruct a as [sa|sa| |sa ma ea], b as [sb|sb| |sb mb eb]; cbn;
    try reflexivity; try (destruct sa; reflexivity); try (destruct sb; reflexivity);
    try (destruct sa, sb; reflexivity).
  destruct sa, sb; try reflexivity.
  - rewrite (Z.compare_antisym ea eb).
    destruct (ea ?= eb)%Z; cbn; try reflexivity.
    change (Pos.compare_cont Eq mb ma) with (mb ?= ma)%positive.
    change (Pos.compare_cont Eq ma mb) with (ma ?= mb)%positive.
    by rewrite (Pos.compare_antisym ma mb).
  - rewrite (Z.compare_antisym ea eb).
    destruct (ea ?= eb)%Z; cbn; try reflexivity.
    change (Pos.compare_cont Eq mb ma) with (mb ?= ma)%positive.
    change (Pos.compare_cont Eq ma mb) with (ma ?= mb)%positive.
    by rewrite (Pos.compare_antisym ma mb).
Qed.

Lemma float_ge_le a b : float_ge a b = float_le b a.
Proof.
  unfold float_ge, float_le, SFleb. rewrite (SFcompare_antisym a b).
  destruct (SFcompare a b) as [[]|]; reflexivity.
Qed.

Lemma float_le_nan a b : is_nan a || is_nan b = true -> float_le a b = false.
Proof.
  unfold float_le, SFleb.
  destruct a as [sa|sa| |sa ma ea], b as [sb|sb| |sb mb eb]; cbn; try discriminate;
    reflexivity.
Qed.

(** X14: the collision test is symmetric in its two arguments, and a box
    with a NaN among its bounds intersects nothing. *)
Theorem IsIntersecting_symmetric (A B : Physics.bounds) :
  IsIntersecting A B = IsIntersecting B A
  /\ (existsb is_nan [Physics.left A; Physics.right A; Physics.top A;
                      Physics.bottom A; Physics.left B; Physics.right B;
                      Physics.top B; Physics.bottom B] = true ->
      IsIntersecting A B = false).
Proof.
  unfold IsIntersecting. rewrite !float_ge_le. split.
  - destruct (float_le (Physics.left B) (Physics.right A)),
             (float_le (Physics.left A) (Physics.right B)),
             (float_le (Physics.top B) (Physics.bottom A)),
             (float_le (Physics.top A) (Physics.bottom B)); reflexivity.
  - cbn [existsb]. intros Hnan.
    repeat (apply orb_true_iff in Hnan as [Hnan|Hnan]); try discriminate.
    + rewrite (float_le_nan (Physics.left A) (Physics.right B)) by (by rewrite Hnan).
      by rewrite andb_false_r.
    + rewrite (float_le_nan (Physics.left B) (Physics.right A))
        by (rewrite Hnan; apply orb_true_r).
      reflexivity.
    + rewrite (float_le_nan (Physics.top A) (Physics.bottom B)) by (by rewrite Hnan).
      by rewrite andb_false_r.
    + rewrite (float_le_nan (Physics.top B) (Physics.bottom A))
        by (rewrite Hnan; apply orb_true_r).
      by rewrite andb_false_r.
    + rewrite (float_le_nan (Physics.left B) (Physics.right A)) by (by rewrite Hnan).
      reflexivity.
    + rewrite (float_le_nan (Physics.left A) (Physics.right B))
        by (rewrite Hnan; apply orb_true_r).
      by rewrite andb_false_r.
    + rewrite (float_le_nan (Physics.top B) (Physics.bottom A)) by (by rewrite Hnan).
      by rewrite andb_false_r.
    + rewrite (float_le_nan (Physics.top A) (Physics.bottom B))
        by (rewrite Hnan; apply orb_true_r).
      by rewrite andb_false_r.
Qed.

Lemma IsIntersecting_symmetric_witness :
  let one := float_of_int 1 in
  let A := Physics.mkBounds (S754_zero false) one (S754_zero false) one in
  let B := Physics.mkBounds S754_nan one (S754_zero false) one in
  IsIntersecting A A = true /\ IsIntersecting A B = false /\ IsIntersecting B A = false.
Proof.
  intros one A B. split; [reflexivity|].
  destruct (IsIntersecting_symmetric A B) as [Hsym Hnan].
  rewrite <- Hsym. split; apply Hnan; reflexivity.
Defined.

Lemma Entity_GetComponent_run T e ent id c w :
  entityHeap w !! e = Some ent ->
  typeID (registry w) !! T = Some id ->
  id < maxComponents ->
  N.testbit (componentBitset ent) id = true ->
  componentArray ent !! N.to_nat id = Some (Some c) ->
  Entity_GetComponent T e w = Ok (c, w).
Proof.
  intros He Hreg Hlt Hbit Hslot.
  assert (Hhas : Entity_HasComponent T e w = Ok (true, w)).
  { unfold Entity_HasComponent.
    rewrite (bind_run _ _ _ _ _ (typeIdOf_known _ _ _ Hreg)).
    rewrite (bind_run _ _ _ _ _ (deref_run _ _ _ He)).
    unfold bitset_get. apply N.ltb_lt in Hlt. rewrite Hlt, Hbit. reflexivity. }
  unfold Entity_GetComponent. rewrite (bind_run _ _ _ _ _ Hhas).
  unfold assert_ at 1. unfold bind at 1.
  rewrite (bind_run _ _ _ _ _ (typeIdOf_known _ _ _ Hreg)).
  rewrite (bind_run _ _ _ _ _ (deref_run _ _ _ He)).
  rewrite Hslot. reflexivity.
Qed.






(** * The game: weapons *)

Lemma vector_at_run {A} (v : list A) (i : Z) (x : A) w :
  (0 <= i)%Z -> v !! Z.to_nat i = Some x -> vector_at v i w = Ok (x, w).
Proof.
  intros Hi Hx. unfold vector_at. rewrite decide_True by done. by rewrite Hx.
Qed.

Lemma UseShipWeapon_run (group : Group) (maxBullets i : Z) (l : list EntityPtr) w :
  (0 < maxBullets < INT_MAX)%Z ->
  (0 <= i <= maxBullets)%Z ->
  EntityManager_GetEntitiesByGroup group w = Ok (l, w) ->
  let j := if decide (i = maxBullets) then 0%Z else i in
  match l !! Z.to_nat (i mod maxBullets) with
  | Some b =>
      forall t, Entity_GetComponent "Transform" b w = Ok (t, w) ->
      exists ent i',
        entityHeap w !! b = Some ent
        /\ (let! playerBulletList := EntityManager_GetEntitiesByGroup group in
            let! bullet := vector_at playerBulletList j in
            Entity_GetComponent "Transform" bullet ;;
            let! bullet := vector_at playerBulletList j in
            Entity_Enable bullet ;;
            int_incr j) w = Ok (i', poke b (with_active true ent) w)
        /\ i' = (i mod maxBullets + 1)%Z
        /\ (0 < i' <= maxBullets)%Z
  | None =>
      (let! playerBulletList := EntityManager_GetEntitiesByGroup group in
       let! bullet := vector_at playerBulletList j in
       Entity_GetComponent "Transform" bullet ;;
       let! bullet := vector_at playerBulletList j in
       Entity_Enable bullet ;;
       int_incr j) w = Undefined
  end.
Proof.
  intros Hmax Hi Hgroup j.
  assert (Hj : j = (i mod maxBullets)%Z).
  { subst j. case_decide as Hd.
    - subst i. symmetry. apply Z.mod_same. lia.
    - symmetry. apply Z.mod_small. lia. }
  assert (Hpos : (0 <= j < maxBullets)%Z).
  { rewrite Hj. apply Z.mod_pos_bound. lia. }
  clearbody j. rewrite <- Hj. rewrite (bind_run _ _ _ _ _ Hgroup).
  destruct (l !! Z.to_nat j) as [b|] eqn:Hb.
  - intros t Hget. pose proof Hget as Hget'.
    apply Entity_GetComponent_inv in Hget' as (ent & _ & _ & He & _).
    exists ent, (j + 1)%Z.
    split; [exact He|]. split; [|split; [reflexivity | lia]].
    rewrite (bind_run _ _ _ _ _ (vector_at_run l j b w (proj1 Hpos) Hb)).
    rewrite (bind_run _ _ _ _ _ Hget).
    rewrite (bind_run _ _ _ _ _ (vector_at_run l j b w (proj1 Hpos) Hb)).
    rewrite (bind_run _ _ _ _ _ (Entity_Enable_run b ent w He)).
    unfold int_incr. rewrite decide_True by lia. reflexivity.
  - unfold bind, vector_at. rewrite decide_True by lia. by rewrite Hb.
Qed.

(** X16: the weapons go round the pool of bullets. Called with an index
    between 0 and the size of the pool, [UsePlayerShipWeapon] takes the
    bullet at that index of the bucket of its group, counting the size of the
    pool as 0: it enables that bullet, changes nothing else of the
    framework's state, and hands back the next index, again in range. If the
    bucket has no bullet at the index, because it holds fewer than the pool
    should, the call is undefined behaviour. [UseEnemyShipWeapon] does the
    same with its own group and pool. *)
Theorem weapons_go_round_the_pool (i : Z) (l : list EntityPtr) (w : World) :
  ((0 <= i <= maxPlayerBullets)%Z ->
   EntityManager_GetEntitiesByGroup PlayerBullet w = Ok (l, w) ->
   match l !! Z.to_nat (i mod maxPlayerBullets) with
   | Some b =>
       forall t, Entity_GetComponent "Transform" b w = Ok (t, w) ->
       exists ent i',
         entityHeap w !! b = Some ent
         /\ UsePlayerShipWeapon i w = Ok (i', poke b (with_active true ent) w)
         /\ i' = (i mod maxPlayerBullets + 1)%Z
         /\ (0 < i' <= maxPlayerBullets)%Z
   | None => UsePlayerShipWeapon i w = Undefined
   end)
  /\ ((0 <= i <= maxEnemyBullets)%Z ->
      EntityManager_GetEntitiesByGroup EnemyBullet w = Ok (l, w) ->
      match l !! Z.to_nat (i mod maxEnemyBullets) with
      | Some b =>
          forall t, Entity_GetComponent "Transform" b w = Ok (t, w) ->
          exists ent i',
            entityHeap w !! b = Some ent
            /\ UseEnemyShipWeapon i w = Ok (i', poke b (with_active true ent) w)
            /\ i' = (i mod maxEnemyBullets + 1)%Z
            /\ (0 < i' <= maxEnemyBullets)%Z
      | None => UseEnemyShipWeapon i w = Undefined
      end).
Proof.
  split; intros Hi Hgroup.
  - exact (UseShipWeapon_run PlayerBullet maxPlayerBullets i l w
             ltac:(done) Hi Hgroup).
  - exact (UseShipWeapon_run EnemyBullet maxEnemyBullets i l w
             ltac:(done) Hi Hgroup).
Qed.

Lemma weapons_go_round_the_pool_witness :
  (* the pool of [game_world] has two of the six bullets *)
  EntityManager_GetEntitiesByGroup PlayerBullet game_world = Ok ([1; 2]%nat, game_world)
  /\ (exists ent,
        entityHeap game_world !! 2%nat = Some ent
        /\ UsePlayerShipWeapon 1 game_world
           = Ok (2%Z, poke 2%nat (with_active true ent) game_world))
  /\ UsePlayerShipWeapon 2 game_world = Undefined.
Proof.
  assert (Hgroup : EntityManager_GetEntitiesByGroup PlayerBullet game_world
                   = Ok ([1; 2]%nat, game_world)) by (vm_compute; reflexivity).
  split; [exact Hgroup|]. split.
  - destruct (weapons_go_round_the_pool 1 [1; 2]%nat game_world) as [Hplayer _].
    assert (Hi : (0 <= 1 <= maxPlayerBullets)%Z) by (unfold maxPlayerBullets; lia).
    pose proof (Hplayer Hi Hgroup) as H.
    change ([1; 2]%nat !! Z.to_nat (1 mod maxPlayerBullets)) with (Some 2%nat) in H.
    cbv beta iota in H.
    assert (Hget : Entity_GetComponent "Transform" 2%nat game_world
                   = Ok (7%nat, game_world)) by (vm_compute; reflexivity).
    destruct (H 7%nat Hget) as (ent & i' & He & Hrun & -> & _).
    exists ent. split; [exact He | exact Hrun].
  - destruct (weapons_go_round_the_pool 2 [1; 2]%nat game_world) as [Hplayer _].
    assert (Hi : (0 <= 2 <= maxPlayerBullets)%Z) by (unfold maxPlayerBullets; lia).
    exact (Hplayer Hi Hgroup).
Defined.

(** * The game: what [Initialize] requires *)

Lemma game_world_registry_inv : registry_inv (registry game_world).
Proof.
  rewrite game_world_registry.
  assert (Hroom : N.of_nat (size (dom (typeID registry_init)
                    ∪ list_to_set ["Transform"; "Physics"; "RectangleRenderer";
                                   "PlayerController"]%string)) <= size_t_modulus)
    by (vm_compute; discriminate).
  exact (proj1 (type_id_calls_spec _ registry_init registry_init_inv Hroom)).
Qed.

Lemma Initialized_run T c w :
  (if decide (T = "WeaponAIController"%string)
   then GetNextFireTimePoint c else ret tt) w
  = Ok (tt, Initialized T c w).
Proof. unfold Initialized. case_decide; reflexivity. Qed.

Lemma Initialized_application T c w :
  exists a, Initialized T c w = set_application a w.
Proof.
  unfold Initialized. case_decide; [by eexists|].
  exists (application w). by destruct w.
Qed.

(** X17: [Physics], [RectangleRenderer] and [WeaponAIController] require a
    [Transform]. Their [Initialize] fetches the [Transform] of the entity, and
    [AddComponent] calls it: attaching one of them to an entity that has a
    [Transform] returns the new component, with the entity as [AddComponent]
    left it (and, for a [WeaponAIController], its first [nextFireTimePoint]
    drawn from the random engine); attaching it to an entity without a
    [Transform] fails the assertion of [GetComponent]. *)
Theorem Initialize_requires_Transform
    (Space : Keyboard) (T : TypeKey) (e : EntityPtr) (ent : Entity)
    (id idT : ComponentID) (r : Registry) (w : World) :
  T = "Physics"%string \/ T = "RectangleRenderer"%string
    \/ T = "WeaponAIController"%string ->
  sound w ->
  entityHeap w !! e = Some ent ->
  GetComponentTypeID T (registry w) = (id, r) ->
  registry_inv r ->
  id < maxComponents ->
  N.testbit (componentBitset ent) id = false ->
  typeID (registry w) !! "Transform"%string = Some idT ->
  idT < maxComponents ->
  Entity_AddComponent (game_vtable Space) T e w =
    if N.testbit (componentBitset ent) idT
    then Ok (nextComponent w,
             set_trace (trace w ++ [EvInitialize (nextComponent w)])
               (Initialized T (nextComponent w) (attached T e ent id r w)))
    else AssertFail.
Proof.
  intros HT Hs He Hid Hinv Hlt Hbit HregT HltT.
  destruct (so_world _ Hs e ent He) as [_ Hlen].
  rewrite (Entity_AddComponent_run (game_vtable Space) T e ent w id r He Hid Hlt Hbit).
  rewrite decide_True by (rewrite Hlen; unfold maxComponents in *; lia).
  rewrite virtual_Initialize_attached.
  set (c := nextComponent w). set (wa := attached T e ent id r w).
  pose proof (GetComponentTypeID_registered _ _ _ _ Hid) as Hreg.
  pose proof (lookup_weaken _ _ _ _ HregT (GetComponentTypeID_grows _ _ _ _ Hid))
    as HregT'.
  assert (Hne : id <> idT).
  { intros ->. assert (T = "Transform"%string) as ->
      by apply (ri_inj _ Hinv _ _ _ Hreg HregT').
    destruct HT as [HT|[HT|HT]]; discriminate. }
  assert (Hinit : vInitialize (game_vtable Space) T c wa =
                  (let! e := owner c in
                   Entity_GetComponent "Transform" e ;;
                   if decide (T = "WeaponAIController"%string)
                   then GetNextFireTimePoint c else ret tt) wa).
  { cbn [game_vtable vInitialize]. by rewrite decide_True. }
  rewrite Hinit.
  assert (Hown : owner c wa = Ok (e, wa)).
  { unfold owner. subst wa. cbn [attached componentHeap]. fold c.
    rewrite lookup_insert_eq. reflexivity. }
  rewrite (bind_run _ _ _ _ _ Hown).
  assert (Hea : entityHeap wa !! e = Some (attach id c ent)) by apply lookup_insert_eq.
  assert (Hbita : N.testbit (componentBitset (attach id c ent)) idT
                  = N.testbit (componentBitset ent) idT).
  { unfold attach. cbn [componentBitset with_componentBitset].
    apply N.setbit_neq. exact Hne. }
  destruct (N.testbit (componentBitset ent) idT) eqn:HbitT.
  - destruct (so_table _ Hs e ent idT He HbitT) as (ct & T' & Hslot & _).
    rewrite (bind_run _ _ _ _ _
               (Entity_GetComponent_run "Transform" e (attach id c ent) idT ct wa
                  Hea HregT' HltT Hbita
                  ltac:(unfold attach; cbn [componentArray with_componentBitset
                                            with_componentArray];
                        rewrite list_lookup_insert_ne by lia; exact Hslot))).
    rewrite Initialized_run. reflexivity.
  - assert (Hhas : Entity_HasComponent "Transform" e wa = Ok (false, wa)).
    { unfold Entity_HasComponent.
      rewrite (bind_run _ _ _ _ _ (typeIdOf_known "Transform" wa idT HregT')).
      rewrite (bind_run _ _ _ _ _ (deref_run _ _ _ Hea)).
      unfold bitset_get. apply N.ltb_lt in HltT. rewrite HltT, Hbita. reflexivity. }
    unfold Entity_GetComponent. unfold bind at 1.
    rewrite (bind_run _ _ _ _ _ Hhas). reflexivity.
Qed.

Lemma Initialize_requires_Transform_witness :
  let w := default World_init (world_after (EntityManager_AddEntity game_world)) in
  (exists c w', Entity_AddComponent (game_vtable Space_held) "WeaponAIController" 1%nat w
                = Ok (c, w'))
  /\ Entity_AddComponent (game_vtable Space_held) "Physics" 3%nat w = AssertFail.
Proof.
  intros w.
  assert (Hw : maintains EntityManager_AddEntity) by exact maintains_AddEntity.
  assert (Hs : sound w).
  { apply (Hw game_world 3%nat w game_world_sound). vm_compute. reflexivity. }
  split.
  - set (ent := default Entity_new (entityHeap w !! 1%nat)).
    set (r := (GetComponentTypeID "WeaponAIController" (registry game_world)).2).
    assert (Hroom : N.of_nat (size (typeID (registry game_world))) < size_t_modulus)
      by (vm_compute; reflexivity).
    assert (Hinv : registry_inv r).
    { exact (proj1 (GetComponentTypeID_inv "WeaponAIController" (registry game_world)
                      game_world_registry_inv (or_intror Hroom))). }
    eexists _, _.
    rewrite (Initialize_requires_Transform Space_held "WeaponAIController" 1%nat ent
               4 0 r w).
    + change (N.testbit (componentBitset ent) 0) with true. reflexivity.
    + right. right. reflexivity.
    + exact Hs.
    + vm_compute. reflexivity.
    + vm_compute. reflexivity.
    + exact Hinv.
    + vm_compute. reflexivity.
    + vm_compute. reflexivity.
    + vm_compute. reflexivity.
    + vm_compute. reflexivity.
  - rewrite (Initialize_requires_Transform Space_held "Physics" 3%nat Entity_new 1 0
               (registry game_world) w).
    + reflexivity.
    + left. reflexivity.
    + exact Hs.
    + vm_compute. reflexivity.
    + vm_compute. reflexivity.
    + exact game_world_registry_inv.
    + vm_compute. reflexivity.
    + reflexivity.
    + vm_compute. reflexivity.
    + vm_compute. reflexivity.
Defined.

(** * The game: the factories *)

Lemma fits_init : fits registry_init.
Proof. split; [apply registry_init_inv|]. vm_compute. discriminate. Qed.

Lemma fits_below r T id :
  fits r -> typeID r !! T = Some id -> id < maxComponents.
Proof.
  intros [Hinv Hroom] HT. pose proof (ri_below _ Hinv T id HT) as Hlt.
  assert (size (typeID r) <= size (dom (typeID r) ∪ list_to_set (C := gset string)
                                     game_types))%nat.
  { rewrite <- size_dom. apply subseteq_size. set_solver. }
  lia.
Qed.

Lemma fits_step r T id r' :
  fits r -> T ∈ game_types -> GetComponentTypeID T r = (id, r') ->
  fits r' /\ id < maxComponents.
Proof.
  intros [Hinv Hroom] HT Hid.
  assert (Hstep : is_Some (typeID r !! T)
                  \/ N.of_nat (size (typeID r)) < size_t_modulus).
  { destruct (typeID r !! T) as [id0|] eqn:H0; [left; eauto|right].
    assert (size (typeID r) <= size (dom (typeID r) ∪ list_to_set (C := gset string)
                                       game_types))%nat.
    { rewrite <- size_dom. apply subseteq_size. set_solver. }
    unfold maxComponents, size_t_modulus in *. lia. }
  destruct (GetComponentTypeID_inv T r Hinv Hstep) as (Hinv' & Hget & Hsub & Hdom & _).
  rewrite Hid in Hinv', Hget, Hsub, Hdom. cbn [fst snd] in *.
  assert (Hfit' : fits r').
  { split; [exact Hinv'|]. rewrite Hdom.
    replace ({[T]} ∪ dom (typeID r) ∪ list_to_set game_types)
      with (dom (typeID r) ∪ list_to_set (C := gset string) game_types); [exact Hroom|].
    apply set_eq. intros x. rewrite !elem_of_union, elem_of_singleton.
    rewrite elem_of_list_to_set. split; [tauto|]. intros [[->|?]|?]; tauto. }
  split; [exact Hfit'|]. by apply (fits_below r' T id).
Qed.

Lemma game_Initialize_run Space T c e w :
  owner c w = Ok (e, w) ->
  (forall U, U ∈ requires T -> exists cu, Entity_GetComponent U e w = Ok (cu, w)) ->
  vInitialize (game_vtable Space) T c w = Ok (tt, Initialized T c w).
Proof.
  intros Hown Hreq. cbn [game_vtable vInitialize]. unfold requires in Hreq.
  case_decide as H1; [|case_decide as H2].
  - destruct (Hreq "Transform"%string (list_elem_of_here _ _)) as [ct Hct].
    rewrite (bind_run _ _ _ _ _ Hown), (bind_run _ _ _ _ _ Hct).
    apply Initialized_run.
  - destruct (Hreq "Transform"%string (list_elem_of_here _ _)) as [ct Hct].
    destruct (Hreq "Physics"%string
                (list_elem_of_further _ _ _ (list_elem_of_here _ _))) as [cp Hcp].
    rewrite (bind_run _ _ _ _ _ Hown), (bind_run _ _ _ _ _ Hct),
      (bind_run _ _ _ _ _ Hcp).
    unfold Initialized. rewrite decide_False; [reflexivity|]. by intros ->.
  - unfold Initialized. rewrite decide_False; [reflexivity|]. tauto.
Qed.

Lemma building_GetComponent w e Ts U :
  building w e Ts -> U ∈ Ts -> exists cu, Entity_GetComponent U e w = Ok (cu, w).
Proof.
  intros [Hs Hfit (ent & He & _ & Hto)] HU.
  destruct (Hto U HU) as (i & Hreg & Hlt & Hbit).
  destruct (so_table _ Hs e ent i He Hbit) as (cu & T' & Hslot & _).
  exists cu. by apply (Entity_GetComponent_run U e ent i cu w).
Qed.

Lemma building_HasComponent w e Ts :
  building w e Ts ->
  Forall (fun T => Entity_HasComponent T e w = Ok (true, w)) Ts.
Proof.
  intros [Hs Hfit (ent & He & _ & Hto)]. apply list.Forall_forall. intros T HT.
  destruct (Hto T HT) as (i & Hreg & Hlt & Hbit).
  unfold Entity_HasComponent.
  rewrite (bind_run _ _ _ _ _ (typeIdOf_known _ _ _ Hreg)).
  rewrite (bind_run _ _ _ _ _ (deref_run _ _ _ He)).
  unfold bitset_get. apply N.ltb_lt in Hlt. rewrite Hlt, Hbit. reflexivity.
Qed.

(** The factory has called [AddEntity]. *)
Lemma stage_AddEntity w :
  sound w -> fits (registry w) ->
  exists w1,
    EntityManager_AddEntity w = Ok (nextEntity w, w1)
    /\ stage w (nextEntity w) [] true 0 (groupedEntities (manager w)) w1.
Proof.
  intros Hs Hfit. eexists. split; [reflexivity|].
  destruct (maintains_AddEntity w _ _ Hs eq_refl) as [Hs1 _].
  split.
  - split; [exact Hs1 | exact Hfit |].
    exists Entity_new. split; [apply lookup_insert_eq|]. split.
    + intros i Hi. change (componentBitset Entity_new) with 0 in Hi.
      rewrite N.bits_0 in Hi. discriminate.
    + intros T HT. by apply elem_of_nil in HT.
  - reflexivity.
  - reflexivity.
  - reflexivity.
  - intros q Hq. cbn. by rewrite lookup_insert_ne.
  - exists Entity_new. split; [apply lookup_insert_eq | done].
Qed.

(** The factory attaches a component whose requirements are there. *)
Lemma stage_AddComponent Space w0 e Ts ac gb G w T :
  stage w0 e Ts ac gb G w ->
  T ∈ game_types -> T ∉ Ts -> requires T ⊆ Ts ->
  exists w',
    Entity_AddComponent (game_vtable Space) T e w = Ok (nextComponent w, w')
    /\ stage w0 e (T :: Ts) ac gb G w'.
Proof.
  intros [[Hs Hfit (ent & He & Hfrom & Hto)] Hes Hnx HG Hoth (ent0 & He0 & Hfl)]
    HT Hnew Hreq.
  assert (ent0 = ent) as -> by congruence.
  destruct Hfl as (Hal & Hac & Hgb & Hlen).
  destruct (GetComponentTypeID T (registry w)) as [id r] eqn:Hid.
  destruct (fits_step _ _ _ _ Hfit HT Hid) as [Hfit' Hlt].
  pose proof (GetComponentTypeID_registered _ _ _ _ Hid) as Hreg.
  pose proof (GetComponentTypeID_grows _ _ _ _ Hid) as Hsub.
  assert (Hbit : N.testbit (componentBitset ent) id = false).
  { destruct (N.testbit (componentBitset ent) id) eqn:Hb; [|reflexivity].
    destruct (Hfrom id Hb) as (T' & HT' & Hreg').
    pose proof (lookup_weaken _ _ _ _ Hreg' Hsub) as Hreg''.
    assert (T' = T) as -> by apply (ri_inj _ (proj1 Hfit') _ _ _ Hreg'' Hreg).
    contradiction. }
  destruct (so_world _ Hs e ent He) as [_ Hlena].
  assert (Hlen' : (N.to_nat id < length (componentArray ent))%nat)
    by (rewrite Hlena; unfold maxComponents in *; lia).
  rewrite (Entity_AddComponent_run (game_vtable Space) T e ent w id r He Hid Hlt Hbit).
  rewrite decide_True by exact Hlen'.
  rewrite virtual_Initialize_attached.
  set (c := nextComponent w). set (wa := attached T e ent id r w).
  assert (Hea : entityHeap wa !! e = Some (attach id c ent)) by apply lookup_insert_eq.
  assert (Hown : owner c wa = Ok (e, wa)).
  { unfold owner. subst wa. cbn [attached componentHeap]. fold c.
    rewrite lookup_insert_eq. reflexivity. }
  assert (Hbits : forall i, N.testbit (componentBitset (attach id c ent)) i = true
                            <-> id = i \/ N.testbit (componentBitset ent) i = true).
  { intros i. unfold attach. cbn [componentBitset with_componentBitset].
    apply N.setbit_iff. }
  assert (Hinit : vInitialize (game_vtable Space) T c wa
                  = Ok (tt, Initialized T c wa)).
  { apply (game_Initialize_run Space T c e wa Hown). intros U HU.
    destruct (Hto U (Hreq U HU)) as (i & Hregi & Hlti & Hbiti).
    destruct (so_table _ Hs e ent i He Hbiti) as (cu & T' & Hslot & _).
    exists cu. apply (Entity_GetComponent_run U e (attach id c ent) i cu wa Hea).
    - eapply lookup_weaken; eassumption.
    - exact Hlti.
    - apply Hbits. by right.
    - unfold attach. cbn [componentArray with_componentBitset with_componentArray].
      rewrite list_lookup_insert_ne; [exact Hslot|].
      intros Heq. apply N2Nat.inj in Heq. congruence. }
  destruct (Initialized_application T c wa) as [a Ha]. rewrite Ha in Hinit.
  rewrite Hinit. eexists. split; [reflexivity|].
  destruct (attached_sound T e ent id r w Hs He Hid Hbit Hlen') as [Hsa _].
  destruct (sound_set_trace (trace w ++ [EvInitialize c]) (set_application a wa)
              (sound_application a wa Hsa)) as [Hs' _].
  split.
  - split; [exact Hs' | exact Hfit' |].
    exists (attach id c ent). split; [exact Hea|]. split.
    + intros i Hi. apply Hbits in Hi as [<-|Hi].
      * exists T. split; [apply list_elem_of_here | exact Hreg].
      * destruct (Hfrom i Hi) as (T' & HT' & Hreg').
        exists T'. split; [by apply list_elem_of_further|].
        eapply lookup_weaken; eassumption.
    + intros U HU. apply elem_of_cons in HU as [->|HU].
      * exists id. split_and!; [exact Hreg | exact Hlt | apply Hbits; by left].
      * destruct (Hto U HU) as (i & Hregi & Hlti & Hbiti).
        exists i. split_and!; [|exact Hlti| apply Hbits; by right].
        eapply lookup_weaken; eassumption.
  - exact Hes.
  - exact Hnx.
  - exact HG.
  - intros q Hq. cbn. rewrite lookup_insert_ne by done. by apply Hoth.
  - exists (attach id c ent). split; [exact Hea|].
    split_and!; try assumption.
    cbn. rewrite length_app. cbn. lia.
Qed.

(** The factory fetches a component it has attached. *)
Lemma stage_GetComponent w0 e Ts ac gb G w U :
  stage w0 e Ts ac gb G w -> U ∈ Ts ->
  exists cu, Entity_GetComponent U e w = Ok (cu, w).
Proof. intros [Hb _ _ _ _ _]. by apply building_GetComponent. Qed.

Lemma building_poke w e Ts ent ent' :
  building w e Ts -> entityHeap w !! e = Some ent ->
  components ent' = components ent ->
  componentArray ent' = componentArray ent ->
  componentBitset ent' = componentBitset ent ->
  alive ent' = alive ent ->
  building (poke e ent' w) e Ts.
Proof.
  intros [Hs Hfit (ent0 & He0 & Hfrom & Hto)] He Hcs Harr Hbits Hal.
  assert (ent0 = ent) as -> by congruence.
  split.
  - apply (sound_poke w e ent ent' Hs He Hcs Harr Hbits). by rewrite Hal.
  - exact Hfit.
  - exists ent'. split; [apply lookup_insert_eq|]. rewrite Hbits. done.
Qed.

(** The factory disables the entity. *)
Lemma stage_Disable w0 e Ts ac gb G w :
  stage w0 e Ts ac gb G w ->
  exists w', Entity_Disable e w = Ok (tt, w') /\ stage w0 e Ts false gb G w'.
Proof.
  intros [Hb Hes Hnx HG Hoth (ent & He & Hal & Hac & Hgb & Hlen)].
  rewrite (Entity_Disable_run e ent w He). eexists. split; [reflexivity|].
  split.
  - by apply (building_poke w e Ts ent).
  - exact Hes.
  - exact Hnx.
  - exact HG.
  - intros q Hq. cbn. rewrite lookup_insert_ne by done. by apply Hoth.
  - exists (with_active false ent). split; [apply lookup_insert_eq | done].
Qed.

(** The factory puts the entity into its group. *)
Lemma stage_AddGroup w0 e Ts ac gb G w g :
  stage w0 e Ts ac gb G w -> g < maxGroups ->
  exists w' v,
    Entity_AddGroup e g w = Ok (tt, w')
    /\ G !! N.to_nat g = Some v
    /\ stage w0 e Ts ac (N.setbit gb g) (<[N.to_nat g := v ++ [e]]> G) w'.
Proof.
  intros [Hb Hes Hnx HG Hoth (ent & He & Hal & Hac & Hgb & Hlen)] Hg.
  destruct (bucket_exists g w (so_manager _ (bu_sound _ _ _ Hb)) Hg) as (v & Hv & _).
  pose proof (Entity_AddGroup_run e ent g v w He Hg Hv) as Hrun.
  destruct (maintains_Entity_AddGroup e g w tt _ (bu_sound _ _ _ Hb) Hrun) as [Hs' _].
  eexists _, v. split; [exact Hrun|]. split; [by rewrite <- HG|].
  pose proof (building_poke w e Ts ent
                (with_groupBitset (N.setbit (groupBitset ent) g) ent)
                Hb He eq_refl eq_refl eq_refl eq_refl) as [_ Hfit Hent].
  split.
  - split; [exact Hs' | exact Hfit | exact Hent].
  - exact Hes.
  - exact Hnx.
  - cbn. by rewrite HG.
  - intros q Hq. cbn. rewrite lookup_insert_ne by done. by apply Hoth.
  - exists (with_groupBitset (N.setbit (groupBitset ent) g) ent).
    split; [apply lookup_insert_eq|]. cbn. rewrite Hgb. done.
Qed.

(** What the factory has made when it returns. *)
Lemma stage_creates w e Ts ac g v w' (F : M EntityPtr) :
  F w = Ok (e, w') -> e = nextEntity w ->
  g < maxGroups ->
  groupedEntities (manager w) !! N.to_nat g = Some v ->
  stage w e (rev Ts) ac (N.setbit 0 g)
    (<[N.to_nat g := v ++ [e]]> (groupedEntities (manager w))) w' ->
  exists w' v,
    F w = Ok (nextEntity w, w')
    /\ sound w' /\ fits (registry w')
    /\ nextEntity w' = S (nextEntity w)
    /\ entities (manager w') = entities (manager w) ++ [nextEntity w]
    /\ groupedEntities (manager w) !! N.to_nat g = Some v
    /\ groupedEntities (manager w') =
         <[N.to_nat g := v ++ [nextEntity w]]> (groupedEntities (manager w))
    /\ (forall q, q <> nextEntity w -> entityHeap w' !! q = entityHeap w !! q)
    /\ Entity_IsAlive (nextEntity w) w' = Ok (true, w')
    /\ Entity_IsActive (nextEntity w) w' = Ok (ac, w')
    /\ Entity_HasGroup (nextEntity w) g w' = Ok (true, w')
    /\ Forall (fun T => Entity_HasComponent T (nextEntity w) w' = Ok (true, w')) Ts
    /\ (length <$> (components <$> entityHeap w' !! nextEntity w)) = Some (length Ts).
Proof.
  intros Hrun -> Hg Hv [Hb Hes Hnx HG Hoth (ent & He & Hal & Hac & Hgb & Hlen)].
  exists w', v. split_and!; try assumption.
  - apply Hb.
  - apply Hb.
  - rewrite (Entity_IsAlive_run _ ent w' He). by rewrite Hal.
  - rewrite (Entity_IsActive_run _ ent w' He). by rewrite Hac.
  - rewrite (Entity_HasGroup_run _ ent g w' He Hg). rewrite Hgb.
    by rewrite N.setbit_eq.
  - pose proof (building_HasComponent _ _ _ Hb) as Hall.
    rewrite list.Forall_forall in Hall |- *. intros T HT. apply Hall.
    apply list_elem_of_In. apply -> in_rev. by apply list_elem_of_In.
  - rewrite He. cbn. rewrite Hlen. by rewrite length_rev.
Qed.

Ltac side :=
  first [ done
        | apply (bool_decide_unpack _); vm_compute; exact I
        | (intros ? HU; unfold requires in HU; cbn in HU;
           repeat (apply elem_of_cons in HU as [->|HU]);
           [ apply (bool_decide_unpack _); vm_compute; exact I .. |
             by apply elem_of_nil in HU ]) ].

Ltac attach Space T S w' H' S' :=
  let Hx := fresh in
  pose proof (fun h1 h2 h3 => stage_AddComponent Space _ _ _ _ _ _ _ T S h1 h2 h3)
    as Hx;
  destruct Hx as (w' & H' & S'); [side | side | side |].

Lemma CreatePlayerShip_creates Space :
  creates (CreatePlayerShip Space)
    ["Transform"; "Physics"; "RectangleRenderer"; "PlayerController"]%string
    true PlayerShip.
Proof.
  intros w Hs Hfit.
  destruct (stage_AddEntity w Hs Hfit) as (w1 & H1 & S1).
  attach Space "Transform"%string S1 w2 H2 S2.
  attach Space "Physics"%string S2 w3 H3 S3.
  attach Space "RectangleRenderer"%string S3 w4 H4 S4.
  attach Space "PlayerController"%string S4 w5 H5 S5.
  destruct (stage_AddGroup _ _ _ _ _ _ _ PlayerShip S5) as (w6 & v & H6 & Hv & S6);
    [done|].
  apply (stage_creates w (nextEntity w) _ true PlayerShip v w6);
    [|reflexivity | done | exact Hv | exact S6].
  unfold CreatePlayerShip.
  rewrite (bind_run _ _ _ _ _ H1), (bind_run _ _ _ _ _ H2), (bind_run _ _ _ _ _ H3),
    (bind_run _ _ _ _ _ H4), (bind_run _ _ _ _ _ H5), (bind_run _ _ _ _ _ H6).
  reflexivity.
Qed.

Lemma CreateBullet_creates Space (g : Group) :
  g < maxGroups ->
  creates
    (let! entity := EntityManager_AddEntity in
     Entity_AddComponent (game_vtable Space) "Transform" entity ;;
     Entity_AddComponent (game_vtable Space) "Physics" entity ;;
     Entity_AddComponent (game_vtable Space) "RectangleRenderer" entity ;;
     Entity_GetComponent "Physics" entity ;;
     Entity_Disable entity ;;
     Entity_AddGroup entity g ;;
     ret entity)
    ["Transform"; "Physics"; "RectangleRenderer"]%string false g.
Proof.
  intros Hg w Hs Hfit.
  destruct (stage_AddEntity w Hs Hfit) as (w1 & H1 & S1).
  attach Space "Transform"%string S1 w2 H2 S2.
  attach Space "Physics"%string S2 w3 H3 S3.
  attach Space "RectangleRenderer"%string S3 w4 H4 S4.
  destruct (stage_GetComponent _ _ _ _ _ _ _ "Physics"%string S4) as (cp & H5); [side|].
  destruct (stage_Disable _ _ _ _ _ _ _ S4) as (w6 & H6 & S6).
  destruct (stage_AddGroup _ _ _ _ _ _ _ g S6) as (w7 & v & H7 & Hv & S7); [done|].
  apply (stage_creates w (nextEntity w) _ false g v w7);
    [|reflexivity | done | exact Hv | exact S7].
  rewrite (bind_run _ _ _ _ _ H1), (bind_run _ _ _ _ _ H2), (bind_run _ _ _ _ _ H3),
    (bind_run _ _ _ _ _ H4), (bind_run _ _ _ _ _ H5), (bind_run _ _ _ _ _ H6),
    (bind_run _ _ _ _ _ H7).
  reflexivity.
Qed.

Lemma CreatePlayerBullet_creates Space :
  creates (CreatePlayerBullet Space) ["Transform"; "Physics"; "RectangleRenderer"]%string
    false PlayerBullet.
Proof. by apply (CreateBullet_creates Space PlayerBullet). Qed.

Lemma CreateEnemyBullet_creates Space :
  creates (CreateEnemyBullet Space) ["Transform"; "Physics"; "RectangleRenderer"]%string
    false EnemyBullet.
Proof. by apply (CreateBullet_creates Space EnemyBullet). Qed.

Lemma CreateOffensiveEnemyShip_creates Space :
  creates (CreateOffensiveEnemyShip Space)
    ["Transform"; "Physics"; "RectangleRenderer"; "WeaponAIController"]%string
    true OffensiveEnemyShip.
Proof.
  intros w Hs Hfit.
  destruct (stage_AddEntity w Hs Hfit) as (w1 & H1 & S1).
  attach Space "Transform"%string S1 w2 H2 S2.
  attach Space "Physics"%string S2 w3 H3 S3.
  attach Space "RectangleRenderer"%string S3 w4 H4 S4.
  attach Space "WeaponAIController"%string S4 w5 H5 S5.
  destruct (stage_GetComponent _ _ _ _ _ _ _ "Physics"%string S5) as (cp & H6); [side|].
  destruct (stage_AddGroup _ _ _ _ _ _ _ OffensiveEnemyShip S5)
    as (w7 & v & H7 & Hv & S7); [done|].
  apply (stage_creates w (nextEntity w) _ true OffensiveEnemyShip v w7);
    [|reflexivity | done | exact Hv | exact S7].
  unfold CreateOffensiveEnemyShip.
  rewrite (bind_run _ _ _ _ _ H1), (bind_run _ _ _ _ _ H2), (bind_run _ _ _ _ _ H3),
    (bind_run _ _ _ _ _ H4), (bind_run _ _ _ _ _ H5), (bind_run _ _ _ _ _ H6),
    (bind_run _ _ _ _ _ H7).
  reflexivity.
Qed.

Lemma CreateDefensiveEnemyShip_creates Space :
  creates (CreateDefensiveEnemyShip Space)
    ["Transform"; "Physics"; "RectangleRenderer"]%string true DefensiveEnemyShip.
Proof.
  intros w Hs Hfit.
  destruct (stage_AddEntity w Hs Hfit) as (w1 & H1 & S1).
  attach Space "Transform"%string S1 w2 H2 S2.
  attach Space "Physics"%string S2 w3 H3 S3.
  attach Space "RectangleRenderer"%string S3 w4 H4 S4.
  destruct (stage_GetComponent _ _ _ _ _ _ _ "Physics"%string S4) as (cp & H5); [side|].
  destruct (stage_AddGroup _ _ _ _ _ _ _ DefensiveEnemyShip S4)
    as (w6 & v & H6 & Hv & S6); [done|].
  apply (stage_creates w (nextEntity w) _ true DefensiveEnemyShip v w6);
    [|reflexivity | done | exact Hv | exact S6].
  unfold CreateDefensiveEnemyShip.
  rewrite (bind_run _ _ _ _ _ H1), (bind_run _ _ _ _ _ H2), (bind_run _ _ _ _ _ H3),
    (bind_run _ _ _ _ _ H4), (bind_run _ _ _ _ _ H5), (bind_run _ _ _ _ _ H6).
  reflexivity.
Qed.

(** X18: the factories of the game return. Called in a sound state in which
    the component types of the game fit into the registry, each factory
    returns a new entity, appended to the collection and to the bucket of its
    group and to no other, alive, with the components of its types attached,
    active if it is a ship and inactive if it is a bullet; the other entities
    are as they were and the state is sound again. In particular no
    [Initialize] misses the component it requires: the factories attach
    [Transform] first. *)
Theorem factories_create (Space : Keyboard) :
  creates (CreatePlayerShip Space)
    ["Transform"; "Physics"; "RectangleRenderer"; "PlayerController"]%string
    true PlayerShip
  /\ creates (CreatePlayerBullet Space) ["Transform"; "Physics"; "RectangleRenderer"]%string
       false PlayerBullet
  /\ creates (CreateEnemyBullet Space) ["Transform"; "Physics"; "RectangleRenderer"]%string
       false EnemyBullet
  /\ creates (CreateOffensiveEnemyShip Space)
       ["Transform"; "Physics"; "RectangleRenderer"; "WeaponAIController"]%string
       true OffensiveEnemyShip
  /\ creates (CreateDefensiveEnemyShip Space)
       ["Transform"; "Physics"; "RectangleRenderer"]%string true DefensiveEnemyShip.
Proof.
  split_and!.
  - exact (CreatePlayerShip_creates Space).
  - exact (CreatePlayerBullet_creates Space).
  - exact (CreateEnemyBullet_creates Space).
  - exact (CreateOffensiveEnemyShip_creates Space).
  - exact (CreateDefensiveEnemyShip_creates Space).
Qed.

Lemma factories_create_witness :
  exists w',
    CreatePlayerBullet Space_held World_init = Ok (0%nat, w')
    /\ entities (manager w') = [0%nat]
    /\ Entity_IsActive 0%nat w' = Ok (false, w')
    /\ Entity_HasComponent "Physics" 0%nat w' = Ok (true, w').
Proof.
  destruct (factories_create Space_held) as (_ & Hbullet & _).
  destruct (Hbullet World_init World_init_sound fits_init)
    as (w' & v & Hrun & _ & _ & _ & Hes & _ & _ & _ & _ & Hact & _ & Hcomp & _).
  exists w'. split_and!; [exact Hrun | exact Hes | exact Hact |].
  apply list.Forall_cons in Hcomp as [_ Hcomp].
  apply list.Forall_cons in Hcomp as [Hphysics _]. exact Hphysics.
Defined.

(** * The game: the constructor *)

Lemma grown_refl w : sound w -> fits (registry w) -> grown 0 (fun _ => 0%nat) w w.
Proof.
  intros Hs Hfit. split.
  - exact Hs.
  - exact Hfit.
  - lia.
  - cbn. by rewrite app_nil_r.
  - intros g v Hv. exists v. split; [exact Hv | lia].
  - done.
Qed.

Lemma grown_trans n m a b w1 w2 w3 :
  grown n a w1 w2 -> grown m b w2 w3 ->
  grown (n + m) (fun g => a g + b g)%nat w1 w3.
Proof.
  intros [_ _ Hn1 He1 Hb1 Ho1] [Hs Hfit Hn2 He2 Hb2 Ho2]. split; try assumption.
  - lia.
  - rewrite He2, He1, Hn1, <- app_assoc. f_equal. symmetry. apply seq_app.
  - intros g v Hv. destruct (Hb1 g v Hv) as (v1 & Hv1 & Hl1).
    destruct (Hb2 g v1 Hv1) as (v2 & Hv2 & Hl2). exists v2. split; [exact Hv2 | lia].
  - intros q Hq. rewrite Ho2 by lia. by apply Ho1.
Qed.

Lemma grown_ext n m a b w w' :
  n = m -> (forall g, a g = b g) -> grown n a w w' -> grown m b w w'.
Proof.
  intros <- Hab [Hs Hfit Hn He Hb Ho]. split; try assumption.
  intros g v Hv. destruct (Hb g v Hv) as (v' & Hv' & Hl).
  exists v'. split; [exact Hv' | by rewrite <- Hab].
Qed.

Lemma creates_grown F Ts ac g :
  creates F Ts ac g ->
  forall w, sound w -> fits (registry w) ->
    exists e w',
      F w = Ok (e, w')
      /\ grown 1 (fun g' => if decide (g' = N.to_nat g) then 1 else 0)%nat w w'.
Proof.
  intros HF w Hs Hfit.
  destruct (HF w Hs Hfit)
    as (w' & v & Hrun & Hs' & Hfit' & Hnx & Hes & Hv & HG & Hoth & _).
  exists (nextEntity w), w'. split; [exact Hrun|]. split; try assumption.
  - lia.
  - intros g' v' Hv'. rewrite HG. destruct (decide (g' = N.to_nat g)) as [->|Hne].
    + assert (v' = v) as -> by congruence. exists (v ++ [nextEntity w]). split.
      * apply list_lookup_insert_eq. by eapply lookup_lt_Some.
      * rewrite length_app. cbn. lia.
    + exists v'. rewrite list_lookup_insert_ne by done. split; [exact Hv' | lia].
  - intros q Hq. apply Hoth. lia.
Qed.

Lemma for_each_grown {A} (l : list A) (body : A -> M unit) n a :
  (forall x w, sound w -> fits (registry w) ->
     exists w', body x w = Ok (tt, w') /\ grown n a w w') ->
  forall w, sound w -> fits (registry w) ->
    exists w', for_each l body w = Ok (tt, w')
               /\ grown (length l * n) (fun g => length l * a g)%nat w w'.
Proof.
  intros Hbody. induction l as [|x l IH]; intros w Hs Hfit.
  - exists w. split; [reflexivity|]. by apply grown_refl.
  - destruct (Hbody x w Hs Hfit) as (w1 & H1 & G1).
    destruct (IH w1 (gr_sound _ _ _ _ G1) (gr_fits _ _ _ _ G1)) as (w2 & H2 & G2).
    exists w2. split.
    + cbn [for_each]. rewrite (bind_run _ _ _ _ _ H1). exact H2.
    + apply (grown_ext _ _ _ _ _ _ eq_refl (fun g => eq_refl))
        with (1 := grown_trans _ _ _ _ _ _ _ G1 G2).
Qed.

Lemma creates_body F Ts ac g :
  creates F Ts ac g ->
  forall w, sound w -> fits (registry w) ->
    exists w',
      (F ;; ret tt) w = Ok (tt, w')
      /\ grown 1 (fun g' => if decide (g' = N.to_nat g) then 1 else 0)%nat w w'.
Proof.
  intros HF w Hs Hfit. destruct (creates_grown F Ts ac g HF w Hs Hfit)
    as (e & w' & Hrun & Hg).
  exists w'. split; [|exact Hg]. rewrite (bind_run _ _ _ _ _ Hrun). reflexivity.
Qed.

(** One column of enemy ships. *)
Lemma CreateEnemyShips_column Space w :
  sound w -> fits (registry w) ->
  exists w',
    for_each (seqZ 0 countEnemyRow) (fun iY =>
      if decide (Z.rem iY 2 = 0)%Z
      then CreateOffensiveEnemyShip Space ;; ret tt
      else CreateDefensiveEnemyShip Space ;; ret tt) w = Ok (tt, w')
    /\ grown 4 (fun g => match g with 1 => 2 | 4 => 2 | _ => 0 end)%nat w w'.
Proof.
  intros Hs Hfit.
  change (seqZ 0 countEnemyRow) with [0; 1; 2; 3]%Z. cbn [for_each].
  destruct (creates_body _ _ _ _ (CreateOffensiveEnemyShip_creates Space) w Hs Hfit)
    as (w1 & H1 & G1).
  destruct (creates_body _ _ _ _ (CreateDefensiveEnemyShip_creates Space) w1
              (gr_sound _ _ _ _ G1) (gr_fits _ _ _ _ G1)) as (w2 & H2 & G2).
  destruct (creates_body _ _ _ _ (CreateOffensiveEnemyShip_creates Space) w2
              (gr_sound _ _ _ _ G2) (gr_fits _ _ _ _ G2)) as (w3 & H3 & G3).
  destruct (creates_body _ _ _ _ (CreateDefensiveEnemyShip_creates Space) w3
              (gr_sound _ _ _ _ G3) (gr_fits _ _ _ _ G3)) as (w4 & H4 & G4).
  exists w4. split.
  - unfold bind at 1. rewrite decide_True by reflexivity. rewrite H1.
    unfold bind at 1. rewrite decide_False by discriminate. rewrite H2.
    unfold bind at 1. rewrite decide_True by reflexivity. rewrite H3.
    unfold bind at 1. rewrite decide_False by discriminate. rewrite H4.
    reflexivity.
  - pose proof (grown_trans _ _ _ _ _ _ _ G1
                  (grown_trans _ _ _ _ _ _ _ G2
                     (grown_trans _ _ _ _ _ _ _ G3 G4))) as G.
    apply (grown_ext _ _ _ _ _ _ eq_refl) with (2 := G).
    intros g. destruct g as [|[|[|[|[|g]]]]]; vm_compute; reflexivity.
Qed.

(** X19: the constructor of the game returns and fills the groups. Called in
    a sound state in which the component types of the game fit into the
    registry, it adds 79 entities and leaves the others untouched; the
    buckets of the groups grow by one player ship, 18 offensive and 18
    defensive enemy ships, [maxPlayerBullets] player bullets and
    [maxEnemyBullets] enemy bullets, so that from program start the pools the
    weapons go round are full; the state is sound. *)
Theorem Game_new_fills_the_groups (Space : Keyboard) (w : World) :
  sound w -> fits (registry w) ->
  exists w', Game_new Space w = Ok (tt, w') /\ grown 79 Game_added w w'.
Proof.
  intros Hs Hfit.
  destruct (creates_grown _ _ _ _ (CreatePlayerShip_creates Space) w Hs Hfit)
    as (e & w1 & H1 & G1).
  destruct (for_each_grown (seqZ 0 countEnemyColumn) _ _ _
              (fun _ => CreateEnemyShips_column Space) w1
              (gr_sound _ _ _ _ G1) (gr_fits _ _ _ _ G1)) as (w2 & H2 & G2).
  destruct (for_each_grown (seqZ 0 maxPlayerBullets) _ _ _
              (fun _ => creates_body _ _ _ _ (CreatePlayerBullet_creates Space)) w2
              (gr_sound _ _ _ _ G2) (gr_fits _ _ _ _ G2)) as (w3 & H3 & G3).
  destruct (for_each_grown (seqZ 0 maxEnemyBullets) _ _ _
              (fun _ => creates_body _ _ _ _ (CreateEnemyBullet_creates Space)) w3
              (gr_sound _ _ _ _ G3) (gr_fits _ _ _ _ G3)) as (w4 & H4 & G4).
  exists w4. split.
  - unfold Game_new. rewrite (bind_run _ _ _ _ _ H1).
    unfold CreateEnemyShips, CreateAllPlayerBullets, CreateAllEnemyBullets.
    rewrite (bind_run _ _ _ _ _ H2), (bind_run _ _ _ _ _ H3). exact H4.
  - pose proof (grown_trans _ _ _ _ _ _ _ G1
                  (grown_trans _ _ _ _ _ _ _ G2
                     (grown_trans _ _ _ _ _ _ _ G3 G4))) as G.
    apply (grown_ext _ _ _ _ _ _) with (3 := G); [reflexivity|].
    intros g. destruct g as [|[|[|[|[|g]]]]]; vm_compute; reflexivity.
Qed.

Lemma Game_new_fills_the_groups_witness :
  exists w',
    Game_new Space_held World_init = Ok (tt, w')
    /\ length (entities (manager w')) = 79%nat
    /\ (length <$> groupedEntities (manager w') !! N.to_nat PlayerBullet)
       = Some (Z.to_nat maxPlayerBullets)
    /\ (length <$> groupedEntities (manager w') !! N.to_nat EnemyBullet)
       = Some (Z.to_nat maxEnemyBullets).
Proof.
  destruct (Game_new_fills_the_groups Space_held World_init World_init_sound fits_init)
    as (w' & Hrun & [_ _ _ Hes Hb _]).
  exists w'. split; [exact Hrun|]. split_and!.
  - rewrite Hes. reflexivity.
  - destruct (Hb 2%nat [] eq_refl) as (v' & Hv' & Hl).
    change (N.to_nat PlayerBullet) with 2%nat. rewrite Hv'. cbn. by rewrite Hl.
  - destruct (Hb 3%nat [] eq_refl) as (v' & Hv' & Hl).
    change (N.to_nat EnemyBullet) with 3%nat. rewrite Hv'. cbn. by rewrite Hl.
Defined.

(** * The game: the collision phase *)







Section Steady.
Context (w0 : World) (D S : list EntityPtr).



Lemma steady_weaken {A} (m : M A) (Q Q' : A -> Prop) :
  steady w0 D S m Q -> (forall a, Q a -> Q' a) -> steady w0 D S m Q'.
Proof.
  intros Hm HQ w Hfc. destruct (Hm w Hfc) as (a & w1 & H1 & Hfc1 & Ha).
  exists a, w1. auto.
Qed.










End Steady.




(** * The game: the controllers *)

Lemma Entity_GetComponent_application T e c a w :
  Entity_GetComponent T e w = Ok (c, w) ->
  Entity_GetComponent T e (set_application a w) = Ok (c, set_application a w).
Proof.
  intros H.
  apply Entity_GetComponent_inv in H
    as (ent & id & r & He & Hid & Hlt & Hbit & Hslot & Hw).
  pose proof (GetComponentTypeID_registered _ _ _ _ Hid) as Hreg.
  apply (f_equal registry) in Hw. cbn in Hw. rewrite <- Hw in Hreg.
  by apply (Entity_GetComponent_run T e ent id c (set_application a w)).
Qed.

Lemma GetEntitiesByGroup_application g l a w :
  EntityManager_GetEntitiesByGroup g w = Ok (l, w) ->
  EntityManager_GetEntitiesByGroup g (set_application a w)
  = Ok (l, set_application a w).
Proof.
  unfold EntityManager_GetEntitiesByGroup, bucket, bind, get, ret, undefined.
  cbn [manager set_application].
  destruct (groupedEntities (manager w) !! N.to_nat g); [|discriminate].
  intros [= <-]. reflexivity.
Qed.

(** X21: [PlayerController::Update] fires by key and timer. The timer is
    advanced by the frame time. With the fire key down and the timer above
    [fireRate], the hook uses the weapon with the bullet counter of the
    controller, in range: it enables the bullet of the pool at that index
    (the size of the pool counting as 0), moves the counter on, again in
    range, and starts the timer again; should the pool have no bullet there
    the call is undefined behaviour. Otherwise the hook returns with the
    timer advanced and nothing else changed. *)
Theorem PlayerController_fires_by_its_timer
    (Space : Keyboard) (c : CompPtr) (frameTime : FrameTime)
    (l : list EntityPtr) (w : World) :
  let this := PlayerController_members c w in
  let i := PlayerController.currentPlayerBullet this in
  let accumulatedTime :=
    float_add (PlayerController.accumulatedTime this) frameTime in
  (0 <= i <= maxPlayerBullets)%Z ->
  EntityManager_GetEntitiesByGroup PlayerBullet w = Ok (l, w) ->
  if Space (trace w) && float_gt accumulatedTime fireRate
  then match l !! Z.to_nat (i mod maxPlayerBullets) with
       | Some b =>
           forall t, Entity_GetComponent "Transform" b w = Ok (t, w) ->
           exists ent,
             entityHeap w !! b = Some ent
             /\ vUpdate (game_vtable Space) "PlayerController" c frameTime w
                = Ok (tt, with_PlayerController c
                            (PlayerController.mk (i mod maxPlayerBullets + 1)
                               (S754_zero false))
                            (poke b (with_active true ent) w))
             /\ (0 < i mod maxPlayerBullets + 1 <= maxPlayerBullets)%Z
       | None =>
           vUpdate (game_vtable Space) "PlayerController" c frameTime w = Undefined
       end
  else vUpdate (game_vtable Space) "PlayerController" c frameTime w
       = Ok (tt, with_PlayerController c
                   (PlayerController.mk i accumulatedTime) w).
Proof.
  intros this i acc Hi Hl.
  change (vUpdate (game_vtable Space) "PlayerController" c frameTime)
    with (PlayerController_Update Space c frameTime).
  set (wt := with_PlayerController c (PlayerController.mk i acc) w).
  assert (Hstep : PlayerController_Update Space c frameTime w =
            if Space (trace w) && float_gt acc fireRate
            then (let! currentPlayerBullet := UsePlayerShipWeapon i in
                  PlayerController_assign c
                    (PlayerController.mk currentPlayerBullet (S754_zero false))) wt
            else Ok (tt, wt)).
  { unfold PlayerController_Update.
    rewrite (bind_run (PlayerController_this c) _ w _ w eq_refl).
    fold this. fold i. fold acc.
    rewrite (bind_run (PlayerController_assign c _) _ w tt wt eq_refl).
    rewrite (bind_run get _ wt wt wt eq_refl).
    change (trace wt) with (trace w).
    destruct (Space (trace w)), (float_gt acc fireRate); reflexivity. }
  rewrite Hstep. clear Hstep.
  destruct (Space (trace w) && float_gt acc fireRate); [|reflexivity].
  pose proof (UseShipWeapon_run PlayerBullet maxPlayerBullets i l wt
                ltac:(done) Hi
                (GetEntitiesByGroup_application _ _ _ _ Hl)) as Hweapon.
  cbv zeta in Hweapon.
  destruct (l !! Z.to_nat (i mod maxPlayerBullets)) as [b|].
  - intros t Ht.
    destruct (Hweapon t (Entity_GetComponent_application _ _ _ _ _ Ht))
      as (ent & i' & He & Hrun & -> & Hrange).
    exists ent. split; [exact He|]. split; [|exact Hrange].
    unfold bind at 1.
    change (UsePlayerShipWeapon i wt) with
      ((let! playerBulletList := EntityManager_GetEntitiesByGroup PlayerBullet in
        let! bullet := vector_at playerBulletList
                         (if decide (i = maxPlayerBullets) then 0%Z else i) in
        Entity_GetComponent "Transform" bullet ;;
        let! bullet := vector_at playerBulletList
                         (if decide (i = maxPlayerBullets) then 0%Z else i) in
        Entity_Enable bullet ;;
        int_incr (if decide (i = maxPlayerBullets) then 0%Z else i)) wt).
    rewrite Hrun.
    unfold PlayerController_assign, with_PlayerController, wt, with_PlayerController,
      poke.
    cbn [application set_application set_entityHeap entityHeap playerControllers
         weaponAIControllers rndEngine registry nextEntity componentHeap
         nextComponent manager trace].
    rewrite insert_insert_eq. reflexivity.
  - unfold bind at 1.
    change (UsePlayerShipWeapon i wt) with
      ((let! playerBulletList := EntityManager_GetEntitiesByGroup PlayerBullet in
        let! bullet := vector_at playerBulletList
                         (if decide (i = maxPlayerBullets) then 0%Z else i) in
        Entity_GetComponent "Transform" bullet ;;
        let! bullet := vector_at playerBulletList
                         (if decide (i = maxPlayerBullets) then 0%Z else i) in
        Entity_Enable bullet ;;
        int_incr (if decide (i = maxPlayerBullets) then 0%Z else i)) wt).
    rewrite Hweapon. reflexivity.
Qed.

Lemma PlayerController_fires_by_its_timer_witness :
  (* the ship of [game_world], the fire key down: the first time slice
     fires the bullet 1, the first of the pool *)
  exists ent,
    entityHeap game_world !! 1%nat = Some ent
    /\ vUpdate (game_vtable Space_held) "PlayerController" 3%nat (float_of_int 1)
         game_world
       = Ok (tt, with_PlayerController 3%nat
                   (PlayerController.mk 1 (S754_zero false))
                   (poke 1%nat (with_active true ent) game_world)).
Proof.
  assert (Hgroup : EntityManager_GetEntitiesByGroup PlayerBullet game_world
                   = Ok ([1; 2]%nat, game_world)) by (vm_compute; reflexivity).
  assert (Hthis : PlayerController_members 3%nat game_world = PlayerController_new)
    by (vm_compute; reflexivity).
  pose proof (PlayerController_fires_by_its_timer Space_held 3%nat (float_of_int 1)
                [1; 2]%nat game_world) as H.
  cbv zeta in H. rewrite Hthis in H.
  assert (Hi : (0 <= PlayerController.currentPlayerBullet PlayerController_new
                <= maxPlayerBullets)%Z) by (vm_compute; split; discriminate).
  specialize (H Hi Hgroup).
  change (Space_held (trace game_world)
          && float_gt (float_add (PlayerController.accumulatedTime PlayerController_new)
                         (float_of_int 1)) fireRate) with true in H.
  change ([1; 2]%nat !! Z.to_nat
            (PlayerController.currentPlayerBullet PlayerController_new
             mod maxPlayerBullets)) with (Some 1%nat) in H.
  cbv beta iota in H.
  assert (Hget : Entity_GetComponent "Transform" 1%nat game_world
                 = Ok (4%nat, game_world)) by (vm_compute; reflexivity).
  destruct (H 4%nat Hget) as (ent & He & Hrun & _).
  exists ent. split; [exact He | exact Hrun].
Defined.

(** X22: [WeaponAIController::Update] fires by its timer. The timer is
    advanced by the frame time. Once it is above [nextFireTimePoint], the
    hook uses the weapon with the bullet counter of the controller: it
    enables the bullet of the pool at that index, moves the counter on,
    steps the random engine to draw the next point in time, between one and
    fifteen seconds, and starts the timer again; should the pool have no
    bullet there the call is undefined behaviour. Otherwise the hook returns
    with the timer advanced and nothing else changed. *)
Theorem WeaponAIController_fires_by_its_timer
    (Space : Keyboard) (c : CompPtr) (frameTime : FrameTime)
    (l : list EntityPtr) (w : World) :
  let this := WeaponAIController_members c w in
  let i := WeaponAIController.currentEnemyBullet this in
  let accumulatedTime :=
    float_add (WeaponAIController.accumulatedTime this) frameTime in
  let x := minstd_rand (rndEngine (application w)) in
  (0 <= i <= maxEnemyBullets)%Z ->
  EntityManager_GetEntitiesByGroup EnemyBullet w = Ok (l, w) ->
  if float_gt accumulatedTime (WeaponAIController.nextFireTimePoint this)
  then match l !! Z.to_nat (i mod maxEnemyBullets) with
       | Some b =>
           forall t, Entity_GetComponent "Transform" b w = Ok (t, w) ->
           exists ent,
             entityHeap w !! b = Some ent
             /\ vUpdate (game_vtable Space) "WeaponAIController" c frameTime w
                = Ok (tt, with_WeaponAIController c
                            (WeaponAIController.mk (i mod maxEnemyBullets + 1)
                               (float_of_int ((1 + x mod 15) * 1000))
                               (S754_zero false))
                            (with_rndEngine x (poke b (with_active true ent) w)))
             /\ (0 < i mod maxEnemyBullets + 1 <= maxEnemyBullets)%Z
             /\ (1 <= 1 + x mod 15 <= 15)%Z
       | None =>
           vUpdate (game_vtable Space) "WeaponAIController" c frameTime w
           = Undefined
       end
  else vUpdate (game_vtable Space) "WeaponAIController" c frameTime w
       = Ok (tt, with_WeaponAIController c
                   (WeaponAIController.mk i
                      (WeaponAIController.nextFireTimePoint this)
                      accumulatedTime) w).
Proof.
  intros this i acc x Hi Hl.
  change (vUpdate (game_vtable Space) "WeaponAIController" c frameTime)
    with (WeaponAIController_Update c frameTime).
  set (wt := with_WeaponAIController c
               (WeaponAIController.mk i (WeaponAIController.nextFireTimePoint this)
                  acc) w).
  unfold WeaponAIController_Update.
  rewrite (bind_run (WeaponAIController_this c) _ w _ w eq_refl).
  fold this. fold i. fold acc.
  rewrite (bind_run (WeaponAIController_assign c _) _ w tt wt eq_refl).
  destruct (float_gt acc (WeaponAIController.nextFireTimePoint this));
    [|reflexivity].
  pose proof (UseShipWeapon_run EnemyBullet maxEnemyBullets i l wt
                ltac:(done) Hi
                (GetEntitiesByGroup_application _ _ _ _ Hl)) as Hweapon.
  cbv zeta in Hweapon.
  assert (Hunfold : UseEnemyShipWeapon i wt =
      (let! enemyBulletList := EntityManager_GetEntitiesByGroup EnemyBullet in
       let! bullet := vector_at enemyBulletList
                        (if decide (i = maxEnemyBullets) then 0%Z else i) in
       Entity_GetComponent "Transform" bullet ;;
       let! bullet := vector_at enemyBulletList
                        (if decide (i = maxEnemyBullets) then 0%Z else i) in
       Entity_Enable bullet ;;
       int_incr (if decide (i = maxEnemyBullets) then 0%Z else i)) wt)
    by reflexivity.
  destruct (l !! Z.to_nat (i mod maxEnemyBullets)) as [b|].
  - intros t Ht.
    destruct (Hweapon t (Entity_GetComponent_application _ _ _ _ _ Ht))
      as (ent & i' & He & Hrun & -> & Hrange).
    exists ent. split; [exact He|]. split; [|split; [exact Hrange|]].
    + rewrite <- Hunfold in Hrun. rewrite (bind_run _ _ _ _ _ Hrun).
      set (w1 := poke b (with_active true ent) wt).
      rewrite (bind_run (WeaponAIController_assign c _) _ w1 tt _ eq_refl).
      unfold GetNextFireTimePoint.
      rewrite (bind_run (bind rndEngine_call _) _ _ tt _ eq_refl).
      rewrite (bind_run (WeaponAIController_this c) _ _ _ _ eq_refl).
      unfold WeaponAIController_assign, with_WeaponAIController, with_rndEngine,
        WeaponAIController_members, w1, poke, wt, with_WeaponAIController.
      cbn [application set_application set_entityHeap weaponAIControllers
           playerControllers rndEngine registry entityHeap nextEntity
           componentHeap nextComponent manager trace].
      rewrite !lookup_insert_eq.
      cbn [default WeaponAIController.currentEnemyBullet
           WeaponAIController.nextFireTimePoint
           WeaponAIController.accumulatedTime].
      rewrite !insert_insert_eq. reflexivity.
    + pose proof (Z.mod_pos_bound x 15 ltac:(lia)). lia.
  - rewrite <- Hunfold in Hweapon. unfold bind at 1. rewrite Hweapon. reflexivity.
Qed.

Lemma WeaponAIController_fires_by_its_timer_witness :
  (* an enemy ship and a pooled bullet: the ship has drawn two seconds *)
  let w := default World_init
             (world_after ((CreateOffensiveEnemyShip Space_held ;;
                            CreateEnemyBullet Space_held) World_init)) in
  WeaponAIController_members 3%nat w
    = WeaponAIController.mk 0 (float_of_int 2000) (S754_zero false)
  /\ vUpdate (game_vtable Space_held) "WeaponAIController" 3%nat (float_of_int 1) w
     = Ok (tt, with_WeaponAIController 3%nat
                 (WeaponAIController.mk 0 (float_of_int 2000) (float_of_int 1)) w)
  /\ exists ent,
       entityHeap w !! 1%nat = Some ent
       /\ vUpdate (game_vtable Space_held) "WeaponAIController" 3%nat
            (float_of_int 2001) w
          = Ok (tt, with_WeaponAIController 3%nat
                      (WeaponAIController.mk 1 (float_of_int 10000)
                         (S754_zero false))
                      (with_rndEngine 182605794
                         (poke 1%nat (with_active true ent) w))).
Proof.
  intros w.
  assert (Hgroup : EntityManager_GetEntitiesByGroup EnemyBullet w = Ok ([1%nat], w))
    by (vm_compute; reflexivity).
  assert (Hthis : WeaponAIController_members 3%nat w
                  = WeaponAIController.mk 0 (float_of_int 2000) (S754_zero false))
    by (vm_compute; reflexivity).
  assert (Hx : minstd_rand (rndEngine (application w)) = 182605794%Z)
    by (vm_compute; reflexivity).
  assert (Hi : (0 <= 0 <= maxEnemyBullets)%Z) by (vm_compute; split; discriminate).
  split; [exact Hthis|]. split.
  - pose proof (WeaponAIController_fires_by_its_timer Space_held 3%nat
                  (float_of_int 1) [1%nat] w) as H.
    cbv zeta in H. rewrite Hthis in H. exact (H Hi Hgroup).
  - pose proof (WeaponAIController_fires_by_its_timer Space_held 3%nat
                  (float_of_int 2001) [1%nat] w) as H.
    cbv zeta in H. rewrite Hthis, Hx in H. specialize (H Hi Hgroup).
    cbv beta iota in H.
    assert (Hget : Entity_GetComponent "Transform" 1%nat w = Ok (4%nat, w))
      by (vm_compute; reflexivity).
    destruct (H 4%nat Hget) as (ent & He & Hrun & _).
    exists ent. split; [exact He | exact Hrun].
Defined.


(** The engine is the one of the standard, which has the 10000th call of a
    default-constructed [std::minstd_rand] return 399268537. *)
Example rndEngine_10000th :
  value_after
    ((for_each (seqZ 0 9999) (fun _ => rndEngine_call ;; ret tt) ;;
      rndEngine_call) World_init) = Some 399268537%Z.
Proof. vm_compute. reflexivity. Qed.

(** [PlayerController::Update] in [game_world], whose pool has the bullets 1
    and 2, both inactive. With the fire key down the first time slice fires
    (the timer starts above [fireRate]) and enables the bullet 1; a slice
    directly after it does not fire; a slice a second later fires the next
    bullet. With the key up nothing is fired and the timer runs on. *)
Example PlayerController_Update_runs :
  let seen (Space : Keyboard) (frameTimes : list FrameTime) :=
    w ← world_after
          (run_calls (game_vtable Space) (map CallUpdate frameTimes) game_world);
    Some (active <$> entityHeap w !! 1%nat, active <$> entityHeap w !! 2%nat,
          playerControllers (application w) !! 3%nat) in
  seen Space_held [float_of_int 1]
    = Some (Some true, Some false,
            Some (PlayerController.mk 1 (S754_zero false)))
  /\ seen Space_held [float_of_int 1; float_of_int 1]
     = Some (Some true, Some false,
             Some (PlayerController.mk 1 (float_of_int 1)))
  /\ seen Space_held [float_of_int 1; float_of_int 1001]
     = Some (Some true, Some true,
             Some (PlayerController.mk 2 (S754_zero false)))
  /\ seen (fun _ => false) [float_of_int 1]
     = Some (Some false, Some false,
             Some (PlayerController.mk 0 (float_of_int 1002))).
Proof. split_and!; vm_compute; reflexivity. Qed.

(** [WeaponAIController::Update] in the game as [Game()] builds it. An
    enemy ship waits between one and fifteen seconds: in a first time slice
    of a millisecond no enemy bullet is fired, in one of sixteen seconds
    every offensive ship fires. Each [WeaponAIController] counts on its own
    copy of the bullet counter, so all of them take the first bullet of the
    pool. *)
Example WeaponAIController_Update_runs :
  let seen (frameTime : FrameTime) :=
    w ← world_after
          ((Game_new Space_held ;;
            EntityManager_Update (game_vtable Space_held) frameTime) World_init);
    l ← groupedEntities (manager w) !! N.to_nat EnemyBullet;
    Some ((fun e => active <$> entityHeap w !! e) <$> take 3 l,
          WeaponAIController.currentEnemyBullet <$>
            (map_to_list (weaponAIControllers (application w))).*2) in
  seen (float_of_int 1)
    = Some ([Some false; Some false; Some false], replicate 18 0%Z)
  /\ seen (float_of_int 16000)
     = Some ([Some true; Some false; Some false], replicate 18 1%Z).
Proof. split; vm_compute; reflexivity. Qed.
